(** * Input normalisation and validation of the Monte Carlo cost-risk frontend

    A shallow embedding of the logic of [App.jsx] (CSV import, derived
    costs, validation issues, payload construction, result lifecycle and
    sensitivity tiers) together with the properties its specification
    states about it. *)

From Stdlib Require Import QArith Qabs ZArith Ascii String List Lia.
From stdpp Require Import base decidable option list sorting strings gmap pretty.

(** ** JavaScript strings

    Strings are sequences of code units.  On text in the ASCII range
    [toLowerCase] and [trim] act as written below; letters and blanks
    outside that range, which the methods of the language fold and strip
    as well, are left alone here, so a property that turns on how names
    compare is stated for text that [isAscii] accepts. *)

Module Str.

(** Every code unit is below 128. *)
Fixpoint isAscii (s : string) : bool :=
  match s with
  | EmptyString => true
  | String c r => (nat_of_ascii c <? 128) && isAscii r
  end.

Definition lower (c : ascii) : ascii :=
  let n := nat_of_ascii c in
  if (65 <=? n) && (n <=? 90) then ascii_of_nat (n + 32) else c.

Fixpoint toLowerCase (s : string) : string :=
  match s with
  | EmptyString => EmptyString
  | String c r => String (lower c) (toLowerCase r)
  end.

Fixpoint trimStart (s : string) : string :=
  match s with
  | String c r => if Ascii.is_space c then trimStart r else s
  | EmptyString => EmptyString
  end.

Definition trimEnd (s : string) : string :=
  String.rev (trimStart (String.rev s)).

Definition trim (s : string) : string := trimEnd (trimStart s).

(** [s.split(sep)] for a one-character separator: never the empty list. *)
Fixpoint split_go (sep : ascii) (cur : string) (s : string) : list string :=
  match s with
  | EmptyString => [String.rev cur]
  | String c r =>
      if Ascii.eqb c sep then String.rev cur :: split_go sep EmptyString r
      else split_go sep (String c cur) r
  end.

Definition split (sep : ascii) (s : string) : list string :=
  split_go sep EmptyString s.

(** [parts.join(sep)] *)
Fixpoint join (sep : string) (parts : list string) : string :=
  match parts with
  | [] => ""
  | [p] => p
  | p :: rest => p +:+ sep +:+ join sep rest
  end.

Definition CR : ascii := ascii_of_nat 13.
Definition LF : ascii := ascii_of_nat 10.

(** [s.replace(/\r\n/g, "\n")] *)
Fixpoint replaceCRLF (s : string) : string :=
  match s with
  | EmptyString => EmptyString
  | String c r =>
      match r with
      | String d r' =>
          if Ascii.eqb c CR && Ascii.eqb d LF
          then String LF (replaceCRLF r')
          else String c (replaceCRLF r)
      | EmptyString => String c EmptyString
      end
  end.

(** [s.replace(/\r/g, "\n")] *)
Fixpoint replaceCR (s : string) : string :=
  match s with
  | EmptyString => EmptyString
  | String c r => String (if Ascii.eqb c CR then LF else c) (replaceCR r)
  end.

Fixpoint hasLineTerminator (s : string) : bool :=
  match s with
  | EmptyString => false
  | String c r => Ascii.eqb c CR || Ascii.eqb c LF || hasLineTerminator r
  end.

Definition last (s : string) : option ascii :=
  match String.rev s with
  | String c _ => Some c
  | EmptyString => None
  end.

Definition dropLast (s : string) : string :=
  match String.rev s with
  | String _ r => String.rev r
  | EmptyString => EmptyString
  end.

(** The two [replace] calls of [splitRow], one per quote character [q]:
    the pattern is anchored at both ends, so it matches when [s] opens and
    closes with two distinct occurrences of [q] and nothing in between is
    a line terminator (which the dot does not match); the match is
    replaced by what stands between the quotes. *)
Definition stripQuotes (q : ascii) (s : string) : string :=
  match s with
  | String c r =>
      match last r with
      | Some d =>
          if Ascii.eqb c q && Ascii.eqb d q && negb (hasLineTerminator (dropLast r))
          then dropLast r else s
      | None => s
      end
  | EmptyString => s
  end.

(** [arr.indexOf(x)]; [None] stands for the result [-1]. *)
Fixpoint indexOf (l : list string) (x : string) : option nat :=
  match l with
  | [] => None
  | y :: r => if String.eqb y x then Some 0%nat else S <$> indexOf r x
  end.

(** [arr.includes(x)] *)
Definition includes (l : list string) (x : string) : bool :=
  existsb (String.eqb x) l.

(** [cells[i] || ""] and [String(cells[i] ?? "")]: an index past the end
    reads [undefined], which both turn into the empty string. *)
Definition cellAt (cells : list string) (i : nat) : string :=
  default "" (cells !! i).

End Str.

(** ** JavaScript numbers

    A Number is an IEEE-754 double.  The embedding keeps the exact value of
    a finite double as a rational and has [NaN] and the two infinities
    beside it.  A decimal literal, the value of a numeric string and a
    product are rounded to the nearest double, ties to even ([Num.round]).
    Comparison, [Number.isFinite] and truthiness are exact on doubles, and
    so is the sign of a difference, which is all the comparator of a sort
    uses of it.  The two zeros are not told apart. *)

Inductive number : Type :=
  | NaN
  | Infinity (negative : bool)
  | Fin (q : Q).

Module Num.

Definition zero : number := Fin 0.
Definition one : number := Fin 1.

Definition isFinite (n : number) : bool :=
  match n with Fin _ => true | _ => false end.

(** [ToBoolean] on a number: everything but [0] and [NaN]. *)
Definition truthy (n : number) : bool :=
  match n with
  | NaN => false
  | Infinity _ => true
  | Fin q => negb (Qeq_bool q 0)
  end.

(** [n || d] with a number on the left. *)
Definition orElse (n d : number) : number := if truthy n then n else d.

(** The order of two numbers; [None] when one of them is [NaN]. *)
Definition compare (a b : number) : option comparison :=
  match a, b with
  | NaN, _ | _, NaN => None
  | Infinity true, Infinity true => Some Eq
  | Infinity true, _ => Some Lt
  | _, Infinity true => Some Gt
  | Infinity false, Infinity false => Some Eq
  | Infinity false, _ => Some Gt
  | _, Infinity false => Some Lt
  | Fin x, Fin y => Some (x ?= y)%Q
  end.

Definition ltb (a b : number) : bool :=
  match compare a b with Some Lt => true | _ => false end.
Definition gtb (a b : number) : bool :=
  match compare a b with Some Gt => true | _ => false end.
Definition leb (a b : number) : bool :=
  match compare a b with Some Lt | Some Eq => true | _ => false end.
Definition geb (a b : number) : bool :=
  match compare a b with Some Gt | Some Eq => true | _ => false end.

Definition sub (a b : number) : number :=
  match a, b with
  | NaN, _ | _, NaN => NaN
  | Infinity s, Infinity s' => if Bool.eqb s s' then NaN else Infinity s
  | Infinity s, Fin _ => Infinity s
  | Fin _, Infinity s => Infinity (negb s)
  | Fin x, Fin y => Fin (Qred (x - y))
  end.

Definition isNeg (q : Q) : bool :=
  match (q ?= 0)%Q with Lt => true | _ => false end.

(** The double nearest to a rational, ties to even: with [e] the binary
    exponent of [|q|] the unit in the last place is [2^u] for
    [u = max (e - 52) (-1074)] (53 significant bits, fewer below the
    normal range), the significand [m] is [|q| / 2^u] rounded to an integer,
    and a result of [2^1024] or more is an infinity. *)
Definition round (q : Q) : number :=
  let a := Z.abs (Qnum q) in
  let d := Zpos (Qden q) in
  if (a =? 0)%Z then Fin 0
  else
    let l := (Z.log2 a - Z.log2 d)%Z in
    let atLeast := if (0 <=? l)%Z then (d * 2 ^ l <=? a)%Z
                   else (d <=? a * 2 ^ (- l))%Z in
    let e := if atLeast then l else (l - 1)%Z in
    let u := Z.max (e - 52) (-1074) in
    let num := if (0 <=? u)%Z then a else (a * 2 ^ (- u))%Z in
    let den := if (0 <=? u)%Z then (d * 2 ^ u)%Z else d in
    let f := (num / den)%Z in
    let m := match (2 * (num mod den) ?= den)%Z with
             | Lt => f
             | Gt => (f + 1)%Z
             | Eq => if Z.even f then f else (f + 1)%Z
             end in
    if (0 <=? u)%Z && (2 ^ 1024 <=? m * 2 ^ u)%Z then Infinity (isNeg q)
    else
      let s := if isNeg q then (- m)%Z else m in
      Fin (Qred (if (0 <=? u)%Z then inject_Z (s * 2 ^ u)
                 else s # Z.to_pos (2 ^ (- u)))).

Definition mul (a b : number) : number :=
  match a, b with
  | NaN, _ | _, NaN => NaN
  | Infinity s, Infinity s' => Infinity (xorb s s')
  | Infinity s, Fin q | Fin q, Infinity s =>
      if Qeq_bool q 0 then NaN else Infinity (xorb s (isNeg q))
  | Fin x, Fin y => round (x * y)
  end.

(** [Math.max(a, b)] and [Math.min(a, b)] *)
Definition max (a b : number) : number :=
  match compare a b with
  | None => NaN
  | Some Lt => b
  | Some _ => a
  end.
Definition min (a b : number) : number :=
  match compare a b with
  | None => NaN
  | Some Gt => b
  | Some _ => a
  end.

Definition ofZ (z : Z) : number := Fin (inject_Z z).

(** The decimal [m / 10^k] as a number, for literals such as [0.30]. *)
Definition dec (m : Z) (k : nat) : number :=
  round (m # Pos.of_nat (10 ^ k)).

End Num.

(** ** [Number(string)]

    The StringNumericLiteral grammar: surrounding white space is
    dropped, the empty string is [0], then either a binary, octal or
    hexadecimal integer without sign, or an optional sign followed by
    [Infinity] or a decimal literal with optional fraction and exponent;
    anything else is [NaN].  The value is rounded to the nearest double:
    a decimal beyond the range of doubles becomes an infinity and one below
    it becomes zero. *)

Module NumParse.

Local Open Scope Z_scope.

Definition digitOf (base : Z) (c : ascii) : option Z :=
  let n := Z.of_nat (nat_of_ascii c) in
  let d :=
    if (48 <=? n) && (n <=? 57) then Some (n - 48)
    else if (97 <=? n) && (n <=? 102) then Some (n - 87)
    else if (65 <=? n) && (n <=? 70) then Some (n - 55)
    else None in
  match d with
  | Some v => if v <? base then Some v else None
  | None => None
  end.

(** The longest prefix of digits: its value, its length, and the rest. *)
Fixpoint digits (base : Z) (acc : Z) (len : nat) (s : string) : Z * nat * string :=
  match s with
  | String c r =>
      match digitOf base c with
      | Some d => digits base (acc * base + d) (S len) r
      | None => (acc, len, s)
      end
  | EmptyString => (acc, len, s)
  end.

(** A whole string of one or more digits in [base]. *)
Definition integerIn (base : Z) (s : string) : option Z :=
  match digits base 0 0%nat s with
  | (v, S _, EmptyString) => Some v
  | _ => None
  end.

(** The value of a literal is the double nearest to what it denotes. *)
Definition ofDecimal (q : Q) : number := Num.round q.

(** The exponent part: empty, or [e]/[E], an optional sign and digits. *)
Definition exponent (s : string) : option Z :=
  match s with
  | EmptyString => Some 0
  | String c r =>
      if Ascii.eqb c "e" || Ascii.eqb c "E" then
        match r with
        | String "+" r' => integerIn 10 r'
        | String "-" r' => Z.opp <$> integerIn 10 r'
        | _ => integerIn 10 r
        end
      else None
  end.

(** Digits, an optional fraction, an optional exponent. *)
Definition unsignedDecimal (s : string) : option Q :=
  let '(ip, ilen, r1) := digits 10 0 0%nat s in
  let '(fp, flen, r2) :=
    match r1 with
    | String "." r => digits 10 0 0%nat r
    | _ => (0, 0%nat, r1)
    end in
  match ilen, flen with
  | O, O => None
  | _, _ =>
      match exponent r2 with
      | Some e =>
          let m := ip * 10 ^ Z.of_nat flen + fp in
          let e' := e - Z.of_nat flen in
          Some (if 0 <=? e' then inject_Z (m * 10 ^ e')
                else m # Z.to_pos (10 ^ (- e')))
      | None => None
      end
  end.

Definition unsignedLiteral (negative : bool) (s : string) : number :=
  if String.eqb s "Infinity" then Infinity negative
  else match unsignedDecimal s with
       | Some q => ofDecimal (if negative then - q else q)%Q
       | None => NaN
       end.

Definition nonDecimal (s : string) : option number :=
  match s with
  | String "0" (String c r) =>
      let lit (base : Z) :=
        Some (match integerIn base r with
              | Some v => ofDecimal (inject_Z v)
              | None => NaN
              end) in
      if Ascii.eqb c "x" || Ascii.eqb c "X" then lit 16
      else if Ascii.eqb c "o" || Ascii.eqb c "O" then lit 8
      else if Ascii.eqb c "b" || Ascii.eqb c "B" then lit 2
      else None
  | _ => None
  end.

Definition StringToNumber (s : string) : number :=
  let t := Str.trim s in
  match t with
  | EmptyString => Num.zero
  | String "+" r => unsignedLiteral false r
  | String "-" r => unsignedLiteral true r
  | _ => match nonDecimal t with
         | Some n => n
         | None => unsignedLiteral false t
         end
  end.

End NumParse.

(** ** JavaScript values held in the fields of the state *)

Inductive JsVal : Type :=
  | VUndefined
  | VNull
  | VBool (b : bool)
  | VNum (n : number)
  | VStr (s : string).

(** [Number(v)] *)
Definition Number (v : JsVal) : number :=
  match v with
  | VUndefined => NaN
  | VNull => Num.zero
  | VBool b => if b then Num.one else Num.zero
  | VNum n => n
  | VStr s => NumParse.StringToNumber s
  end.

(** [v ?? d] *)
Definition nullish (v d : JsVal) : JsVal :=
  match v with
  | VUndefined | VNull => d
  | _ => v
  end.

(** [v === null || v === undefined || v === ""] *)
Definition isBlank (v : JsVal) : bool :=
  match v with
  | VNull | VUndefined | VStr EmptyString => true
  | _ => false
  end.

(** ** Minimal CSV helpers *)

(** [normaliseLines]: unify line endings, split, trim, drop blank lines. *)
Definition normaliseLines (text : string) : list string :=
  List.filter (fun l => negb (String.eqb l ""))
    (Str.trim <$> Str.split Str.LF (Str.replaceCR (Str.replaceCRLF text))).

Definition DQUOTE : ascii := ascii_of_nat 34.
Definition SQUOTE : ascii := ascii_of_nat 39.

(** [splitRow]: split at commas, trim, strip one pair of surrounding quotes
    of each kind. *)
Definition splitRow (row : string) : list string :=
  (fun c => Str.stripQuotes SQUOTE (Str.stripQuotes DQUOTE c))
    <$> (Str.trim <$> Str.split "," row).

(** The [findIdx]/[idx] closures of both parsers: the position in the header
    of the first alias that occurs in it. *)
Fixpoint findIdx (header : list string) (aliases : list string) : option nat :=
  match aliases with
  | [] => None
  | a :: rest =>
      match Str.indexOf header (Str.toLowerCase a) with
      | Some i => Some i
      | None => findIdx header rest
      end
  end.

(** ** CBS CSV *)

Record CbsCsvRow : Type := mkCbsCsvRow {
  csv_name : string;
  csv_baseCost : option number;
  csv_low : option number;
  csv_mostLikely : option number;
  csv_high : option number
}.

(** [toNumOrNull]: [None] is [null]. *)
Definition toNumOrNull (v : string) : option number :=
  let s := Str.trim v in
  if String.eqb s "" then None
  else let n := NumParse.StringToNumber s in
       if Num.isFinite n then Some n else None.

(** The column positions resolved from the header of a CBS file. *)
Record CbsColumns : Type := mkCbsColumns {
  col_name : option nat;
  col_base : option nat;
  col_low : option nat;
  col_ml : option nat;
  col_high : option nat
}.

Definition cbsColumns (header : list string) : CbsColumns :=
  {| col_name := findIdx header ["name"; "cbs"; "cbsname"];
     col_base := findIdx header ["basecost"; "base_cost"; "cost"; "base"];
     col_low := findIdx header ["low"; "lowcost"; "best"; "bestcase"; "min"];
     col_ml := findIdx header ["mostlikely"; "most_likely"; "mostlikelycost"; "mode"; "ml"];
     col_high := findIdx header ["high"; "highcost"; "worst"; "worstcase"; "max"] |}.

(** [hasTrioCols], carrying the three positions when it holds. *)
Definition trioCols (c : CbsColumns) : option (nat * nat * nat) :=
  match col_low c, col_ml c, col_high c with
  | Some l, Some m, Some h => Some (l, m, h)
  | _, _, _ => None
  end.

(** The record pushed for one data row of a file with a name column. *)
Definition cbsRecord (c : CbsColumns) (name : string) (cells : list string)
  : CbsCsvRow :=
  let baseCost :=
    match col_base c with
    | Some b => toNumOrNull (Str.cellAt cells b)
    | None => None
    end in
  match trioCols c with
  | Some (l, m, h) =>
      mkCbsCsvRow name baseCost
        (toNumOrNull (Str.cellAt cells l))
        (toNumOrNull (Str.cellAt cells m))
        (toNumOrNull (Str.cellAt cells h))
  | None => mkCbsCsvRow name baseCost None None None
  end.

(** The body shared by the two loops of [parseCbsCsv]: rows without a name
    and names already [seen] (compared in lower case) are skipped. *)
Fixpoint cbsLoop (nameIdx : nat) (mk : string -> list string -> CbsCsvRow)
    (lines : list string) (seen : gset string) : list CbsCsvRow :=
  match lines with
  | [] => []
  | line :: rest =>
      let cells := splitRow line in
      let name := Str.trim (Str.cellAt cells nameIdx) in
      if String.eqb name "" then cbsLoop nameIdx mk rest seen
      else
        let key := Str.toLowerCase name in
        if decide (key ∈ seen) then cbsLoop nameIdx mk rest seen
        else mk name cells :: cbsLoop nameIdx mk rest ({[key]} ∪ seen)
  end.

Definition parseCbsCsv (csvText : string) : list CbsCsvRow :=
  match normaliseLines csvText with
  | [] => []
  | first :: data =>
      let header := Str.toLowerCase <$> splitRow first in
      let c := cbsColumns header in
      match col_name c with
      | Some nameIdx =>
          (* Case A: header row with a name column *)
          cbsLoop nameIdx (cbsRecord c) data ∅
      | None =>
          (* Case B: no header row, names only (first column) *)
          cbsLoop 0 (fun name _ => mkCbsCsvRow name None None None None)
            (first :: data) ∅
      end
  end.

(** ** Risks CSV *)

Record ParsedRisk : Type := mkParsedRisk {
  pr_name : string;
  pr_riskType : string;
  pr_probability : number;
  pr_lowCost : number;
  pr_mostLikelyCost : number;
  pr_highCost : number
}.

(** The warnings the risk parser pushes, one constructor per message. *)
Inductive RiskWarning : Type :=
  | WNoRows
  | WMissingHeaders (missing : list string)
  | WMissingName (row : nat)
  | WInvalidType (row : nat) (raw : string)
  | WProbabilityNaN (row : nat)
  | WProbabilityRange (row : nat)
  | WCostNaN (row : nat) (label : string)
  | WCostNegative (row : nat) (label : string)
  | WOrder (row : nat) (low mostLikely high : number).

(** The text of a warning.  [show] is the conversion of a number to a
    string that a template literal applies. *)
Definition warningText (show : number -> string) (w : RiskWarning) : string :=
  let row (n : nat) := "Row " +:+ pretty n +:+ ": " in
  match w with
  | WNoRows => "No rows found."
  | WMissingHeaders missing =>
      "Missing required headers: " +:+ Str.join ", " missing
  | WMissingName n => row n +:+ "missing risk name; skipped."
  | WInvalidType n raw =>
      row n +:+ "invalid riskType '" +:+ raw +:+ "', defaulted to 'contingent'."
  | WProbabilityNaN n => row n +:+ "probability not a number; set to 0."
  | WProbabilityRange n => row n +:+ "probability out of range; clamped to 0–1."
  | WCostNaN n label => row n +:+ label +:+ " not a number; set to 0."
  | WCostNegative n label => row n +:+ label +:+ " < 0; set to 0."
  | WOrder n lo ml hi =>
      row n +:+ "expected low <= mostLikely <= high (got " +:+ show lo +:+ ", "
        +:+ show ml +:+ ", " +:+ show hi +:+ "). Simulation will still run."
  end.

(** A computation that pushes warnings while it runs. *)
Definition Warn (A : Type) : Type := A * list RiskWarning.

Global Instance Warn_ret : MRet Warn := fun A a => (a, []).
Global Instance Warn_bind : MBind Warn := fun A B k m =>
  let '(a, w1) := m in let '(b, w2) := k a in (b, w1 ++ w2).
Definition warn (w : RiskWarning) : Warn unit := (tt, [w]).

(** The column positions resolved from the header of a risk file. *)
Record RiskColumns : Type := mkRiskColumns {
  rc_name : option nat;
  rc_type : option nat;
  rc_p : option nat;
  rc_low : option nat;
  rc_ml : option nat;
  rc_high : option nat
}.

Definition riskColumns (headerCells : list string) : RiskColumns :=
  {| rc_name := findIdx headerCells ["name"; "risk"];
     rc_type := findIdx headerCells ["risktype"; "type"];
     rc_p := findIdx headerCells ["probability"; "p"];
     rc_low := findIdx headerCells ["lowcost"; "low"];
     rc_ml := findIdx headerCells ["mostlikelycost"; "mostlikely"; "mode"];
     rc_high := findIdx headerCells ["highcost"; "high"] |}.

(** [i === -1] *)
Definition unresolved (i : option nat) : bool :=
  match i with None => true | Some _ => false end.

(** The [missing] array: one label per mandatory column left unresolved. *)
Definition missingHeaders (c : RiskColumns) : list string :=
  (if unresolved (rc_name c) then ["name (or risk)"] else []) ++
  (if unresolved (rc_p c) then ["probability (or p)"] else []) ++
  (if unresolved (rc_low c) then ["lowCost (or low)"] else []) ++
  (if unresolved (rc_ml c) then ["mostLikelyCost (or mostLikely/mode)"] else []) ++
  (if unresolved (rc_high c) then ["highCost (or high)"] else []).

(** [toNum] *)
Definition toNum (v : string) : number :=
  let n := NumParse.StringToNumber (Str.trim v) in
  if Num.isFinite n then n else NaN.

(** [fixCost] *)
Definition fixCost (row : nat) (val : number) (label : string) : Warn number :=
  if negb (Num.isFinite val) then
    warn (WCostNaN row label);; mret Num.zero
  else if Num.ltb val Num.zero then
    warn (WCostNegative row label);; mret Num.zero
  else mret val.

(** One turn of the loop over the data rows; [rowNum] counts from 1 and the
    messages show [rowNum + 1].  [None] is a skipped row. *)
Definition riskRow (nameIdx pIdx lowIdx mlIdx highIdx : nat) (typeIdx : option nat)
    (rowNum : nat) (cells : list string) : Warn (option ParsedRisk) :=
  let name := Str.trim (Str.cellAt cells nameIdx) in
  if String.eqb name "" then
    warn (WMissingName (rowNum + 1));; mret None
  else
    riskType ←
      match typeIdx with
      | Some t =>
          let raw := Str.toLowerCase (Str.trim (Str.cellAt cells t)) in
          if String.eqb raw "inherent" || String.eqb raw "contingent" then mret raw
          else if negb (String.eqb raw "") then
            warn (WInvalidType (rowNum + 1) raw);; mret "contingent"
          else mret "contingent"
      | None => mret "contingent"
      end;
    let probability := toNum (Str.cellAt cells pIdx) in
    let lowCost := toNum (Str.cellAt cells lowIdx) in
    let mostLikelyCost := toNum (Str.cellAt cells mlIdx) in
    let highCost := toNum (Str.cellAt cells highIdx) in
    probability ←
      (if negb (Num.isFinite probability) then
         warn (WProbabilityNaN (rowNum + 1));; mret Num.zero
       else mret probability);
    probability ←
      (if Num.ltb probability Num.zero || Num.gtb probability Num.one then
         warn (WProbabilityRange (rowNum + 1));;
         mret (Num.min Num.one (Num.max Num.zero probability))
       else mret probability);
    lowCost ← fixCost (rowNum + 1) lowCost "lowCost";
    mostLikelyCost ← fixCost (rowNum + 1) mostLikelyCost "mostLikelyCost";
    highCost ← fixCost (rowNum + 1) highCost "highCost";
    if String.eqb riskType "inherent" then
      (* Costs are ignored by the backend logic; keep the UI consistent *)
      mret (Some (mkParsedRisk name riskType probability Num.zero Num.zero Num.zero))
    else
      (if negb (Num.leb lowCost mostLikelyCost && Num.leb mostLikelyCost highCost)
       then warn (WOrder (rowNum + 1) lowCost mostLikelyCost highCost)
       else mret tt);;
      mret (Some (mkParsedRisk name riskType probability lowCost mostLikelyCost highCost)).

(** The loop over the data rows, from row number [rowNum] on. *)
Fixpoint riskLoop (row : nat -> list string -> Warn (option ParsedRisk))
    (rowNum : nat) (lines : list string) : Warn (list ParsedRisk) :=
  match lines with
  | [] => mret []
  | line :: rest =>
      r ← row rowNum (splitRow line);
      parsed ← riskLoop row (S rowNum) rest;
      mret (match r with Some x => x :: parsed | None => parsed end)
  end.

(** [parseRisksCsv]: the pair is [{ risks, warnings }]. *)
Definition parseRisksCsv (csvText : string) : Warn (list ParsedRisk) :=
  match normaliseLines csvText with
  | [] => ([], [WNoRows])
  | first :: data =>
      let headerCells := Str.toLowerCase <$> splitRow first in
      let c := riskColumns headerCells in
      match rc_name c, rc_p c, rc_low c, rc_ml c, rc_high c with
      | Some nameIdx, Some pIdx, Some lowIdx, Some mlIdx, Some highIdx =>
          riskLoop (riskRow nameIdx pIdx lowIdx mlIdx highIdx (rc_type c)) 1 data
      | _, _, _, _, _ => ([], [WMissingHeaders (missingHeaders c)])
      end
  end.

Definition LFs : string := String Str.LF EmptyString.

(** ** The entities of the session *)

Module Cbs.

Record item : Type := mk {
  id : string;
  name : string;
  baseCost : JsVal;
  confidenceFactor : string;
  bestCaseCost : JsVal;
  mostLikelyCost : JsVal;
  worstCaseCost : JsVal;
  driverGroup : string;
  sensitivity : string
}.

(** The object handed to [updateCbsRow]: [None] is a field the patch does
    not name. *)
Record patch : Type := mkPatch {
  p_id : option string;
  p_name : option string;
  p_baseCost : option JsVal;
  p_confidenceFactor : option string;
  p_bestCaseCost : option JsVal;
  p_mostLikelyCost : option JsVal;
  p_worstCaseCost : option JsVal;
  p_driverGroup : option string;
  p_sensitivity : option string
}.

Definition noPatch : patch :=
  mkPatch None None None None None None None None None.

(** [{ ...x, ...patch }] *)
Definition spread (x : item) (p : patch) : item :=
  {| id := default (id x) (p_id p);
     name := default (name x) (p_name p);
     baseCost := default (baseCost x) (p_baseCost p);
     confidenceFactor := default (confidenceFactor x) (p_confidenceFactor p);
     bestCaseCost := default (bestCaseCost x) (p_bestCaseCost p);
     mostLikelyCost := default (mostLikelyCost x) (p_mostLikelyCost p);
     worstCaseCost := default (worstCaseCost x) (p_worstCaseCost p);
     driverGroup := default (driverGroup x) (p_driverGroup p);
     sensitivity := default (sensitivity x) (p_sensitivity p) |}.

End Cbs.

Module Risk.

Record item : Type := mk {
  id : string;
  name : string;
  riskType : string;
  probability : JsVal;
  lowCost : JsVal;
  mostLikelyCost : JsVal;
  highCost : JsVal
}.

Record patch : Type := mkPatch {
  p_id : option string;
  p_name : option string;
  p_riskType : option string;
  p_probability : option JsVal;
  p_lowCost : option JsVal;
  p_mostLikelyCost : option JsVal;
  p_highCost : option JsVal
}.

Definition noPatch : patch := mkPatch None None None None None None None.

(** [{ ...x, ...patch }] *)
Definition spread (x : item) (p : patch) : item :=
  {| id := default (id x) (p_id p);
     name := default (name x) (p_name p);
     riskType := default (riskType x) (p_riskType p);
     probability := default (probability x) (p_probability p);
     lowCost := default (lowCost x) (p_lowCost p);
     mostLikelyCost := default (mostLikelyCost x) (p_mostLikelyCost p);
     highCost := default (highCost x) (p_highCost p) |}.

End Risk.

(** One entry of the confidence-factor table; a multiplier the entry does
    not have reads [undefined]. *)
Record FactorEntry : Type := mkFactor {
  f_best : JsVal;
  f_most_likely : JsVal;
  f_worst : JsVal
}.

Record SensitivityRow : Type := mkSensitivityRow {
  s_name : string;
  s_category : string;
  spearman_rho : JsVal;
  abs_rho : JsVal
}.

Record SimResults : Type := mkSimResults {
  p5 : JsVal;
  p10 : JsVal;
  p50 : JsVal;
  p90 : JsVal;
  contingency_p90_minus_p50 : JsVal
}.

(** ** Identifiers *)

Fixpoint zeros (n : nat) : string :=
  match n with O => EmptyString | S k => String "0" (zeros k) end.

(** [s.padStart(w, "0")] *)
Definition padStart (w : nat) (s : string) : string :=
  zeros (w - String.length s) +:+ s.

(** [makeSequentialId]: cbs01, cbs02, ... and r01, r02, ... *)
Definition makeSequentialId (prefix : string) (n : nat) : string :=
  prefix +:+ padStart 2 (pretty n).

(** ** Confidence factors *)

Definition EXCLUDED_FACTORS : gset string := {[ "% Allocation" ]}.

(** The two state updates of the bootstrap fetch: the usable keys and the
    table itself.  [factors] lists the properties of the fetched object in
    the order [Object.keys] gives them. *)
Definition usableFactors (factors : list (string * FactorEntry)) : list string :=
  List.filter (fun k => negb (bool_decide (k ∈ EXCLUDED_FACTORS))) (fst <$> factors).

Definition factorMap (factors : list (string * FactorEntry)) : gmap string FactorEntry :=
  list_to_map factors.

(** [confidenceFactors.includes("Realistic") ? "Realistic" : confidenceFactors[0]] *)
Definition fallbackFactor (confidenceFactors : list string) : option string :=
  if Str.includes confidenceFactors "Realistic" then Some "Realistic"
  else head confidenceFactors.

(** The same with [|| "Realistic"] after it, as the row constructors have. *)
Definition defaultFactor (confidenceFactors : list string) : string :=
  match fallbackFactor confidenceFactors with
  | Some k => if String.eqb k "" then "Realistic" else k
  | None => "Realistic"
  end.

Definition isUserDefinedFactor (cf : string) : bool :=
  String.eqb (Str.toLowerCase (Str.trim cf)) "user defined".

(** ** Derived costs *)

Record DerivedCosts : Type := mkDerived {
  best : number;
  ml : number;
  worst : number;
  isDerived : bool
}.

(** The table is a plain object, and [confidenceFactorMap[key]] reads a
    property of it: an entry of the table when [key] is one of its own keys,
    and otherwise what every object inherits under the names below (eleven
    functions, and the prototype itself under [__proto__]).  An inherited
    member is truthy and has none of the three multiplier fields, so it
    reads as an entry whose fields are all [undefined]; any other key reads
    [undefined], here [None]. *)
Definition OBJECT_PROTOTYPE_KEYS : list string :=
  [ "constructor"; "hasOwnProperty"; "isPrototypeOf"; "propertyIsEnumerable";
    "toLocaleString"; "toString"; "valueOf"; "__proto__";
    "__defineGetter__"; "__defineSetter__"; "__lookupGetter__"; "__lookupSetter__" ].

Definition inheritedMember : FactorEntry := mkFactor VUndefined VUndefined VUndefined.

Definition readFactor (confidenceFactorMap : gmap string FactorEntry) (key : string)
  : option FactorEntry :=
  match confidenceFactorMap !! key with
  | Some f => Some f
  | None => if Str.includes OBJECT_PROTOTYPE_KEYS key then Some inheritedMember else None
  end.

Definition calcDerivedCosts (confidenceFactorMap : gmap string FactorEntry)
    (row : Cbs.item) : DerivedCosts :=
  (* If User defined: take explicit fields *)
  if isUserDefinedFactor (Cbs.confidenceFactor row) then
    {| best := Number (Cbs.bestCaseCost row);
       ml := Number (Cbs.mostLikelyCost row);
       worst := Number (Cbs.worstCaseCost row);
       isDerived := false |}
  else
    let base := Num.orElse (Number (Cbs.baseCost row)) Num.zero in
    match readFactor confidenceFactorMap (Cbs.confidenceFactor row) with
    | None => {| best := NaN; ml := NaN; worst := NaN; isDerived := true |}
    | Some f =>
        {| best := Num.mul base (Number (nullish (f_best f) (VNum Num.one)));
           ml := Num.mul base (Number (nullish (f_most_likely f) (VNum Num.one)));
           worst := Num.mul base (Number (nullish (f_worst f) (VNum Num.one)));
           isDerived := true |}
    end.

(** ** Row updates *)

Definition updateCbsRow (id : string) (patch : Cbs.patch) (prev : list Cbs.item)
  : list Cbs.item :=
  (fun x =>
     if negb (String.eqb (Cbs.id x) id) then x
     else
       let next := Cbs.spread x patch in
       (* If switching to non-user-defined, clear manual fields *)
       if bool_decide (is_Some (Cbs.p_confidenceFactor patch))
          && negb (isUserDefinedFactor (Cbs.confidenceFactor next))
       then Cbs.mk (Cbs.id next) (Cbs.name next) (Cbs.baseCost next)
              (Cbs.confidenceFactor next) VNull VNull VNull
              (Cbs.driverGroup next) (Cbs.sensitivity next)
       else next) <$> prev.

Definition updateRiskRow (id : string) (patch : Risk.patch) (prev : list Risk.item)
  : list Risk.item :=
  (fun x =>
     if negb (String.eqb (Risk.id x) id) then x
     else
       let next := Risk.spread x patch in
       (* If riskType switched to inherent => zero out costs *)
       match Risk.p_riskType patch with
       | Some t =>
           if String.eqb (Str.toLowerCase t) "inherent"
           then Risk.mk (Risk.id next) (Risk.name next) (Risk.riskType next)
                  (Risk.probability next)
                  (VNum Num.zero) (VNum Num.zero) (VNum Num.zero)
           else next
       | None => next
       end) <$> prev.

(** ** Validation issues *)

(** One constructor per message of [validationIssues]; [row] is the
    1-based row number the message shows. *)
Inductive Issue : Type :=
  | IterationsPositive
  | IterationsTooMany
  | CbsItemRequired
  | CbsNameRequired (row : nat)
  | CbsBaseCost (row : nat)
  | CbsConfidenceFactorRequired (row : nat)
  | CbsDriverGroupRequired (row : nat)
  | CbsSensitivityLevel (row : nat)
  | CbsBestRequired (row : nat)
  | CbsMostLikelyRequired (row : nat)
  | CbsWorstRequired (row : nat)
  | CbsBestLeMostLikely (row : nat)
  | CbsMostLikelyLeWorst (row : nat)
  | RiskNameRequired (row : nat)
  | RiskProbability (row : nat)
  | RiskLowCost (row : nat)
  | RiskMostLikelyCost (row : nat)
  | RiskHighCost (row : nat)
  | RiskLowLeMostLikely (row : nat)
  | RiskMostLikelyLeHigh (row : nat).

Definition issueText (i : Issue) : string :=
  let cbs (n : nat) := "CBS row " +:+ pretty n in
  let risk (n : nat) := "Risk row " +:+ pretty n in
  match i with
  | IterationsPositive => "Iterations must be a positive number."
  | IterationsTooMany => "Iterations must be 20,000 or less."
  | CbsItemRequired => "At least one CBS cost item is required."
  | CbsNameRequired n => cbs n +:+ ": Name is required."
  | CbsBaseCost n => cbs n +:+ ": Base Cost must be 0 or more."
  | CbsConfidenceFactorRequired n => cbs n +:+ ": Confidence Factor is required."
  | CbsDriverGroupRequired n =>
      cbs n +:+ ": Driver group is required in Standard correlation mode."
  | CbsSensitivityLevel n => cbs n +:+ ": Sensitivity must be Low/Medium/High."
  | CbsBestRequired n => cbs n +:+ ": Best case is required (0 or more)."
  | CbsMostLikelyRequired n => cbs n +:+ ": Most likely is required (0 or more)."
  | CbsWorstRequired n => cbs n +:+ ": Worst case is required (0 or more)."
  | CbsBestLeMostLikely n => cbs n +:+ ": Best case must be ≤ Most likely."
  | CbsMostLikelyLeWorst n => cbs n +:+ ": Most likely must be ≤ Worst case."
  | RiskNameRequired n => risk n +:+ ": Risk name is required."
  | RiskProbability n => risk n +:+ ": Probability must be between 0 and 1."
  | RiskLowCost n => risk n +:+ ": Low cost must be 0 or more."
  | RiskMostLikelyCost n => risk n +:+ ": Most likely cost must be 0 or more."
  | RiskHighCost n => risk n +:+ ": High cost must be 0 or more."
  | RiskLowLeMostLikely n => risk n +:+ ": Low must be ≤ Most likely."
  | RiskMostLikelyLeHigh n => risk n +:+ ": Most likely must be ≤ High."
  end.

(** The issues that report a violated order between two cost fields. *)
Definition isOrderingIssue (i : Issue) : bool :=
  match i with
  | CbsBestLeMostLikely _ | CbsMostLikelyLeWorst _
  | RiskLowLeMostLikely _ | RiskMostLikelyLeHigh _ => true
  | _ => false
  end.

(** [if (c) issues.push(i)] *)
Definition pushIf (c : bool) (i : Issue) : list Issue := if c then [i] else [].

(** The [isNum] of the validation block. *)
Definition isNum (v : JsVal) : bool :=
  match v with
  | VNum n => Num.isFinite n
  | VNull => false
  | VStr EmptyString => false
  | _ => Num.isFinite (Number v)
  end.

Definition iterationIssues (iterations : JsVal) : list Issue :=
  let it := Number iterations in
  pushIf (negb (Num.isFinite it) || Num.leb it Num.zero) IterationsPositive ++
  pushIf (Num.isFinite it && Num.gtb it (Num.ofZ 20000)) IterationsTooMany.

(** The two order checks of a user-defined CBS row. *)
Definition cbsOrderIssues (row : nat) (x : Cbs.item) : list Issue :=
  let b := Number (Cbs.bestCaseCost x) in
  let ml := Number (Cbs.mostLikelyCost x) in
  let w := Number (Cbs.worstCaseCost x) in
  pushIf (Num.isFinite b && Num.isFinite ml && Num.gtb b ml) (CbsBestLeMostLikely row) ++
  pushIf (Num.isFinite ml && Num.isFinite w && Num.gtb ml w) (CbsMostLikelyLeWorst row).

Definition cbsUserDefinedIssues (row : nat) (x : Cbs.item) : list Issue :=
  if String.eqb (Str.toLowerCase (Cbs.confidenceFactor x)) "user defined" then
    pushIf (negb (isNum (Cbs.bestCaseCost x))
            || Num.ltb (Number (Cbs.bestCaseCost x)) Num.zero) (CbsBestRequired row) ++
    pushIf (negb (isNum (Cbs.mostLikelyCost x))
            || Num.ltb (Number (Cbs.mostLikelyCost x)) Num.zero) (CbsMostLikelyRequired row) ++
    pushIf (negb (isNum (Cbs.worstCaseCost x))
            || Num.ltb (Number (Cbs.worstCaseCost x)) Num.zero) (CbsWorstRequired row) ++
    cbsOrderIssues row x
  else [].

Definition cbsCorrelationIssues (correlationMode : string) (row : nat) (x : Cbs.item)
  : list Issue :=
  if String.eqb (Str.toLowerCase correlationMode) "standard" then
    pushIf (String.eqb (Str.trim (Cbs.driverGroup x)) "") (CbsDriverGroupRequired row) ++
    let s := Str.toLowerCase
               (if String.eqb (Cbs.sensitivity x) "" then "medium" else Cbs.sensitivity x) in
    pushIf (negb (Str.includes ["low"; "medium"; "high"] s)) (CbsSensitivityLevel row)
  else [].

(** The body of the [forEach] over the CBS items; [i] is the 0-based index. *)
Definition cbsIssues (correlationMode : string) (i : nat) (x : Cbs.item) : list Issue :=
  let row := (i + 1)%nat in
  pushIf (String.eqb (Str.trim (Cbs.name x)) "") (CbsNameRequired row) ++
  pushIf (negb (isNum (Cbs.baseCost x))
          || Num.ltb (Number (Cbs.baseCost x)) Num.zero) (CbsBaseCost row) ++
  pushIf (String.eqb (Cbs.confidenceFactor x) "") (CbsConfidenceFactorRequired row) ++
  cbsCorrelationIssues correlationMode row x ++
  cbsUserDefinedIssues row x.

(** The body of the [forEach] over the risks. *)
Definition riskIssues (i : nat) (r : Risk.item) : list Issue :=
  let row := (i + 1)%nat in
  let p := Number (Risk.probability r) in
  let lo := Number (Risk.lowCost r) in
  let ml := Number (Risk.mostLikelyCost r) in
  let hi := Number (Risk.highCost r) in
  pushIf (String.eqb (Str.trim (Risk.name r)) "") (RiskNameRequired row) ++
  pushIf (negb (Num.isFinite p) || Num.ltb p Num.zero || Num.gtb p Num.one)
    (RiskProbability row) ++
  pushIf (negb (Num.isFinite lo) || Num.ltb lo Num.zero) (RiskLowCost row) ++
  pushIf (negb (Num.isFinite ml) || Num.ltb ml Num.zero) (RiskMostLikelyCost row) ++
  pushIf (negb (Num.isFinite hi) || Num.ltb hi Num.zero) (RiskHighCost row) ++
  pushIf (Num.isFinite lo && Num.isFinite ml && Num.gtb lo ml) (RiskLowLeMostLikely row) ++
  pushIf (Num.isFinite ml && Num.isFinite hi && Num.gtb ml hi) (RiskMostLikelyLeHigh row).

Definition validate (iterations : JsVal) (cbsItems : list Cbs.item)
    (risks : list Risk.item) (correlationMode : string) : list Issue :=
  iterationIssues iterations ++
  pushIf (Nat.eqb (length cbsItems) 0) CbsItemRequired ++
  concat (imap (cbsIssues correlationMode) cbsItems) ++
  concat (imap riskIssues risks).

(** [validationIssues]: the strings the component shows. *)
Definition validationIssues (iterations : JsVal) (cbsItems : list Cbs.item)
    (risks : list Risk.item) (correlationMode : string) : list string :=
  issueText <$> validate iterations cbsItems risks correlationMode.

(** ** The request payload *)

Record PayloadSettings : Type := mkPayloadSettings {
  ps_iterations : number;
  ps_seed : number;
  ps_percentiles : list number
}.

Record ProjectInfo : Type := mkProjectInfo {
  projectName : string;
  projectId : string;
  projectManager : string;
  simulationDate : string;
  projectNotes : string
}.

(** A CBS item of the payload; [None] is [null]. *)
Record PayloadCbs : Type := mkPayloadCbs {
  pc_id : string;
  pc_name : string;
  pc_baseCost : number;
  pc_confidenceFactor : string;
  pc_driver_group : option string;
  pc_sensitivity : option string;
  pc_bestCaseCost : option number;
  pc_mostLikelyCost : option number;
  pc_worstCaseCost : option number
}.

Record PayloadRisk : Type := mkPayloadRisk {
  pk_id : string;
  pk_name : string;
  pk_riskType : string;
  pk_probability : number;
  pk_lowCost : number;
  pk_mostLikelyCost : number;
  pk_highCost : number
}.

Record Payload : Type := mkPayload {
  pl_settings : PayloadSettings;
  pl_confidenceTableVersion : string;
  pl_projectInfo : ProjectInfo;
  pl_correlation_mode : string;
  pl_cbsItems : list PayloadCbs;
  pl_contingentRisks : list PayloadRisk
}.

(** [v === null || v === undefined || v === "" ? null : Number(v)] *)
Definition manualCost (v : JsVal) : option number :=
  if isBlank v then None else Some (Number v).

Definition payloadCbs (correlationMode : string) (x : Cbs.item) : PayloadCbs :=
  let standard := String.eqb correlationMode "standard" in
  {| pc_id := Cbs.id x;
     pc_name := Cbs.name x;
     pc_baseCost := Num.orElse (Number (Cbs.baseCost x)) Num.zero;
     pc_confidenceFactor := Cbs.confidenceFactor x;
     pc_driver_group :=
       if standard
       then (if String.eqb (Cbs.driverGroup x) "" then None else Some (Cbs.driverGroup x))
       else None;
     pc_sensitivity :=
       if standard
       then Some (if String.eqb (Cbs.sensitivity x) "" then "medium" else Cbs.sensitivity x)
       else None;
     pc_bestCaseCost := manualCost (Cbs.bestCaseCost x);
     pc_mostLikelyCost := manualCost (Cbs.mostLikelyCost x);
     pc_worstCaseCost := manualCost (Cbs.worstCaseCost x) |}.

Definition payloadRisk (r : Risk.item) : PayloadRisk :=
  {| pk_id := Risk.id r;
     pk_name := Risk.name r;
     pk_riskType := if String.eqb (Risk.riskType r) "" then "contingent" else Risk.riskType r;
     pk_probability := Num.orElse (Number (Risk.probability r)) Num.zero;
     pk_lowCost := Num.orElse (Number (Risk.lowCost r)) Num.zero;
     pk_mostLikelyCost := Num.orElse (Number (Risk.mostLikelyCost r)) Num.zero;
     pk_highCost := Num.orElse (Number (Risk.highCost r)) Num.zero |}.

(** ** Sensitivity tiers *)

Definition DOMINANT_MIN : number := Num.dec 30 2.
Definition MODERATE_MIN : number := Num.dec 15 2.
Definition MAX_PER_GROUP : nat := 6.

(** [arr.sort(cmp)]: the sort is stable, and [a] goes behind [b] when
    [cmp(a, b) > 0] (a [NaN] from the comparator counts as [0]).  For the
    comparators used here, which order by a number, that fixes the result:
    it is computed by insertion. *)
Section Sort.
Context {A : Type} (cmp : A -> A -> number).

Definition goesAfter (a b : A) : bool := Num.gtb (cmp a b) Num.zero.

Fixpoint insertSorted (x : A) (l : list A) : list A :=
  match l with
  | [] => [x]
  | y :: r => if goesAfter x y then y :: insertSorted x r else x :: l
  end.

Definition sort (l : list A) : list A := foldr insertSorted [] l.
End Sort.

(** The comparator [(a, b) => key(b) - key(a)], and the order it sorts
    into: each element's key is at least the key of the one behind it. *)
Definition byKeyDesc {A : Type} (key : A -> number) (a b : A) : number :=
  Num.sub (key b) (key a).

Definition descending {A : Type} (key : A -> number) (a b : A) : Prop :=
  Num.geb (key a) (key b) = true.

Record Tiers : Type := mkTiers {
  dominant : list SensitivityRow;
  moderate : list SensitivityRow
}.

(** [Number(v) || 0] for the [abs_rho] of a row. *)
Definition rhoOf (v : JsVal) : number := Num.orElse (Number v) Num.zero.
Definition rhoKey (x : SensitivityRow) : number := rhoOf (abs_rho x).

(** The two filters of [groupedSensitivity]. *)
Definition isDominant (x : SensitivityRow) : bool :=
  Num.geb (rhoKey x) DOMINANT_MIN.
Definition isModerate (x : SensitivityRow) : bool :=
  let v := rhoKey x in Num.geb v MODERATE_MIN && Num.ltb v DOMINANT_MIN.

Definition groupedSensitivity (sensitivity : list SensitivityRow) : Tiers :=
  let sorted := sort (byKeyDesc rhoKey) sensitivity in
  {| dominant := take MAX_PER_GROUP (List.filter isDominant sorted);
     moderate := take MAX_PER_GROUP (List.filter isModerate sorted) |}.

(** The [dom] and [mod] lists the results panel computes for its two
    tables, straight from the [sensitivity] state. *)
Definition renderedTiers (sensitivity : list SensitivityRow) : Tiers :=
  {| dominant :=
       take 8 (List.filter (fun d => Num.geb (Number (abs_rho d)) (Num.dec 30 2)) sensitivity);
     moderate :=
       take 10 (List.filter (fun d => Num.geb (Number (abs_rho d)) (Num.dec 15 2)
                                      && Num.ltb (Number (abs_rho d)) (Num.dec 30 2))
                  sensitivity) |}.

(** ** The state of the session

    The [useState] and [useRef] cells of the component that the logic reads
    or writes (the five project fields are kept as one record; cells that
    only drive the presentation are left out). *)

Record State : Type := mkState {
  confidenceFactors : list string;
  confidenceFactorMap : gmap string FactorEntry;
  projectInfo : ProjectInfo;
  cbsCounter : nat;
  riskCounter : nat;
  cbsItems : list Cbs.item;
  risks : list Risk.item;
  iterations : JsVal;
  seed : JsVal;
  correlationMode : string;
  results : option SimResults;
  isRunning : bool;
  sensitivity : list SensitivityRow;
  commentary : option string;
  commentaryMode : option string;
  isCommentaryRunning : bool;
  commentaryError : option string
}.

(** The setters of the cells. *)
Definition setConfidenceFactors (v : list string) (s : State) : State :=
  mkState
    v (confidenceFactorMap s) (projectInfo s) (cbsCounter s) (riskCounter s)
    (cbsItems s) (risks s) (iterations s) (seed s) (correlationMode s)
    (results s) (isRunning s) (sensitivity s) (commentary s)
    (commentaryMode s) (isCommentaryRunning s) (commentaryError s).
Definition setConfidenceFactorMap (v : gmap string FactorEntry) (s : State) : State :=
  mkState
    (confidenceFactors s) v (projectInfo s) (cbsCounter s) (riskCounter s)
    (cbsItems s) (risks s) (iterations s) (seed s) (correlationMode s)
    (results s) (isRunning s) (sensitivity s) (commentary s)
    (commentaryMode s) (isCommentaryRunning s) (commentaryError s).
Definition setProjectInfo (v : ProjectInfo) (s : State) : State :=
  mkState
    (confidenceFactors s) (confidenceFactorMap s) v (cbsCounter s)
    (riskCounter s) (cbsItems s) (risks s) (iterations s) (seed s)
    (correlationMode s) (results s) (isRunning s) (sensitivity s)
    (commentary s) (commentaryMode s) (isCommentaryRunning s)
    (commentaryError s).
Definition setCbsCounter (v : nat) (s : State) : State :=
  mkState
    (confidenceFactors s) (confidenceFactorMap s) (projectInfo s) v
    (riskCounter s) (cbsItems s) (risks s) (iterations s) (seed s)
    (correlationMode s) (results s) (isRunning s) (sensitivity s)
    (commentary s) (commentaryMode s) (isCommentaryRunning s)
    (commentaryError s).
Definition setRiskCounter (v : nat) (s : State) : State :=
  mkState
    (confidenceFactors s) (confidenceFactorMap s) (projectInfo s)
    (cbsCounter s) v (cbsItems s) (risks s) (iterations s) (seed s)
    (correlationMode s) (results s) (isRunning s) (sensitivity s)
    (commentary s) (commentaryMode s) (isCommentaryRunning s)
    (commentaryError s).
Definition setCbsItems (v : list Cbs.item) (s : State) : State :=
  mkState
    (confidenceFactors s) (confidenceFactorMap s) (projectInfo s)
    (cbsCounter s) (riskCounter s) v (risks s) (iterations s) (seed s)
    (correlationMode s) (results s) (isRunning s) (sensitivity s)
    (commentary s) (commentaryMode s) (isCommentaryRunning s)
    (commentaryError s).
Definition setRisks (v : list Risk.item) (s : State) : State :=
  mkState
    (confidenceFactors s) (confidenceFactorMap s) (projectInfo s)
    (cbsCounter s) (riskCounter s) (cbsItems s) v (iterations s) (seed s)
    (correlationMode s) (results s) (isRunning s) (sensitivity s)
    (commentary s) (commentaryMode s) (isCommentaryRunning s)
    (commentaryError s).
Definition setIterations (v : JsVal) (s : State) : State :=
  mkState
    (confidenceFactors s) (confidenceFactorMap s) (projectInfo s)
    (cbsCounter s) (riskCounter s) (cbsItems s) (risks s) v (seed s)
    (correlationMode s) (results s) (isRunning s) (sensitivity s)
    (commentary s) (commentaryMode s) (isCommentaryRunning s)
    (commentaryError s).
Definition setSeed (v : JsVal) (s : State) : State :=
  mkState
    (confidenceFactors s) (confidenceFactorMap s) (projectInfo s)
    (cbsCounter s) (riskCounter s) (cbsItems s) (risks s) (iterations s) v
    (correlationMode s) (results s) (isRunning s) (sensitivity s)
    (commentary s) (commentaryMode s) (isCommentaryRunning s)
    (commentaryError s).
Definition setCorrelationMode (v : string) (s : State) : State :=
  mkState
    (confidenceFactors s) (confidenceFactorMap s) (projectInfo s)
    (cbsCounter s) (riskCounter s) (cbsItems s) (risks s) (iterations s)
    (seed s) v (results s) (isRunning s) (sensitivity s) (commentary s)
    (commentaryMode s) (isCommentaryRunning s) (commentaryError s).
Definition setResults (v : option SimResults) (s : State) : State :=
  mkState
    (confidenceFactors s) (confidenceFactorMap s) (projectInfo s)
    (cbsCounter s) (riskCounter s) (cbsItems s) (risks s) (iterations s)
    (seed s) (correlationMode s) v (isRunning s) (sensitivity s)
    (commentary s) (commentaryMode s) (isCommentaryRunning s)
    (commentaryError s).
Definition setIsRunning (v : bool) (s : State) : State :=
  mkState
    (confidenceFactors s) (confidenceFactorMap s) (projectInfo s)
    (cbsCounter s) (riskCounter s) (cbsItems s) (risks s) (iterations s)
    (seed s) (correlationMode s) (results s) v (sensitivity s) (commentary s)
    (commentaryMode s) (isCommentaryRunning s) (commentaryError s).
Definition setSensitivity (v : list SensitivityRow) (s : State) : State :=
  mkState
    (confidenceFactors s) (confidenceFactorMap s) (projectInfo s)
    (cbsCounter s) (riskCounter s) (cbsItems s) (risks s) (iterations s)
    (seed s) (correlationMode s) (results s) (isRunning s) v (commentary s)
    (commentaryMode s) (isCommentaryRunning s) (commentaryError s).
Definition setCommentary (v : option string) (s : State) : State :=
  mkState
    (confidenceFactors s) (confidenceFactorMap s) (projectInfo s)
    (cbsCounter s) (riskCounter s) (cbsItems s) (risks s) (iterations s)
    (seed s) (correlationMode s) (results s) (isRunning s) (sensitivity s) v
    (commentaryMode s) (isCommentaryRunning s) (commentaryError s).
Definition setCommentaryMode (v : option string) (s : State) : State :=
  mkState
    (confidenceFactors s) (confidenceFactorMap s) (projectInfo s)
    (cbsCounter s) (riskCounter s) (cbsItems s) (risks s) (iterations s)
    (seed s) (correlationMode s) (results s) (isRunning s) (sensitivity s)
    (commentary s) v (isCommentaryRunning s) (commentaryError s).
Definition setIsCommentaryRunning (v : bool) (s : State) : State :=
  mkState
    (confidenceFactors s) (confidenceFactorMap s) (projectInfo s)
    (cbsCounter s) (riskCounter s) (cbsItems s) (risks s) (iterations s)
    (seed s) (correlationMode s) (results s) (isRunning s) (sensitivity s)
    (commentary s) (commentaryMode s) v (commentaryError s).
Definition setCommentaryError (v : option string) (s : State) : State :=
  mkState
    (confidenceFactors s) (confidenceFactorMap s) (projectInfo s)
    (cbsCounter s) (riskCounter s) (cbsItems s) (risks s) (iterations s)
    (seed s) (correlationMode s) (results s) (isRunning s) (sensitivity s)
    (commentary s) (commentaryMode s) (isCommentaryRunning s) v.

Definition resetResults (s : State) : State :=
  setCommentaryError None
    (setIsCommentaryRunning false
       (setCommentaryMode None
          (setCommentary None
             (setSensitivity [] (setResults None s))))).

Definition initialCbsItem (n : nat) (name : string) : Cbs.item :=
  Cbs.mk (makeSequentialId "cbs" n) name (VNum Num.zero) "Realistic"
    VNull VNull VNull "" "medium".

Definition initialState : State :=
  {| confidenceFactors := [];
     confidenceFactorMap := ∅;
     projectInfo := mkProjectInfo "" "" "" "" "";
     cbsCounter := 4;
     riskCounter := 2;
     cbsItems :=
       [ initialCbsItem 1 "INVESTIGATION"; initialCbsItem 2 "FUNCTIONAL DESIGN";
         initialCbsItem 3 "DETAILED DESIGN"; initialCbsItem 4 "CONSTRUCTION" ];
     risks :=
       [ Risk.mk "r01" "Unknown services relocation" "contingent"
           (VNum (Num.dec 2 1)) (VNum (Num.ofZ 200000)) (VNum (Num.ofZ 600000))
           (VNum (Num.ofZ 1200000));
         Risk.mk "r02" "Contamination disposal" "contingent"
           (VNum (Num.dec 1 1)) (VNum (Num.ofZ 150000)) (VNum (Num.ofZ 400000))
           (VNum (Num.ofZ 900000)) ];
     iterations := VNum (Num.ofZ 5000);
     seed := VNum (Num.ofZ 123456);
     correlationMode := "none";
     results := None;
     isRunning := false;
     sensitivity := [];
     commentary := None;
     commentaryMode := None;
     isCommentaryRunning := false;
     commentaryError := None |}.

(** [buildPayload] *)
Definition buildPayload (s : State) : Payload :=
  {| pl_settings :=
       {| ps_iterations := Number (iterations s);
          ps_seed := Number (seed s);
          ps_percentiles := [Num.dec 5 2; Num.dec 1 1; Num.dec 5 1; Num.dec 9 1] |};
     pl_confidenceTableVersion := "v1";
     pl_projectInfo := projectInfo s;
     pl_correlation_mode := correlationMode s;
     pl_cbsItems := payloadCbs (correlationMode s) <$> cbsItems s;
     pl_contingentRisks := payloadRisk <$> risks s |}.

(** The effect that runs when the usable factors change: items whose factor
    is excluded or unknown are moved to the fallback. *)
Definition revalidateFactors (s : State) : State :=
  match fallbackFactor (confidenceFactors s) with
  | None => s
  | Some fallback =>
      setCbsItems
        ((fun x =>
            if bool_decide (Cbs.confidenceFactor x ∈ EXCLUDED_FACTORS)
               || (negb (String.eqb (Cbs.confidenceFactor x) "")
                   && negb (Str.includes (confidenceFactors s) (Cbs.confidenceFactor x)))
            then Cbs.mk (Cbs.id x) (Cbs.name x) (Cbs.baseCost x) fallback
                   (Cbs.bestCaseCost x) (Cbs.mostLikelyCost x) (Cbs.worstCaseCost x)
                   (Cbs.driverGroup x) (Cbs.sensitivity x)
            else x) <$> cbsItems s) s
  end.

(** The [typeof v === "number" && Number.isFinite(v)] of the CBS import. *)
Definition isFiniteNumber (v : option number) : bool :=
  match v with Some n => Num.isFinite n | None => false end.

(** A field of a parsed row as the value it is: a number or [null]. *)
Definition csvVal (v : option number) : JsVal :=
  match v with Some n => VNum n | None => VNull end.

(** The item the CBS import builds from one parsed row; [idx] is 0-based. *)
Definition cbsItemOfRow (defaultFactor : string) (idx : nat) (row : CbsCsvRow)
  : Cbs.item :=
  let hasUserDefined :=
    isFiniteNumber (csv_baseCost row) && isFiniteNumber (csv_low row)
    && isFiniteNumber (csv_mostLikely row) && isFiniteNumber (csv_high row) in
  let manual (v : option number) : JsVal :=
    if hasUserDefined then VNum (Number (csvVal v)) else VNull in
  {| Cbs.id := makeSequentialId "cbs" (idx + 1);
     Cbs.name := csv_name row;
     (* keep baseCost if provided (even when the user-defined trio is present) *)
     Cbs.baseCost := VNum (default Num.zero (csv_baseCost row));
     Cbs.confidenceFactor := if hasUserDefined then "User defined" else defaultFactor;
     Cbs.bestCaseCost := manual (csv_low row);
     Cbs.mostLikelyCost := manual (csv_mostLikely row);
     Cbs.worstCaseCost := manual (csv_high row);
     Cbs.driverGroup := "";
     Cbs.sensitivity := "medium" |}.

(** The items [onCbsCsvSelected] installs for a file's text. *)
Definition importedCbsItems (confidenceFactors : list string) (text : string)
  : list Cbs.item :=
  imap (cbsItemOfRow (defaultFactor confidenceFactors)) (parseCbsCsv text).

Definition riskOfParsed (idx : nat) (r : ParsedRisk) : Risk.item :=
  {| Risk.id := makeSequentialId "r" (idx + 1);
     Risk.name := pr_name r;
     Risk.riskType := if String.eqb (pr_riskType r) "" then "contingent" else pr_riskType r;
     Risk.probability := VNum (pr_probability r);
     Risk.lowCost := VNum (pr_lowCost r);
     Risk.mostLikelyCost := VNum (pr_mostLikelyCost r);
     Risk.highCost := VNum (pr_highCost r) |}.

(** The risks [onRisksCsvSelected] installs for a file's text. *)
Definition importedRisks (text : string) : list Risk.item :=
  imap riskOfParsed (fst (parseRisksCsv text)).

(** ** Events

    One constructor per handler of the component, and one per way an
    outstanding request settles. *)

Inductive Event : Type :=
  | ConfidenceFactorsLoaded (factors : list (string * FactorEntry))
  | ProjectInfoChanged (info : ProjectInfo)
  | IterationsChanged (value : string)
  | SeedChanged (value : string)
  | CorrelationSelected (standard : bool)
  | AddCbsRow
  | DeleteCbsRow (id : string)
  | UpdateCbsRow (id : string) (patch : Cbs.patch)
  | AddRiskRow
  | DeleteRiskRow (id : string)
  | UpdateRiskRow (id : string) (patch : Risk.patch)
  | CbsCsvSelected (text : string)
  | RisksCsvSelected (text : string)
  | RunSimulation
  | SimulateResolved (res : option SimResults) (sens : list SensitivityRow)
  | SimulateRejected
  | CommentaryResolved (mode : option string) (text : string)
  | CommentaryRejected (message : string).

(** The first half of [runCommentary], up to the request. *)
Definition startCommentary (s : State) : State :=
  setCommentaryMode None
    (setCommentary None (setCommentaryError None (setIsCommentaryRunning true s))).

Definition step (s : State) (e : Event) : State :=
  match e with
  | ConfidenceFactorsLoaded factors =>
      revalidateFactors
        (setConfidenceFactorMap (factorMap factors)
           (setConfidenceFactors (usableFactors factors) s))
  | ProjectInfoChanged info => setProjectInfo info s
  | IterationsChanged value => setIterations (VStr value) s
  | SeedChanged value => setSeed (VStr value) s
  | CorrelationSelected standard =>
      resetResults (setCorrelationMode (if standard then "standard" else "none") s)
  | AddCbsRow =>
      let n := S (cbsCounter s) in
      resetResults
        (setCbsItems
           (cbsItems s ++
              [Cbs.mk (makeSequentialId "cbs" n) "" (VNum Num.zero)
                 (defaultFactor (confidenceFactors s)) VNull VNull VNull "" "medium"])
           (setCbsCounter n s))
  | DeleteCbsRow id =>
      resetResults
        (setCbsItems (List.filter (fun x => negb (String.eqb (Cbs.id x) id)) (cbsItems s)) s)
  | UpdateCbsRow id patch =>
      resetResults (setCbsItems (updateCbsRow id patch (cbsItems s)) s)
  | AddRiskRow =>
      let n := S (riskCounter s) in
      resetResults
        (setRisks
           (risks s ++
              [Risk.mk (makeSequentialId "r" n) "" "contingent" (VNum Num.zero)
                 (VNum Num.zero) (VNum Num.zero) (VNum Num.zero)])
           (setRiskCounter n s))
  | DeleteRiskRow id =>
      resetResults
        (setRisks (List.filter (fun x => negb (String.eqb (Risk.id x) id)) (risks s)) s)
  | UpdateRiskRow id patch =>
      resetResults (setRisks (updateRiskRow id patch (risks s)) s)
  | CbsCsvSelected text =>
      match importedCbsItems (confidenceFactors s) text with
      | [] => s
      | newItems =>
          resetResults (setCbsCounter (length newItems) (setCbsItems newItems s))
      end
  | RisksCsvSelected text =>
      match importedRisks text with
      | [] => s
      | newRisks =>
          resetResults (setRiskCounter (length newRisks) (setRisks newRisks s))
      end
  | RunSimulation => setIsRunning true (resetResults s)
  | SimulateResolved res sens =>
      setIsRunning false (startCommentary (setSensitivity sens (setResults res s)))
  | SimulateRejected => setIsRunning false s
  | CommentaryResolved mode text =>
      setIsCommentaryRunning false (setCommentary (Some text) (setCommentaryMode mode s))
  | CommentaryRejected message =>
      setIsCommentaryRunning false (setCommentaryError (Some message) s)
  end.

(** The state after a sequence of events. *)
Definition run (s : State) (events : list Event) : State := foldl step s events.

(** ** Statements of the specification and sample data *)

Definition exampleRhos : list JsVal :=
  [VNum (Num.dec 5 1); VNum (Num.dec 31 2); VNum (Num.dec 29 2);
   VNum (Num.dec 16 2); VNum (Num.dec 10 2)].

(** The same five values, handed over from the smallest up. *)
Definition ascendingRows : list SensitivityRow :=
  [ mkSensitivityRow "cbs01" "CBS" (VNum (Num.dec 10 2)) (VNum (Num.dec 10 2));
    mkSensitivityRow "cbs02" "CBS" (VNum (Num.dec 16 2)) (VNum (Num.dec 16 2));
    mkSensitivityRow "r01" "RISK" (VNum (Num.dec 29 2)) (VNum (Num.dec 29 2));
    mkSensitivityRow "cbs03" "CBS" (VNum (Num.dec 31 2)) (VNum (Num.dec 31 2));
    mkSensitivityRow "r02" "RISK" (VNum (Num.dec 5 1)) (VNum (Num.dec 5 1)) ].

Definition strongRow : SensitivityRow :=
  mkSensitivityRow "cbs01" "CBS" (VNum (Num.dec 5 1)) (VNum (Num.dec 5 1)).
Definition mildRow : SensitivityRow :=
  mkSensitivityRow "cbs02" "CBS" (VNum (Num.dec 2 1)) (VNum (Num.dec 2 1)).

Definition sampleResults : SimResults :=
  mkSimResults (VNum (Num.ofZ 90)) (VNum (Num.ofZ 95)) (VNum (Num.ofZ 120))
    (VNum (Num.ofZ 160)) (VNum (Num.ofZ 40)).

(** A run with the initial settings, then two edits of the settings. *)
Definition staleTrace : list Event :=
  [ RunSimulation; SimulateResolved (Some sampleResults) [strongRow];
    SeedChanged "7"; IterationsChanged "10000" ].

(** The property as the specification words it: every numeric field of the
    payload built from [s] is a finite number, and a field whose source is
    not numeric is [0]. *)
Definition coercedFinite (source : JsVal) (field : number) : Prop :=
  Num.isFinite field = true /\ (Number source = NaN -> field = Num.zero).

Definition payloadFullyCoerced (s : State) : Prop :=
  let p := buildPayload s in
  coercedFinite (iterations s) (ps_iterations (pl_settings p)) /\
  coercedFinite (seed s) (ps_seed (pl_settings p)) /\
  Forall2 (fun x c => coercedFinite (Cbs.baseCost x) (pc_baseCost c))
    (cbsItems s) (pl_cbsItems p) /\
  Forall2 (fun r k =>
             coercedFinite (Risk.probability r) (pk_probability k) /\
             coercedFinite (Risk.lowCost r) (pk_lowCost k) /\
             coercedFinite (Risk.mostLikelyCost r) (pk_mostLikelyCost k) /\
             coercedFinite (Risk.highCost r) (pk_highCost k))
    (risks s) (pl_contingentRisks p).

(** What [Number(v) || 0] guarantees of a field: it is never [NaN], it is
    [0] when the source does not convert to a number, it is the converted
    source whenever that is neither [0] nor [NaN], and it is finite when
    the converted source is. *)
Definition coerced (source : JsVal) (field : number) : Prop :=
  field <> NaN /\
  (Number source = NaN -> field = Num.zero) /\
  (Num.truthy (Number source) = true -> field = Number source) /\
  (Num.isFinite (Number source) = true -> Num.isFinite field = true).

(** [f.best ?? 1] and its two siblings, converted. *)
Definition multiplier (field : JsVal) : number :=
  Number (nullish field (VNum Num.one)).

Definition sampleFactors : list (string * FactorEntry) :=
  [ ("Realistic", mkFactor (VNum (Num.dec 9 1)) (VNum Num.one) (VNum (Num.dec 12 1)));
    ("Target", mkFactor (VNum (Num.dec 95 2)) VUndefined (VNum (Num.dec 15 1)));
    ("User defined", mkFactor (VNum Num.one) (VNum Num.one) (VNum Num.one));
    ("% Allocation", mkFactor (VNum Num.one) (VNum Num.one) (VNum Num.one)) ].

Definition sampleItem : Cbs.item :=
  Cbs.mk "cbs01" "DESIGN" (VStr "1000") "Target" VNull VNull VNull "" "medium".


Definition misorderedItem : Cbs.item :=
  Cbs.mk "cbs01" "DESIGN" (VNum (Num.ofZ 80)) "User Defined"
    (VNum (Num.ofZ 100)) (VNum (Num.ofZ 50)) (VNum (Num.ofZ 200)) "" "medium".

(** The same item with a worst case below its most likely cost. *)
Definition lowWorstItem : Cbs.item :=
  Cbs.mk "cbs01" "DESIGN" (VNum (Num.ofZ 80)) "User Defined"
    (VNum (Num.ofZ 100)) (VNum (Num.ofZ 50)) (VNum (Num.ofZ 20)) "" "medium".

(** The statement that a user-defined item with a best case of 100 and a
    most likely cost of 50 has the issue of the first order check for its
    only order issue. *)
Definition orderIssueAlone : Prop :=
  forall (correlationMode : string) (i : nat) (x : Cbs.item),
    Str.toLowerCase (Cbs.confidenceFactor x) = "user defined" ->
    Number (Cbs.bestCaseCost x) = Num.ofZ 100 ->
    Number (Cbs.mostLikelyCost x) = Num.ofZ 50 ->
    List.filter isOrderingIssue (cbsIssues correlationMode i x)
    = [CbsBestLeMostLikely (i + 1)].

Definition noProbabilityCsv : string :=
  "Risk,Type,Low,Mode,High" +:+ LFs +:+ "Weather,contingent,10,20,40".

Definition inherentCsv : string :=
  "name,type,p,low,mode,high" +:+ LFs +:+ "Ground conditions,Inherent,0.4,10,20,40".

Definition weatherRisk : Risk.item :=
  Risk.mk "r01" "Weather" "contingent" (VNum (Num.dec 3 1))
    (VNum (Num.ofZ 10)) (VNum (Num.ofZ 20)) (VNum (Num.ofZ 40)).

Definition manualItem : Cbs.item :=
  Cbs.mk "cbs02" "BUILD" (VStr "500") "User defined"
    (VStr "400") (VStr "500") (VStr "900") "" "medium".

Definition factorPatch (cf : string) : Cbs.patch :=
  Cbs.mkPatch None None None (Some cf) None None None None None.





(** The [isInherent] flag of a row of the risk table:
    [String(r.riskType || "contingent").toLowerCase() === "inherent"].  The
    three cost inputs of the row are disabled when it holds. *)
Definition isInherent (r : Risk.item) : bool :=
  String.eqb
    (Str.toLowerCase (if String.eqb (Risk.riskType r) "" then "contingent"
                      else Risk.riskType r))
    "inherent".

Definition zeroCosts (r : Risk.item) : Prop :=
  Risk.lowCost r = VNum Num.zero /\ Risk.mostLikelyCost r = VNum Num.zero
  /\ Risk.highCost r = VNum Num.zero.

(** Every inherent risk of the state has three zero costs. *)
Definition inherentCostsZero (s : State) : Prop :=
  Forall (fun r => isInherent r = true -> zeroCosts r) (risks s).

Definition namesCost (p : Risk.patch) : bool :=
  bool_decide (is_Some (Risk.p_lowCost p))
  || bool_decide (is_Some (Risk.p_mostLikelyCost p))
  || bool_decide (is_Some (Risk.p_highCost p)).

(** The events the risk table can raise in a state: an edit of a cost cell
    names that cost only, and comes from a row whose cost inputs are not
    disabled (rows are told apart by their identifier). *)
Definition enabled (s : State) (e : Event) : Prop :=
  match e with
  | UpdateRiskRow id patch =>
      namesCost patch = true ->
      Risk.p_riskType patch = None /\
      Forall (fun r => Risk.id r = id -> isInherent r = false) (risks s)
  | _ => True
  end.

Fixpoint allEnabled (s : State) (events : list Event) : Prop :=
  match events with
  | [] => True
  | e :: rest => enabled s e /\ allEnabled (step s e) rest
  end.

(** A risk is added and made inherent, then a cost of another is edited. *)
Definition inherentTrace : list Event :=
  [ AddRiskRow;
    UpdateRiskRow "r03" (Risk.mkPatch None None (Some "inherent") None None None None);
    UpdateRiskRow "r01" (Risk.mkPatch None None None None (Some (VStr "5")) None None) ].

(** The number of occurrences of a character in a string. *)
Fixpoint countChar (c : ascii) (s : string) : nat :=
  match s with
  | EmptyString => 0
  | String d r => (if Ascii.eqb d c then 1 else 0) + countChar c r
  end.

Definition quotedCommaRow : string :=
  "Design," +:+ String DQUOTE ("1,500" +:+ String DQUOTE ",Realistic").

Definition crlfText : string :=
  "  name , cost " +:+ String Str.CR LFs +:+ LFs +:+ "   " +:+ String Str.CR " Design , 10 ".

(** A value that is a finite number or [null]. *)
Definition finiteOrNull (v : option number) : Prop :=
  match v with Some n => Num.isFinite n = true | None => True end.

Definition repeatedNamesCsv : string :=
  "cbs,cost" +:+ LFs +:+ "Design,10" +:+ LFs +:+ " DESIGN ,20" +:+ LFs
  +:+ ",30" +:+ LFs +:+ "Build,-5".

(** The warning of a row that was skipped for want of a name. *)
Definition isSkipWarning (w : RiskWarning) : bool :=
  match w with WMissingName _ => true | _ => false end.

(** The rules of the validation engine that bear on one risk alone, on the
    values the parser returns. *)
Definition riskInRange (r : ParsedRisk) : Prop :=
  pr_name r <> "" /\ Str.trim (pr_name r) = pr_name r /\
  (pr_riskType r = "inherent" \/ pr_riskType r = "contingent") /\
  Num.isFinite (pr_probability r) = true /\
  Num.geb (pr_probability r) Num.zero = true /\
  Num.leb (pr_probability r) Num.one = true /\
  Num.isFinite (pr_lowCost r) = true /\ Num.geb (pr_lowCost r) Num.zero = true /\
  Num.isFinite (pr_mostLikelyCost r) = true /\
  Num.geb (pr_mostLikelyCost r) Num.zero = true /\
  Num.isFinite (pr_highCost r) = true /\ Num.geb (pr_highCost r) Num.zero = true.

Definition messyRisksCsv : string :=
  "name,type,p,low,mode,high" +:+ LFs +:+ "Flood,weird,1.7,-3,abc,40" +:+ LFs
  +:+ ",contingent,0.1,1,2,3" +:+ LFs +:+ "Strike,INHERENT,-2,9,9,9".

(** A payload that meets every rule of the validation engine. *)
Definition cbsPayloadValid (standard : bool) (c : PayloadCbs) : Prop :=
  Str.trim (pc_name c) <> "" /\
  pc_confidenceFactor c <> "" /\
  Num.isFinite (pc_baseCost c) = true /\ Num.geb (pc_baseCost c) Num.zero = true /\
  (standard = true ->
   exists g l, pc_driver_group c = Some g /\ Str.trim g <> "" /\
               pc_sensitivity c = Some l /\
               Str.includes ["low"; "medium"; "high"] (Str.toLowerCase l) = true) /\
  (Str.toLowerCase (pc_confidenceFactor c) = "user defined" ->
   exists b m w,
     pc_bestCaseCost c = Some b /\ pc_mostLikelyCost c = Some m /\
     pc_worstCaseCost c = Some w /\
     Num.isFinite b = true /\ Num.isFinite m = true /\ Num.isFinite w = true /\
     Num.geb b Num.zero = true /\ Num.leb b m = true /\ Num.leb m w = true).

Definition riskPayloadValid (k : PayloadRisk) : Prop :=
  Str.trim (pk_name k) <> "" /\
  Num.isFinite (pk_probability k) = true /\
  Num.geb (pk_probability k) Num.zero = true /\
  Num.leb (pk_probability k) Num.one = true /\
  Num.isFinite (pk_lowCost k) = true /\ Num.isFinite (pk_mostLikelyCost k) = true /\
  Num.isFinite (pk_highCost k) = true /\
  Num.geb (pk_lowCost k) Num.zero = true /\
  Num.leb (pk_lowCost k) (pk_mostLikelyCost k) = true /\
  Num.leb (pk_mostLikelyCost k) (pk_highCost k) = true.

Definition readyState : State :=
  setCorrelationMode "standard"
    (setCbsItems
       [ Cbs.mk "cbs01" "DESIGN" (VStr "1000") "Realistic" VNull VNull VNull
           "Market & economic conditions" "";
         Cbs.mk "cbs02" "BUILD" (VNum (Num.ofZ 0)) "User defined"
           (VStr "10") (VStr "20") (VNum (Num.ofZ 20)) "Labour market & productivity" "High" ]
       (setSeed (VStr "abc") initialState)).

(** The identifiers in use were all made by [makeSequentialId] from
    different numbers, none above the counter. *)
Definition idsFrom (prefix : string) (counter : nat) (ids : list string) : Prop :=
  exists ks, ids = makeSequentialId prefix <$> ks /\ NoDup ks
             /\ Forall (fun k => k <= counter) ks.

Definition idsInvariant (s : State) : Prop :=
  idsFrom "cbs" (cbsCounter s) (Cbs.id <$> cbsItems s) /\
  idsFrom "r" (riskCounter s) (Risk.id <$> risks s).

(** The events the component raises: its handlers never put an [id] into
    the patch of a row update. *)
Definition uiEvent (e : Event) : Prop :=
  match e with
  | UpdateCbsRow _ patch => Cbs.p_id patch = None
  | UpdateRiskRow _ patch => Risk.p_id patch = None
  | _ => True
  end.

Definition churnTrace : list Event :=
  [ AddCbsRow; DeleteCbsRow "cbs02"; AddCbsRow; CbsCsvSelected repeatedNamesCsv;
    AddCbsRow; AddRiskRow; DeleteRiskRow "r01";
    UpdateRiskRow "r02" (Risk.mkPatch None (Some "Flood") None None None None None);
    AddRiskRow ].

(** The three flags the cost table computes for each row to mark its cells. *)
Definition badFactor (confidenceFactors : list string) (row : Cbs.item) : bool :=
  String.eqb (Cbs.confidenceFactor row) ""
  || bool_decide (Cbs.confidenceFactor row ∈ EXCLUDED_FACTORS)
  || (negb (Nat.eqb (length confidenceFactors) 0)
      && negb (Str.includes confidenceFactors (Cbs.confidenceFactor row))).

Definition badBaseCost (row : Cbs.item) : bool :=
  let baseCostNum := Number (Cbs.baseCost row) in
  match baseCostNum with NaN => true | _ => Num.ltb baseCostNum Num.zero end.

Definition badUD (confidenceFactorMap : gmap string FactorEntry) (row : Cbs.item) : bool :=
  let ud := isUserDefinedFactor (Cbs.confidenceFactor row) in
  let derived := calcDerivedCosts confidenceFactorMap row in
  ud && negb (Num.isFinite (best derived) && Num.isFinite (ml derived)
              && Num.isFinite (worst derived)
              && Num.geb (best derived) Num.zero && Num.geb (ml derived) Num.zero
              && Num.geb (worst derived) Num.zero
              && Num.leb (best derived) (ml derived)
              && Num.leb (ml derived) (worst derived)).

(** What the revalidation does with one row. *)
Definition keepOrFallback (confidenceFactors : list string) (fallback : string)
    (x : Cbs.item) : Cbs.item :=
  if bool_decide (Cbs.confidenceFactor x ∈ EXCLUDED_FACTORS)
     || (negb (String.eqb (Cbs.confidenceFactor x) "")
         && negb (Str.includes confidenceFactors (Cbs.confidenceFactor x)))
  then Cbs.spread x (factorPatch fallback)
  else x.

(** A session whose rows name a factor the table will not offer. *)
Definition legacyState : State :=
  setCbsItems
    [ sampleItem;
      Cbs.mk "cbs02" "BUILD" (VStr "500") "% Allocation" (VStr "1") VNull VNull "" "medium";
      Cbs.mk "cbs03" "FITOUT" (VStr "70") "Optimistic" VNull VNull VNull "" "medium" ]
    initialState.

(** A valid session whose second row carries its factor with a space in
    front. *)
Definition paddedState : State :=
  setCbsItems
    [ sampleItem;
      Cbs.mk "cbs02" "BUILD" (VStr "500") " User defined"
        (VStr "900") (VStr "500") (VStr "400") "" "medium" ]
    initialState.

(** ** The sensitivity slider *)

Definition SENSITIVITY_LEVELS : list string := ["none"; "low"; "medium"; "high"].

(** [arr[idx]] with a number for [idx]: an element for a whole number that
    is a position of the array, [undefined] (here [None]) for anything
    else. *)
Definition arrayAt {A : Type} (arr : list A) (idx : number) : option A :=
  match idx with
  | Fin q =>
      match Qred q with
      | Qmake n xH => if (0 <=? n)%Z then arr !! Z.to_nat n else None
      | _ => None
      end
  | _ => None
  end.

Definition sensitivityToIndex (s : string) : nat :=
  match Str.indexOf SENSITIVITY_LEVELS (Str.toLowerCase s) with
  | Some i => i
  | None => 2 (* default = medium *)
  end.

Definition indexToSensitivity (i : JsVal) : option string :=
  let idx := Num.min (Num.ofZ 3) (Num.max Num.zero (Num.orElse (Number i) Num.zero)) in
  arrayAt SENSITIVITY_LEVELS idx.

(** The patch the slider hands to [updateCbsRow]. *)
Definition sensitivityPatch (level : string) : Cbs.patch :=
  Cbs.mkPatch None None None None None None None None (Some level).

(** * Properties *)

(** ** Sample runs *)

Example Number_examples :
  Number (VStr " 12.50 ") = Fin (25 # 2) /\
  Number (VStr "") = Fin 0 /\
  Number (VStr "1e3") = Fin 1000 /\
  Number (VStr "-.5") = Fin (- 1 # 2) /\
  Number (VStr "0x1F") = Fin 31 /\
  Number (VStr "abc") = NaN /\
  Number (VStr "1,5") = NaN /\
  Number (VStr "-Infinity") = Infinity true /\
  Number (VStr "1e999") = Infinity false /\
  Number (VStr "1e-999") = Fin 0 /\
  Number VNull = Fin 0 /\
  Number VUndefined = NaN.
Proof. vm_compute. repeat split; reflexivity. Qed.


Example parseRisksCsv_alias_header :
  parseRisksCsv ("risk,p,low,mode,high" +:+ LFs +:+ "Weather,0.3,10,20,40")
  = ([mkParsedRisk "Weather" "contingent" (Num.dec 3 1) (Fin 10) (Fin 20) (Fin 40)], []).
Proof. vm_compute. reflexivity. Qed.

Example parseCbsCsv_trio :
  parseCbsCsv ("name,basecost,low,mostLikely,high" +:+ LFs +:+ "Design,100,80,100,150"
               +:+ LFs +:+ "Build,200,,210,300" +:+ LFs +:+ "design,1,1,1,1")
  = [mkCbsCsvRow "Design" (Some (Fin 100)) (Some (Fin 80)) (Some (Fin 100)) (Some (Fin 150));
     mkCbsCsvRow "Build" (Some (Fin 200)) None (Some (Fin 210)) (Some (Fin 300))].
Proof. vm_compute. reflexivity. Qed.

Example validation_iterations :
  validationIssues (VStr "25000") (cbsItems initialState) (risks initialState) "none"
    = ["Iterations must be 20,000 or less."] /\
  validationIssues (VNum (Num.ofZ 0)) (cbsItems initialState) (risks initialState) "none"
    = ["Iterations must be a positive number."] /\
  validationIssues (iterations initialState) (cbsItems initialState)
    (risks initialState) (correlationMode initialState) = [].
Proof. vm_compute. repeat split; reflexivity. Qed.

Example calcDerivedCosts_user_defined :
  calcDerivedCosts ∅
    (Cbs.mk "cbs01" "DESIGN" (VNum (Num.ofZ 80)) " user DEFINED "
       (VStr "70") (VNum (Num.ofZ 80)) VNull "" "medium")
  = {| best := Fin 70; ml := Fin 80; worst := Fin 0; isDerived := false |}.
Proof. vm_compute. reflexivity. Qed.

Example splitRow_quotes :
  splitRow (" 'a' ," +:+ String DQUOTE ("b c" +:+ String DQUOTE ", d "))
  = ["a"; "b c"; "d"].
Proof. vm_compute. reflexivity. Qed.

(** ** Numbers *)

Module NumFacts.

Lemma orElse_not_NaN n d : d <> NaN -> Num.orElse n d <> NaN.
Proof. unfold Num.orElse. destruct n; simpl; try done. by destruct (Qeq_bool q 0). Qed.

Lemma Qred_sub_gt x y : (Qred (x - y) ?= 0)%Q = (x ?= y)%Q.
Proof.
  rewrite (Qred_correct (x - y)).
  destruct (x ?= y)%Q eqn:E.
  - apply Qeq_alt in E. apply Qeq_alt. rewrite E. ring.
  - apply Qlt_alt in E. apply Qlt_alt. apply (Qplus_lt_l _ _ y). ring_simplify. exact E.
  - apply Qgt_alt in E. apply Qgt_alt. apply (Qplus_lt_l _ _ y). ring_simplify. exact E.
Qed.

(** The sign of a difference is the order of its operands. *)
Lemma gtb_sub a b :
  a <> NaN -> b <> NaN -> Num.gtb (Num.sub b a) Num.zero = Num.gtb b a.
Proof.
  intros Ha Hb. destruct a as [|[]|x], b as [|[]|y]; try done.
  unfold Num.gtb, Num.sub, Num.zero, Num.compare. by rewrite Qred_sub_gt.
Qed.

Lemma geb_total a b :
  a <> NaN -> b <> NaN -> Num.gtb b a = false -> Num.geb a b = true.
Proof.
  intros Ha Hb. destruct a as [|[]|x], b as [|[]|y]; try done.
  unfold Num.gtb, Num.geb, Num.compare.
  rewrite <- (Qcompare_antisym y x). by destruct (y ?= x)%Q.
Qed.

Lemma gtb_geb a b : Num.gtb a b = true -> Num.geb a b = true.
Proof. unfold Num.gtb, Num.geb. by destruct (Num.compare a b) as [[]|]. Qed.

Lemma geb_trans a b c :
  Num.geb a b = true -> Num.geb b c = true -> Num.geb a c = true.
Proof.
  destruct a as [|[]|x], b as [|[]|y], c as [|[]|z]; try done.
  unfold Num.geb, Num.compare. intros H1 H2.
  assert (y <= x)%Q.
  { destruct (x ?= y)%Q eqn:E; try done.
    - apply Qeq_alt in E. rewrite E. apply Qle_refl.
    - apply Qgt_alt in E. by apply Qlt_le_weak. }
  assert (z <= y)%Q.
  { destruct (y ?= z)%Q eqn:E; try done.
    - apply Qeq_alt in E. rewrite E. apply Qle_refl.
    - apply Qgt_alt in E. by apply Qlt_le_weak. }
  assert (z <= x)%Q as Hzx by (by eapply Qle_trans).
  destruct (x ?= z)%Q eqn:E; try done.
  apply Qlt_alt in E. exfalso. by apply (Qlt_not_le _ _ E).
Qed.

End NumFacts.

(** ** Sorting by a numeric key *)

Section SortFacts.
Context {A : Type} (key : A -> number).
Hypothesis key_number : forall x, key x <> NaN.

Abbreviation byKeyDesc := (byKeyDesc key).
Abbreviation descending := (descending key).

Lemma goesAfter_key a b : goesAfter byKeyDesc a b = Num.gtb (key b) (key a).
Proof. unfold goesAfter, byKeyDesc. by apply NumFacts.gtb_sub. Qed.

Lemma insertSorted_perm (cmp : A -> A -> number) x l :
  insertSorted cmp x l ≡ₚ x :: l.
Proof.
  induction l as [|y r IH]; simpl; [done|].
  destruct (goesAfter cmp x y); [|done].
  rewrite IH. apply Permutation_swap.
Qed.

Lemma sort_perm (cmp : A -> A -> number) l : sort cmp l ≡ₚ l.
Proof.
  induction l as [|x l IH]; simpl; [done|].
  unfold sort in IH. by rewrite insertSorted_perm, IH.
Qed.

Lemma insertSorted_sorted x l :
  StronglySorted descending l ->
  StronglySorted descending (insertSorted byKeyDesc x l).
Proof.
  induction l as [|y r IH]; simpl; intros Hs.
  - repeat constructor.
  - apply StronglySorted_inv in Hs as [Hr Hy].
    rewrite goesAfter_key. destruct (Num.gtb (key y) (key x)) eqn:E.
    + constructor; [by apply IH|].
      rewrite insertSorted_perm. constructor; [|done].
      by apply NumFacts.gtb_geb.
    + assert (descending x y) as Hxy by (by apply NumFacts.geb_total).
      constructor; [by constructor|].
      constructor; [done|].
      eapply Forall_impl; [exact Hy|].
      intros z Hz. by eapply NumFacts.geb_trans.
Qed.

Lemma sort_sorted l : StronglySorted descending (sort byKeyDesc l).
Proof.
  induction l as [|x l IH]; simpl; [constructor|].
  by apply insertSorted_sorted.
Qed.

Lemma filter_sorted (R : relation A) f l :
  StronglySorted R l -> StronglySorted R (List.filter f l).
Proof.
  induction 1 as [|x l Hs IH Hx]; simpl; [constructor|].
  destruct (f x); [|done].
  constructor; [done|].
  apply Forall_forall. intros z Hz%list_elem_of_In%filter_In.
  rewrite Forall_forall in Hx. apply Hx, list_elem_of_In, Hz.
Qed.

Lemma take_sorted (R : relation A) n l :
  StronglySorted R l -> StronglySorted R (take n l).
Proof.
  intros Hs. revert n. induction Hs as [|x l Hs IH Hx]; intros [|n]; simpl;
    try constructor; [by apply IH|].
  apply Forall_forall. intros z Hz.
  rewrite Forall_forall in Hx. apply Hx.
  eapply elem_of_sublist; [exact Hz | apply sublist_take].
Qed.

Lemma filter_perm f (l1 l2 : list A) :
  l1 ≡ₚ l2 -> List.filter f l1 ≡ₚ List.filter f l2.
Proof.
  induction 1 as [|x l1 l2 _ IH|x y l|l1 l2 l3 _ IH1 _ IH2]; simpl.
  - done.
  - destruct (f x); by rewrite IH.
  - destruct (f x), (f y); try done. apply Permutation_swap.
  - by rewrite IH1.
Qed.

(** Sorting commutes with a projection the comparator factors through. *)
Lemma insertSorted_fmap {B : Type} (g : A -> B) (cmpB : B -> B -> number) x s :
  g <$> insertSorted (fun a b => cmpB (g a) (g b)) x s
  = insertSorted cmpB (g x) (g <$> s).
Proof.
  induction s as [|y s IHs]; [done|].
  cbn [insertSorted fmap list_fmap]. unfold goesAfter.
  destruct (Num.gtb (cmpB (g x) (g y)) Num.zero); [|done].
  cbn [fmap list_fmap]. f_equal. exact IHs.
Qed.

Lemma sort_fmap {B : Type} (g : A -> B) (cmpB : B -> B -> number) l :
  g <$> sort (fun a b => cmpB (g a) (g b)) l = sort cmpB (g <$> l).
Proof.
  induction l as [|x l IH]; [done|].
  unfold sort in *. cbn [foldr fmap list_fmap].
  by rewrite insertSorted_fmap, IH.
Qed.

Lemma filter_fmap {B : Type} (g : A -> B) (f : B -> bool) l :
  g <$> List.filter (fun a => f (g a)) l = List.filter f (g <$> l).
Proof.
  induction l as [|x l IH]; [done|].
  cbn [List.filter fmap list_fmap]. destruct (f (g x));
    cbn [fmap list_fmap]; [f_equal|]; exact IH.
Qed.

End SortFacts.

(** ** Sensitivity tiers *)

Lemma rhoOf_number v : rhoOf v <> NaN.
Proof. by apply NumFacts.orElse_not_NaN. Qed.

Lemma rhoKey_number x : rhoKey x <> NaN.
Proof. apply rhoOf_number. Qed.

(** What [groupedSensitivity] returns: each tier is the first
    [MAX_PER_GROUP] rows of a rearrangement of the rows of its band that
    runs from the largest key down. *)
Lemma groupedSensitivity_tiers (rows : list SensitivityRow) :
  (exists D, D ≡ₚ List.filter isDominant rows
             /\ StronglySorted (descending rhoKey) D
             /\ dominant (groupedSensitivity rows) = take MAX_PER_GROUP D) /\
  (exists M, M ≡ₚ List.filter isModerate rows
             /\ StronglySorted (descending rhoKey) M
             /\ moderate (groupedSensitivity rows) = take MAX_PER_GROUP M).
Proof.
  split.
  - exists (List.filter isDominant (sort (byKeyDesc rhoKey) rows)). split_and!.
    + apply filter_perm, sort_perm.
    + apply filter_sorted, sort_sorted, rhoKey_number.
    + done.
  - exists (List.filter isModerate (sort (byKeyDesc rhoKey) rows)). split_and!.
    + apply filter_perm, sort_perm.
    + apply filter_sorted, sort_sorted, rhoKey_number.
    + done.
Qed.

Lemma elem_of_tier (f : SensitivityRow -> bool) rows x :
  x ∈ take MAX_PER_GROUP (List.filter f (sort (byKeyDesc rhoKey) rows)) ->
  x ∈ rows /\ f x = true.
Proof.
  intros Hx. eapply elem_of_sublist in Hx; [|apply sublist_take].
  apply list_elem_of_In, filter_In in Hx as [Hx Hf]. split; [|done].
  apply list_elem_of_In in Hx. by rewrite sort_perm in Hx.
Qed.

(** The two thresholds are finite and the lower one is the smaller. *)
Lemma tier_bounds :
  exists lo hi, MODERATE_MIN = Fin lo /\ DOMINANT_MIN = Fin hi /\ (lo < hi)%Q.
Proof.
  eexists _, _. split_and!; [vm_compute; reflexivity | vm_compute; reflexivity |].
  vm_compute. reflexivity.
Qed.

(** The bands: a dominant row has a key of at least 0.30, a moderate row a
    key from 0.15 up to but not including 0.30, and a row below 0.15 is in
    neither tier. *)
Lemma groupedSensitivity_bands (rows : list SensitivityRow) (x : SensitivityRow) :
  (x ∈ dominant (groupedSensitivity rows) ->
   x ∈ rows /\ Num.geb (rhoKey x) DOMINANT_MIN = true) /\
  (x ∈ moderate (groupedSensitivity rows) ->
   x ∈ rows /\ Num.geb (rhoKey x) MODERATE_MIN = true
   /\ Num.ltb (rhoKey x) DOMINANT_MIN = true) /\
  (Num.ltb (rhoKey x) MODERATE_MIN = true ->
   (x ∉ dominant (groupedSensitivity rows)) /\ (x ∉ moderate (groupedSensitivity rows))).
Proof.
  assert (forall k, Num.ltb k MODERATE_MIN = true ->
            Num.geb k MODERATE_MIN = false /\ Num.geb k DOMINANT_MIN = false) as Hlow.
  { destruct tier_bounds as (lo & hi & -> & -> & Hlh).
    intros [|[]|q]; try done. unfold Num.ltb, Num.geb, Num.compare. intros H.
    destruct (q ?= lo)%Q eqn:E; try done. split; [done|].
    apply Qlt_alt in E.
    assert (q < hi)%Q as E' by (eapply Qlt_trans; [exact E | exact Hlh]).
    by rewrite (proj1 (Qlt_alt _ _) E'). }
  split_and!.
  - intros Hx. by apply (elem_of_tier isDominant) in Hx.
  - intros Hx. apply (elem_of_tier isModerate) in Hx as [? Hm].
    unfold isModerate in Hm. apply andb_true_iff in Hm. tauto.
  - intros Hlt. apply Hlow in Hlt as [H1 H2]. split; intros Hx.
    + apply (elem_of_tier isDominant) in Hx as [_ Hd]. unfold isDominant in Hd. congruence.
    + apply (elem_of_tier isModerate) in Hx as [_ Hm]. unfold isModerate in Hm.
      apply andb_true_iff in Hm as [Hm _]. congruence.
Qed.

(** Order and size: each tier runs from the largest key down and has at
    most [MAX_PER_GROUP] rows; a band of at most that many rows is shown
    whole. *)
Lemma groupedSensitivity_sorted_capped (rows : list SensitivityRow) :
  StronglySorted (descending rhoKey) (dominant (groupedSensitivity rows)) /\
  StronglySorted (descending rhoKey) (moderate (groupedSensitivity rows)) /\
  length (dominant (groupedSensitivity rows)) <= MAX_PER_GROUP /\
  length (moderate (groupedSensitivity rows)) <= MAX_PER_GROUP /\
  (length (List.filter isDominant rows) <= MAX_PER_GROUP ->
   dominant (groupedSensitivity rows) ≡ₚ List.filter isDominant rows) /\
  (length (List.filter isModerate rows) <= MAX_PER_GROUP ->
   moderate (groupedSensitivity rows) ≡ₚ List.filter isModerate rows).
Proof.
  assert (forall f, length (List.filter f rows) <= MAX_PER_GROUP ->
            take MAX_PER_GROUP (List.filter f (sort (byKeyDesc rhoKey) rows))
            ≡ₚ List.filter f rows) as Hall.
  { intros f Hlen.
    assert (List.filter f (sort (byKeyDesc rhoKey) rows) ≡ₚ List.filter f rows) as Hp
      by apply filter_perm, sort_perm.
    rewrite take_ge; [done|]. by rewrite Hp. }
  unfold groupedSensitivity; cbn [dominant moderate]. split_and!.
  - apply take_sorted, filter_sorted, sort_sorted, rhoKey_number.
  - apply take_sorted, filter_sorted, sort_sorted, rhoKey_number.
  - rewrite length_take. lia.
  - rewrite length_take. lia.
  - apply Hall.
  - apply Hall.
Qed.

(** The tiers of [groupedSensitivity] as lists of [abs_rho] values. *)
Lemma groupedSensitivity_rhos (rows : list SensitivityRow) :
  abs_rho <$> dominant (groupedSensitivity rows)
  = take MAX_PER_GROUP
      (List.filter (fun v => Num.geb (rhoOf v) DOMINANT_MIN)
         (sort (byKeyDesc rhoOf) (abs_rho <$> rows))) /\
  abs_rho <$> moderate (groupedSensitivity rows)
  = take MAX_PER_GROUP
      (List.filter (fun v => Num.geb (rhoOf v) MODERATE_MIN
                             && Num.ltb (rhoOf v) DOMINANT_MIN)
         (sort (byKeyDesc rhoOf) (abs_rho <$> rows))).
Proof.
  unfold groupedSensitivity; cbn [dominant moderate].
  rewrite !fmap_take.
  rewrite <- (sort_fmap abs_rho (byKeyDesc rhoOf)).
  split; f_equal.
  - apply (filter_fmap abs_rho (fun v => Num.geb (rhoOf v) DOMINANT_MIN)).
  - apply (filter_fmap abs_rho (fun v => Num.geb (rhoOf v) MODERATE_MIN
                                         && Num.ltb (rhoOf v) DOMINANT_MIN)).
Qed.

(** The example of the specification, for [groupedSensitivity]: rows with
    the values 0.5, 0.31, 0.29, 0.16 and 0.10 in any order. *)
Lemma groupedSensitivity_example (rows : list SensitivityRow) :
  abs_rho <$> rows ≡ₚ exampleRhos ->
  abs_rho <$> dominant (groupedSensitivity rows)
    = [VNum (Num.dec 5 1); VNum (Num.dec 31 2)] /\
  abs_rho <$> moderate (groupedSensitivity rows)
    = [VNum (Num.dec 29 2); VNum (Num.dec 16 2)].
Proof.
  intros Hp. destruct (groupedSensitivity_rhos rows) as [-> ->].
  symmetry in Hp. apply permutations_Permutation in Hp.
  revert Hp. generalize (abs_rho <$> rows). apply Forall_forall.
  let l := eval vm_compute in (permutations exampleRhos) in
  change (permutations exampleRhos) with l.
  repeat (apply Forall_cons; split; [vm_compute; split; reflexivity|]).
  apply Forall_nil_2.
Qed.

(** C1. The tiers the results panel shows are not those of
    [groupedSensitivity]: for the five example values handed over in
    ascending order the panel lists Dominant as 0.31, 0.5 and Moderate as
    0.16, 0.29 (the order of arrival), where [groupedSensitivity] gives
    0.5, 0.31 and 0.29, 0.16; and the panel cuts the two tiers at two
    different sizes, 8 and 10, where [groupedSensitivity] cuts both at 6. *)
Theorem renderedTiers_unsorted_uneven_caps :
  abs_rho <$> dominant (renderedTiers ascendingRows)
    = [VNum (Num.dec 31 2); VNum (Num.dec 5 1)] /\
  abs_rho <$> moderate (renderedTiers ascendingRows)
    = [VNum (Num.dec 16 2); VNum (Num.dec 29 2)] /\
  abs_rho <$> dominant (groupedSensitivity ascendingRows)
    = [VNum (Num.dec 5 1); VNum (Num.dec 31 2)] /\
  abs_rho <$> moderate (groupedSensitivity ascendingRows)
    = [VNum (Num.dec 29 2); VNum (Num.dec 16 2)] /\
  length (dominant (renderedTiers (replicate 12 strongRow))) = 8 /\
  length (moderate (renderedTiers (replicate 12 mildRow))) = 10 /\
  length (dominant (groupedSensitivity (replicate 12 strongRow))) = 6 /\
  length (moderate (groupedSensitivity (replicate 12 mildRow))) = 6.
Proof. vm_compute. repeat split; reflexivity. Qed.

(** ** Lifecycle of the results *)

Lemma resetResults_clears s :
  results (resetResults s) = None /\ sensitivity (resetResults s) = [].
Proof. done. Qed.

(** The handlers that end in [resetResults()]: every change of a CBS item,
    of a risk or of the correlation mode, a successful import and the start
    of a run leave no result and no sensitivity row behind. *)
Lemma step_clears_results (s : State) (e : Event) :
  match e with
  | CorrelationSelected _ | AddCbsRow | DeleteCbsRow _ | UpdateCbsRow _ _
  | AddRiskRow | DeleteRiskRow _ | UpdateRiskRow _ _ | RunSimulation =>
      results (step s e) = None /\ sensitivity (step s e) = []
  | CbsCsvSelected text =>
      importedCbsItems (confidenceFactors s) text <> [] ->
      results (step s e) = None /\ sensitivity (step s e) = []
  | RisksCsvSelected text =>
      importedRisks text <> [] ->
      results (step s e) = None /\ sensitivity (step s e) = []
  | _ => True
  end.
Proof.
  destruct e; try done; cbn [step]; intros Hne.
  - by destruct (importedCbsItems _ _).
  - by destruct (importedRisks _).
Qed.

(** The two settings inputs call their setter and nothing else. *)
Lemma settings_change_keeps_results (s : State) (value : string) :
  results (step s (IterationsChanged value)) = results s /\
  sensitivity (step s (IterationsChanged value)) = sensitivity s /\
  results (step s (SeedChanged value)) = results s /\
  sensitivity (step s (SeedChanged value)) = sensitivity s.
Proof. done. Qed.

(** C2. After a run with seed 123456 and 5000 iterations has delivered its
    result, changing the seed and the iterations leaves that result and its
    sensitivity rows in the state: the state reached holds a result that
    was produced from other settings than the current ones. *)
Theorem settings_edit_leaves_stale_results :
  let s := run initialState staleTrace in
  results s = Some sampleResults /\
  sensitivity s = [strongRow] /\
  seed s = VStr "7" /\
  iterations s = VStr "10000" /\
  seed initialState = VNum (Num.ofZ 123456) /\
  iterations initialState = VNum (Num.ofZ 5000).
Proof. vm_compute. repeat split; reflexivity. Qed.

(** ** The payload *)

Lemma orElse_coerced v : coerced v (Num.orElse (Number v) Num.zero).
Proof.
  unfold coerced, Num.orElse. split_and!.
  - by apply (NumFacts.orElse_not_NaN (Number v) Num.zero).
  - by intros ->.
  - by intros ->.
  - intros Hf. by destruct (Num.truthy (Number v)).
Qed.

(** C3, as stated, fails: with the text abc in the iterations cell the
    payload carries [NaN] as [settings.iterations], neither finite nor [0];
    and a base cost that converts to an infinity is passed on as it is. *)
Lemma payload_not_fully_coerced :
  ~ payloadFullyCoerced (setIterations (VStr "abc") initialState) /\
  ps_iterations (pl_settings (buildPayload (setIterations (VStr "abc") initialState))) = NaN /\
  pc_baseCost (payloadCbs "none" (Cbs.mk "cbs01" "A" (VStr "Infinity") "Realistic"
                                   VNull VNull VNull "" "medium"))
    = Infinity false.
Proof.
  split_and!; [|done..].
  intros [[Hfin _] _]. vm_compute in Hfin. discriminate.
Qed.

(** C3, amended.  In the payload built from any state, [settings.iterations]
    and [settings.seed] are [Number(iterations)] and [Number(seed)] with no
    fallback; every CBS [baseCost] and every risk [probability], [lowCost],
    [mostLikelyCost] and [highCost] is [Number(source) || 0]: never [NaN],
    [0] for a source that is not numeric, finite whenever the converted
    source is; and a manual cost field is [null] for a blank source and
    [Number(source)] otherwise. *)
Theorem buildPayload_numeric_fields (s : State) :
  let p := buildPayload s in
  ps_iterations (pl_settings p) = Number (iterations s) /\
  ps_seed (pl_settings p) = Number (seed s) /\
  Forall2 (fun x c =>
             coerced (Cbs.baseCost x) (pc_baseCost c) /\
             pc_bestCaseCost c
               = (if isBlank (Cbs.bestCaseCost x) then None
                  else Some (Number (Cbs.bestCaseCost x))) /\
             pc_mostLikelyCost c
               = (if isBlank (Cbs.mostLikelyCost x) then None
                  else Some (Number (Cbs.mostLikelyCost x))) /\
             pc_worstCaseCost c
               = (if isBlank (Cbs.worstCaseCost x) then None
                  else Some (Number (Cbs.worstCaseCost x))))
    (cbsItems s) (pl_cbsItems p) /\
  Forall2 (fun r k =>
             coerced (Risk.probability r) (pk_probability k) /\
             coerced (Risk.lowCost r) (pk_lowCost k) /\
             coerced (Risk.mostLikelyCost r) (pk_mostLikelyCost k) /\
             coerced (Risk.highCost r) (pk_highCost k))
    (risks s) (pl_contingentRisks p).
Proof.
  cbn zeta. unfold buildPayload; cbn [pl_settings ps_iterations ps_seed
    pl_cbsItems pl_contingentRisks]. split_and!; try done.
  - apply Forall2_fmap_r, Forall_Forall2_diag, Forall_forall. intros x _.
    unfold payloadCbs; cbn. split_and!; try done. apply orElse_coerced.
  - apply Forall2_fmap_r, Forall_Forall2_diag, Forall_forall. intros r _.
    unfold payloadRisk; cbn. split_and!; apply orElse_coerced.
Qed.

(** ** Derived costs *)

Lemma mul_zero_finite n :
  Num.isFinite n = true -> Num.mul Num.zero n = Num.zero.
Proof.
  (* [Qred (0 * q)] computes to [0] whatever [q] is *)
  by destruct n as [| |q].
Qed.

(** What [calcDerivedCosts] returns for an item that is not user-defined.
    When the factor is a key of the table, the derived costs are the base
    cost times the three multipliers of its entry, flagged as derived, where
    a multiplier the entry lacks counts as 1 and a base cost that is absent
    or not numeric counts as 0, so that a base cost of 0 gives three zeros
    (for multipliers that are finite numbers).  When the factor is no key of
    the table, the three costs are [NaN] unless the factor names a member
    that every object inherits: then the guard finds a truthy value without
    multipliers and the three costs are the base cost times 1. *)
Lemma calcDerivedCosts_by_factor
    (confidenceFactorMap : gmap string FactorEntry) (row : Cbs.item) :
  isUserDefinedFactor (Cbs.confidenceFactor row) = false ->
  let base := Num.orElse (Number (Cbs.baseCost row)) Num.zero in
  (forall f, confidenceFactorMap !! Cbs.confidenceFactor row = Some f ->
     calcDerivedCosts confidenceFactorMap row
       = {| best := Num.mul base (multiplier (f_best f));
            ml := Num.mul base (multiplier (f_most_likely f));
            worst := Num.mul base (multiplier (f_worst f));
            isDerived := true |}
     /\ (f_best f = VUndefined -> multiplier (f_best f) = Num.one)
     /\ (f_most_likely f = VUndefined -> multiplier (f_most_likely f) = Num.one)
     /\ (f_worst f = VUndefined -> multiplier (f_worst f) = Num.one)
     /\ (Num.truthy (Number (Cbs.baseCost row)) = false ->
         Num.isFinite (multiplier (f_best f)) = true ->
         Num.isFinite (multiplier (f_most_likely f)) = true ->
         Num.isFinite (multiplier (f_worst f)) = true ->
         calcDerivedCosts confidenceFactorMap row
           = {| best := Num.zero; ml := Num.zero; worst := Num.zero;
                isDerived := true |})) /\
  (Number (Cbs.baseCost row) = NaN -> base = Num.zero) /\
  (confidenceFactorMap !! Cbs.confidenceFactor row = None ->
     calcDerivedCosts confidenceFactorMap row
       = if Str.includes OBJECT_PROTOTYPE_KEYS (Cbs.confidenceFactor row)
         then {| best := Num.mul base Num.one; ml := Num.mul base Num.one;
                 worst := Num.mul base Num.one; isDerived := true |}
         else {| best := NaN; ml := NaN; worst := NaN; isDerived := true |}).
Proof.
  intros Hud base. unfold calcDerivedCosts, readFactor. rewrite Hud. fold base.
  split_and!.
  - intros f ->. split_and!; try done; try (by intros ->).
    intros Hz Hb Hm Hw. unfold base, Num.orElse. rewrite Hz.
    by rewrite !mul_zero_finite.
  - unfold base. by intros ->.
  - intros ->. by destruct (Str.includes _ _).
Qed.

Example calcDerivedCosts_sample :
  calcDerivedCosts (factorMap sampleFactors) sampleItem
  = {| best := Fin 950; ml := Fin 1000; worst := Fin 1500; isDerived := true |}.
Proof.
  destruct (calcDerivedCosts_by_factor (factorMap sampleFactors) sampleItem) as [H _].
  - vm_compute. reflexivity.
  - destruct (H (mkFactor (VNum (Num.dec 95 2)) VUndefined (VNum (Num.dec 15 1))))
      as [-> _].
    + vm_compute. reflexivity.
    + vm_compute. reflexivity.
Qed.

(** A product is rounded as the code rounds it: 100 times 1.1 is the
    double just above 110. *)
Example calcDerivedCosts_rounds :
  best (calcDerivedCosts {[ "Stretch" := mkFactor (VNum (Num.dec 11 1)) VUndefined VUndefined ]}
          (Cbs.mk "cbs01" "DESIGN" (VStr "100") "Stretch" VNull VNull VNull "" "medium"))
  = Fin (7740561859543041 # 70368744177664).
Proof. vm_compute. reflexivity. Qed.


(** ** Usable confidence factors *)

(** C5, as stated, fails: a fetched table with the key User defined offers
    it among the usable factors. *)
Lemma user_defined_is_usable :
  "User defined" ∈ usableFactors sampleFactors /\
  ~ (forall factors, "User defined" ∉ usableFactors factors).
Proof.
  assert ("User defined" ∈ usableFactors sampleFactors) as H
    by (vm_compute; set_solver).
  split; [exact H|]. intros Hall. exact (Hall _ H).
Qed.

(** C5, amended.  The usable factors are the keys of the fetched table, in
    its order, without the one designated key, which is % Allocation: that
    key is never usable, and every other key of the table, User defined
    included, is. *)
Theorem usableFactors_excludes_allocation (factors : list (string * FactorEntry)) :
  (forall k, k ∈ usableFactors factors <-> k ∈ (fst <$> factors) /\ k <> "% Allocation") /\
  ("% Allocation" ∉ usableFactors factors) /\
  ("User defined" ∈ usableFactors factors <-> "User defined" ∈ (fst <$> factors)) /\
  usableFactors factors `sublist_of` (fst <$> factors).
Proof.
  assert (forall k, k ∈ usableFactors factors
                    <-> k ∈ (fst <$> factors) /\ k <> "% Allocation") as Hk.
  { intros k. unfold usableFactors. rewrite list_elem_of_In, filter_In, <- list_elem_of_In.
    rewrite negb_true_iff, bool_decide_eq_false. unfold EXCLUDED_FACTORS.
    by rewrite elem_of_singleton. }
  split_and!.
  - exact Hk.
  - rewrite Hk. tauto.
  - rewrite Hk. split; [tauto|]. intros H. split; [done|discriminate].
  - unfold usableFactors. generalize (fst <$> factors). intros l.
    induction l as [|x l IH]; simpl; [done|].
    destruct (negb _); by constructor.
Qed.

(** ** Validation *)

Lemma filter_pushIf (f : Issue -> bool) c i :
  List.filter f (pushIf c i) = if c && f i then [i] else [].
Proof. destruct c; simpl; [|done]. by destruct (f i). Qed.

(** Of all the checks on a CBS row, only the two order checks of a
    user-defined row report an order between cost fields. *)
Lemma cbsIssues_ordering (correlationMode : string) (i : nat) (x : Cbs.item) :
  List.filter isOrderingIssue (cbsIssues correlationMode i x)
  = if String.eqb (Str.toLowerCase (Cbs.confidenceFactor x)) "user defined"
    then cbsOrderIssues (i + 1) x else [].
Proof.
  unfold cbsIssues, cbsCorrelationIssues, cbsUserDefinedIssues, cbsOrderIssues.
  destruct (String.eqb (Str.toLowerCase correlationMode) "standard");
    destruct (String.eqb (Str.toLowerCase (Cbs.confidenceFactor x)) "user defined");
    rewrite ?List.filter_app, ?filter_pushIf; cbn [isOrderingIssue List.filter];
    rewrite ?andb_false_r, ?andb_true_r; cbn [app];
    rewrite ?app_nil_r; unfold pushIf; reflexivity.
Qed.

Lemma cbsIssues_in_validate iterations cbsItems risks correlationMode i x issue :
  cbsItems !! i = Some x ->
  issue ∈ cbsIssues correlationMode i x ->
  issue ∈ validate iterations cbsItems risks correlationMode.
Proof.
  intros Hi Hin. unfold validate. rewrite !elem_of_app. right; right; left.
  apply list_elem_of_In, in_concat. exists (cbsIssues correlationMode i x).
  split; apply list_elem_of_In; [|done].
  by apply elem_of_lookup_imap_2.
Qed.

(** The first order check does not stand alone: with a worst case of 20
    the item with a best case of 100 and a most likely cost of 50 has both
    order issues. *)
Lemma best_over_most_likely_not_alone : ~ orderIssueAlone.
Proof.
  intros H. specialize (H "none" 0 lowWorstItem eq_refl eq_refl eq_refl).
  vm_compute in H. discriminate H.
Qed.

(** C6. For a CBS item whose confidence factor is User defined in any
    mix of cases, the order issues among its validation issues are those of
    two checks that are made and reported apart: best against most likely,
    and most likely against worst.  With a best case of 100 and a most
    likely cost of 50 the issue Best case must be ≤ Most likely is always
    reported, for the row and in the list the component shows; any other
    order issue of the row is the one of the second check, which is
    reported exactly when the worst case converts to a finite number below
    50.  So for a worst case that is a number below 50 the row has both
    order issues, and for one that is a number of 50 or more it has the
    first only. *)
Theorem user_defined_order_checks
    (correlationMode : string) (i : nat) (x : Cbs.item) :
  Str.toLowerCase (Cbs.confidenceFactor x) = "user defined" ->
  let b := Number (Cbs.bestCaseCost x) in
  let m := Number (Cbs.mostLikelyCost x) in
  let w := Number (Cbs.worstCaseCost x) in
  List.filter isOrderingIssue (cbsIssues correlationMode i x)
    = pushIf (Num.isFinite b && Num.isFinite m && Num.gtb b m)
        (CbsBestLeMostLikely (i + 1))
      ++ pushIf (Num.isFinite m && Num.isFinite w && Num.gtb m w)
           (CbsMostLikelyLeWorst (i + 1)) /\
  (b = Num.ofZ 100 -> m = Num.ofZ 50 ->
   CbsBestLeMostLikely (i + 1) ∈ cbsIssues correlationMode i x /\
   issueText (CbsBestLeMostLikely (i + 1))
     = "CBS row " +:+ pretty (i + 1) +:+ ": Best case must be ≤ Most likely." /\
   (forall iterations cbsItems risks,
      cbsItems !! i = Some x ->
      issueText (CbsBestLeMostLikely (i + 1))
        ∈ validationIssues iterations cbsItems risks correlationMode) /\
   (forall issue,
      issue ∈ cbsIssues correlationMode i x -> isOrderingIssue issue = true ->
      issue = CbsBestLeMostLikely (i + 1) \/ issue = CbsMostLikelyLeWorst (i + 1)) /\
   (CbsMostLikelyLeWorst (i + 1) ∈ cbsIssues correlationMode i x
    <-> Num.isFinite w = true /\ Num.gtb (Num.ofZ 50) w = true) /\
   (Num.isFinite w = true -> Num.gtb (Num.ofZ 50) w = true ->
    List.filter isOrderingIssue (cbsIssues correlationMode i x)
      = [CbsBestLeMostLikely (i + 1); CbsMostLikelyLeWorst (i + 1)]) /\
   (Num.isFinite w = false \/ Num.gtb (Num.ofZ 50) w = false ->
    List.filter isOrderingIssue (cbsIssues correlationMode i x)
      = [CbsBestLeMostLikely (i + 1)])).
Proof.
  intros Hud b m w.
  pose proof (cbsIssues_ordering correlationMode i x) as Hord.
  rewrite Hud, String.eqb_refl in Hord.
  assert (forall issue, isOrderingIssue issue = true ->
            (issue ∈ cbsIssues correlationMode i x
             <-> issue ∈ cbsOrderIssues (i + 1) x)) as Hmem.
  { intros issue Ho. rewrite <- Hord, !list_elem_of_In, filter_In. tauto. }
  split; [exact Hord|]. intros Hb Hm.
  assert (cbsOrderIssues (i + 1) x
          = CbsBestLeMostLikely (i + 1)
            :: pushIf (Num.isFinite w && Num.gtb (Num.ofZ 50) w)
                 (CbsMostLikelyLeWorst (i + 1))) as Hlist.
  { unfold cbsOrderIssues. fold b m w. rewrite Hb, Hm. reflexivity. }
  assert (CbsBestLeMostLikely (i + 1) ∈ cbsIssues correlationMode i x) as Hbest.
  { apply Hmem; [done|]. rewrite Hlist. apply list_elem_of_here. }
  split_and!.
  - exact Hbest.
  - reflexivity.
  - intros iterations cbsItems risks Hi. unfold validationIssues.
    apply list_elem_of_fmap_2. by eapply cbsIssues_in_validate.
  - intros issue Hin Ho. apply Hmem in Hin; [|done]. rewrite Hlist in Hin.
    apply elem_of_cons in Hin as [->|Hin]; [by left|].
    unfold pushIf in Hin. destruct (_ && _); [|by apply elem_of_nil in Hin].
    apply list_elem_of_singleton in Hin. by right.
  - rewrite Hmem by done. rewrite Hlist, elem_of_cons.
    unfold pushIf. destruct (Num.isFinite w), (Num.gtb (Num.ofZ 50) w); simpl;
      rewrite ?list_elem_of_singleton, ?elem_of_nil; split; intros H;
      try (destruct H as [H|H]); try done; try (destruct H; done); auto.
  - intros Hf Hw. by rewrite Hord, Hlist, Hf, Hw.
  - intros Hw. rewrite Hord, Hlist. unfold pushIf.
    destruct Hw as [-> | ->]; by rewrite ?andb_false_r.
Qed.

Lemma user_defined_order_checks_witness :
  List.filter isOrderingIssue (cbsIssues "none" 0 lowWorstItem)
    = [CbsBestLeMostLikely 1; CbsMostLikelyLeWorst 1] /\
  List.filter isOrderingIssue (cbsIssues "none" 0 misorderedItem)
    = [CbsBestLeMostLikely 1] /\
  "CBS row 1: Best case must be ≤ Most likely."
    ∈ validationIssues (VNum (Num.ofZ 5000)) [lowWorstItem] [] "none".
Proof.
  destruct (user_defined_order_checks "none" 0 lowWorstItem) as [_ H2];
    [vm_compute; reflexivity|].
  destruct (user_defined_order_checks "none" 0 misorderedItem) as [_ H3];
    [vm_compute; reflexivity|].
  destruct H2 as (_ & _ & H & _ & _ & Hboth & _); [reflexivity..|].
  destruct H3 as (_ & _ & _ & _ & _ & _ & Hone); [reflexivity..|].
  split_and!.
  - apply Hboth; reflexivity.
  - apply Hone. right. reflexivity.
  - apply (H (VNum (Num.ofZ 5000)) [lowWorstItem] []). reflexivity.
Defined.

(** ** Risk import: missing headers *)

Lemma append_assoc (a b c : string) : (a +:+ b) +:+ c = a +:+ (b +:+ c).
Proof.
  induction a as [|ch a IH]; [done|].
  change (String ch ((a +:+ b) +:+ c) = String ch (a +:+ (b +:+ c))).
  by rewrite IH.
Qed.

Lemma append_nil_r (a : string) : a +:+ "" = a.
Proof.
  induction a as [|ch a IH]; [done|].
  change (String ch (a +:+ "") = String ch a). by rewrite IH.
Qed.

Lemma join_mentions (sep label : string) (parts : list string) :
  label ∈ parts -> exists pre post, Str.join sep parts = pre +:+ label +:+ post.
Proof.
  induction parts as [|p rest IH]; intros Hin; [by apply elem_of_nil in Hin|].
  apply elem_of_cons in Hin as [->|Hin].
  - destruct rest as [|q rest].
    + exists "", "". by rewrite append_nil_r.
    + exists "", (sep +:+ Str.join sep (q :: rest)). reflexivity.
  - destruct (IH Hin) as (pre & post & Heq). destruct rest as [|q rest].
    + by apply elem_of_nil in Hin.
    + exists (p +:+ sep +:+ pre), post.
      change (Str.join sep (p :: q :: rest)) with (p +:+ sep +:+ Str.join sep (q :: rest)).
      rewrite Heq. by rewrite !append_assoc.
Qed.

Lemma missingHeaders_spec (c : RiskColumns) (label : string) :
  label ∈ missingHeaders c <->
  (rc_name c = None /\ label = "name (or risk)") \/
  (rc_p c = None /\ label = "probability (or p)") \/
  (rc_low c = None /\ label = "lowCost (or low)") \/
  (rc_ml c = None /\ label = "mostLikelyCost (or mostLikely/mode)") \/
  (rc_high c = None /\ label = "highCost (or high)").
Proof.
  unfold missingHeaders.
  rewrite !elem_of_app.
  destruct (rc_name c), (rc_p c), (rc_low c), (rc_ml c), (rc_high c);
    cbn [unresolved]; rewrite ?list_elem_of_singleton, ?elem_of_nil;
    intuition congruence.
Qed.

(** C7. When the header row of a risk file leaves at least one of the five
    mandatory columns unresolved, the parser returns no risk at all and
    exactly one warning, whose text lists the label of every unresolved
    column and of no other; a header that lacks only the probability column
    gives no risk and the one warning Missing required headers: probability
    (or p). *)
Theorem parseRisksCsv_missing_headers
    (csvText first : string) (data : list string) (show : number -> string) :
  normaliseLines csvText = first :: data ->
  let c := riskColumns (Str.toLowerCase <$> splitRow first) in
  rc_name c = None \/ rc_p c = None \/ rc_low c = None \/ rc_ml c = None
    \/ rc_high c = None ->
  parseRisksCsv csvText = ([], [WMissingHeaders (missingHeaders c)]) /\
  warningText show <$> snd (parseRisksCsv csvText)
    = ["Missing required headers: " +:+ Str.join ", " (missingHeaders c)] /\
  (rc_name c = None <-> "name (or risk)" ∈ missingHeaders c) /\
  (rc_p c = None <-> "probability (or p)" ∈ missingHeaders c) /\
  (rc_low c = None <-> "lowCost (or low)" ∈ missingHeaders c) /\
  (rc_ml c = None <-> "mostLikelyCost (or mostLikely/mode)" ∈ missingHeaders c) /\
  (rc_high c = None <-> "highCost (or high)" ∈ missingHeaders c) /\
  (forall label, label ∈ missingHeaders c ->
     exists pre post,
       Str.join ", " (missingHeaders c) = pre +:+ label +:+ post) /\
  (rc_p c = None -> is_Some (rc_name c) -> is_Some (rc_low c) ->
   is_Some (rc_ml c) -> is_Some (rc_high c) ->
   warningText show <$> snd (parseRisksCsv csvText)
     = ["Missing required headers: probability (or p)"]).
Proof.
  intros Hlines c Hmiss.
  assert (parseRisksCsv csvText = ([], [WMissingHeaders (missingHeaders c)])) as Hparse.
  { unfold parseRisksCsv. rewrite Hlines. fold c.
    destruct (rc_name c), (rc_p c), (rc_low c), (rc_ml c), (rc_high c);
      try reflexivity.
    destruct Hmiss as [H|[H|[H|[H|H]]]]; discriminate H. }
  rewrite Hparse. cbn [snd fmap list_fmap warningText].
  split_and!; try done.
  - rewrite missingHeaders_spec. intuition congruence.
  - rewrite missingHeaders_spec. intuition congruence.
  - rewrite missingHeaders_spec. intuition congruence.
  - rewrite missingHeaders_spec. intuition congruence.
  - rewrite missingHeaders_spec. intuition congruence.
  - intros label. apply join_mentions.
  - intros Hp [? Hn] [? Hl] [? Hm] [? Hh]. unfold missingHeaders.
    by rewrite Hp, Hn, Hl, Hm, Hh.
Qed.

Lemma parseRisksCsv_missing_headers_witness :
  parseRisksCsv noProbabilityCsv = ([], [WMissingHeaders ["probability (or p)"]]) /\
  warningText (fun _ => "") <$> snd (parseRisksCsv noProbabilityCsv)
    = ["Missing required headers: probability (or p)"].
Proof.
  destruct (parseRisksCsv_missing_headers noProbabilityCsv
              "Risk,Type,Low,Mode,High" ["Weather,contingent,10,20,40"]
              (fun _ => "")) as (H1 & H2 & _).
  - vm_compute. reflexivity.
  - right; left. vm_compute. reflexivity.
  - split; [exact H1 | exact H2].
Defined.

(** ** Inherent risks carry no cost *)

Lemma wbind_inv {A B : Type} (m : Warn A) (k : A -> Warn B) (b : B) w :
  m ≫= k = (b, w) ->
  exists a w1 w2, m = (a, w1) /\ k a = (b, w2) /\ w = w1 ++ w2.
Proof.
  unfold mbind, Warn_bind. destruct m as [a w1]. destruct (k a) as [b' w2] eqn:E.
  intros [= -> <-]. by exists a, w1, w2.
Qed.

Lemma wbind_fst {A B : Type} (m : Warn A) (k : A -> Warn B) :
  fst (m ≫= k) = fst (k (fst m)).
Proof.
  unfold mbind, Warn_bind. destruct m as [a w1]. cbn [fst]. by destruct (k a).
Qed.

(** A parsed row that is inherent has three zero costs. *)
Lemma riskRow_inherent_zero nameIdx pIdx lowIdx mlIdx highIdx typeIdx rowNum cells r w :
  riskRow nameIdx pIdx lowIdx mlIdx highIdx typeIdx rowNum cells = (Some r, w) ->
  pr_riskType r = "inherent" ->
  pr_lowCost r = Num.zero /\ pr_mostLikelyCost r = Num.zero /\ pr_highCost r = Num.zero.
Proof.
  unfold riskRow. destruct (String.eqb _ "").
  { intros H%(f_equal fst). rewrite wbind_fst in H. discriminate H. }
  intros H.
  apply wbind_inv in H as (riskType & ? & ? & _ & H & _).
  apply wbind_inv in H as (p1 & ? & ? & _ & H & _).
  apply wbind_inv in H as (p2 & ? & ? & _ & H & _).
  apply wbind_inv in H as (lo & ? & ? & _ & H & _).
  apply wbind_inv in H as (ml & ? & ? & _ & H & _).
  apply wbind_inv in H as (hi & ? & ? & _ & H & _).
  destruct (String.eqb riskType "inherent") eqn:E.
  - injection H as <- _. done.
  - apply wbind_inv in H as (? & ? & ? & _ & H & _).
    injection H as <- _. cbn [pr_riskType]. intros ->. done.
Qed.

(** A row whose type cell reads inherent, in any case and with any cost
    cells, is parsed, as inherent. *)
Lemma riskRow_inherent nameIdx pIdx lowIdx mlIdx highIdx t rowNum cells :
  Str.trim (Str.cellAt cells nameIdx) <> "" ->
  Str.toLowerCase (Str.trim (Str.cellAt cells t)) = "inherent" ->
  exists p w,
    riskRow nameIdx pIdx lowIdx mlIdx highIdx (Some t) rowNum cells
    = (Some (mkParsedRisk (Str.trim (Str.cellAt cells nameIdx)) "inherent" p
               Num.zero Num.zero Num.zero), w).
Proof.
  intros Hname Hraw.
  destruct (riskRow nameIdx pIdx lowIdx mlIdx highIdx (Some t) rowNum cells)
    as [o w] eqn:E.
  apply (f_equal fst) in E. cbn [fst] in E. unfold riskRow in E.
  apply String.eqb_neq in Hname. rewrite Hname, Hraw in E.
  change (String.eqb "inherent" "inherent") with true in E. cbn [orb] in E.
  rewrite !wbind_fst in E. cbn [mret Warn_ret fst] in E.
  change (String.eqb "inherent" "inherent") with true in E.
  cbn [mret Warn_ret fst] in E. subst o. eauto.
Qed.

Lemma riskLoop_elem row rowNum lines r :
  r ∈ fst (riskLoop row rowNum lines) ->
  exists n cells w, row n cells = (Some r, w).
Proof.
  revert rowNum. induction lines as [|line rest IH]; intros rowNum; cbn [riskLoop].
  - intros H. by apply elem_of_nil in H.
  - unfold mbind, Warn_bind.
    destruct (row rowNum (splitRow line)) as [o w1] eqn:E.
    destruct (riskLoop row (S rowNum) rest) as [parsed w2] eqn:E2.
    cbn [mret Warn_ret fst]. specialize (IH (S rowNum)). rewrite E2 in IH.
    destruct o as [x|]; [|exact IH].
    intros [->|H]%elem_of_cons; [eauto | by apply IH].
Qed.

Lemma parseRisksCsv_elem csvText r :
  r ∈ fst (parseRisksCsv csvText) ->
  exists nameIdx pIdx lowIdx mlIdx highIdx typeIdx n cells w,
    riskRow nameIdx pIdx lowIdx mlIdx highIdx typeIdx n cells = (Some r, w).
Proof.
  unfold parseRisksCsv. destruct (normaliseLines csvText) as [|first data].
  { intros H. by apply elem_of_nil in H. }
  cbn zeta. set (c := riskColumns _).
  destruct (rc_name c) as [a|], (rc_p c) as [b|], (rc_low c) as [l|],
    (rc_ml c) as [d|], (rc_high c) as [e|];
    try (intros H; by apply elem_of_nil in H).
  intros (n & cells & w & H)%riskLoop_elem. eauto 10.
Qed.

Lemma parseRisksCsv_inherent_zero csvText r :
  r ∈ fst (parseRisksCsv csvText) -> pr_riskType r = "inherent" ->
  pr_lowCost r = Num.zero /\ pr_mostLikelyCost r = Num.zero
  /\ pr_highCost r = Num.zero.
Proof.
  intros Hin Hty.
  apply parseRisksCsv_elem in Hin as (? & ? & ? & ? & ? & ? & ? & ? & ? & H).
  by eapply riskRow_inherent_zero.
Qed.

Lemma importedRisks_inherent_zero csvText x :
  x ∈ importedRisks csvText -> Risk.riskType x = "inherent" ->
  Risk.lowCost x = VNum Num.zero /\ Risk.mostLikelyCost x = VNum Num.zero
  /\ Risk.highCost x = VNum Num.zero.
Proof.
  intros Hin Hty. unfold importedRisks in Hin.
  apply elem_of_lookup_imap_1 in Hin as (i & r & -> & Hr).
  apply list_elem_of_lookup_2 in Hr.
  cbn [riskOfParsed Risk.riskType Risk.lowCost Risk.mostLikelyCost Risk.highCost] in *.
  assert (pr_riskType r = "inherent") as Hp.
  { destruct (String.eqb (pr_riskType r) ""); [discriminate Hty | exact Hty]. }
  destruct (parseRisksCsv_inherent_zero _ _ Hr Hp) as (-> & -> & ->).
  done.
Qed.

Lemma updateRiskRow_to_inherent id patch (prev : list Risk.item) i x t :
  prev !! i = Some x -> Risk.id x = id ->
  Risk.p_riskType patch = Some t -> Str.toLowerCase t = "inherent" ->
  exists y,
    updateRiskRow id patch prev !! i = Some y /\
    Risk.riskType y = t /\
    Risk.lowCost y = VNum Num.zero /\ Risk.mostLikelyCost y = VNum Num.zero
    /\ Risk.highCost y = VNum Num.zero.
Proof.
  intros Hi Hid Hp Ht. unfold updateRiskRow.
  rewrite list_lookup_fmap, Hi. cbn [fmap option_fmap option_map].
  rewrite Hid, String.eqb_refl, Hp, Ht, String.eqb_refl. cbn [negb].
  eexists. split; [reflexivity|]. cbn. unfold Risk.spread; cbn. by rewrite Hp.
Qed.

(** The type a parsed row carries is one of the two known ones. *)
Lemma riskRow_riskType nameIdx pIdx lowIdx mlIdx highIdx typeIdx rowNum cells r w :
  riskRow nameIdx pIdx lowIdx mlIdx highIdx typeIdx rowNum cells = (Some r, w) ->
  pr_riskType r = "inherent" \/ pr_riskType r = "contingent".
Proof.
  unfold riskRow. destruct (String.eqb _ "").
  { intros H%(f_equal fst). rewrite wbind_fst in H. discriminate H. }
  intros H.
  apply wbind_inv in H as (riskType & ? & ? & Hty & H & _).
  assert (riskType = "inherent" \/ riskType = "contingent") as Hcases.
  { destruct typeIdx as [t|]; [|injection Hty as <- _; by right].
    destruct (String.eqb _ "inherent") eqn:E1.
    { apply String.eqb_eq in E1. injection Hty as <- _. by left. }
    destruct (String.eqb _ "contingent") eqn:E2.
    { apply String.eqb_eq in E2. injection Hty as <- _. by right. }
    cbn [orb] in Hty. destruct (negb _).
    - apply (f_equal fst) in Hty. rewrite wbind_fst in Hty. cbn in Hty. by right.
    - injection Hty as <- _. by right. }
  apply wbind_inv in H as (p1 & ? & ? & _ & H & _).
  apply wbind_inv in H as (p2 & ? & ? & _ & H & _).
  apply wbind_inv in H as (lo & ? & ? & _ & H & _).
  apply wbind_inv in H as (ml & ? & ? & _ & H & _).
  apply wbind_inv in H as (hi & ? & ? & _ & H & _).
  destruct (String.eqb riskType "inherent").
  - injection H as <- _. done.
  - apply wbind_inv in H as (? & ? & ? & _ & H & _). injection H as <- _. done.
Qed.

Lemma importedRisks_inherent csvText x :
  x ∈ importedRisks csvText -> isInherent x = true -> zeroCosts x.
Proof.
  intros Hin Hinh. apply (importedRisks_inherent_zero csvText x Hin).
  unfold importedRisks in Hin.
  apply elem_of_lookup_imap_1 in Hin as (i & r & -> & Hr).
  apply list_elem_of_lookup_2, parseRisksCsv_elem in Hr
    as (? & ? & ? & ? & ? & ? & ? & ? & ? & H).
  unfold isInherent in Hinh. cbn [riskOfParsed Risk.riskType] in *.
  destruct (riskRow_riskType _ _ _ _ _ _ _ _ _ _ H) as [Hty | Hty];
    rewrite Hty in *; [done|].
  vm_compute in Hinh. discriminate Hinh.
Qed.

Lemma updateRiskRow_inherent id patch (prev : list Risk.item) :
  (namesCost patch = true ->
   Risk.p_riskType patch = None /\
   Forall (fun r => Risk.id r = id -> isInherent r = false) prev) ->
  Forall (fun r => isInherent r = true -> zeroCosts r) prev ->
  Forall (fun r => isInherent r = true -> zeroCosts r) (updateRiskRow id patch prev).
Proof.
  intros Hen Hinv. unfold updateRiskRow. apply Forall_fmap.
  rewrite Forall_forall in Hinv. apply Forall_forall. intros x Hx. cbn.
  destruct (String.eqb (Risk.id x) id) eqn:Eid; cbn [negb]; [|by apply Hinv].
  apply String.eqb_eq in Eid.
  destruct (Risk.p_riskType patch) as [t|] eqn:Et.
  - destruct (String.eqb (Str.toLowerCase t) "inherent") eqn:E; [done|].
    unfold isInherent, Risk.spread; cbn. rewrite Et; cbn.
    destruct (String.eqb t ""); [discriminate|]. by rewrite E.
  - destruct (namesCost patch) eqn:Ecost.
    + destruct Hen as [_ Hrows]; [done|]. rewrite Forall_forall in Hrows.
      specialize (Hrows x Hx Eid).
      unfold isInherent, Risk.spread in *; cbn. rewrite Et; cbn. by rewrite Hrows.
    + unfold namesCost in Ecost.
      apply orb_false_iff in Ecost as [Ecost Eh].
      apply orb_false_iff in Ecost as [El Em].
      apply bool_decide_eq_false in El, Em, Eh.
      destruct (Risk.p_lowCost patch) eqn:Hl; [destruct El; eauto|].
      destruct (Risk.p_mostLikelyCost patch) eqn:Hm; [destruct Em; eauto|].
      destruct (Risk.p_highCost patch) eqn:Hh; [destruct Eh; eauto|].
      intros Hinh.
      assert (isInherent x = true) as Hx'.
      { unfold isInherent, Risk.spread in *; cbn in Hinh. by rewrite Et in Hinh. }
      destruct (Hinv x Hx Hx') as (? & ? & ?).
      unfold zeroCosts, Risk.spread; cbn. by rewrite Hl, Hm, Hh.
Qed.

(** With the cost inputs of inherent rows disabled, no event brings an
    inherent risk with a cost other than zero into the state. *)
Lemma inherentCostsZero_step (s : State) (e : Event) :
  inherentCostsZero s -> enabled s e -> inherentCostsZero (step s e).
Proof.
  unfold inherentCostsZero. intros Hinv Hen. destruct e; try exact Hinv.
  - (* the factors are loaded *)
    cbn [step]. unfold revalidateFactors.
    by destruct (fallbackFactor _).
  - (* a risk is added *)
    cbn. apply Forall_app. split; [exact Hinv|]. by repeat constructor.
  - (* a risk is deleted *)
    cbn. apply Forall_forall. intros x Hx%list_elem_of_In%filter_In.
    rewrite Forall_forall in Hinv. apply Hinv, list_elem_of_In, Hx.
  - (* a risk is edited *)
    cbn. by apply updateRiskRow_inherent.
  - (* a CBS file is imported *)
    cbn [step]. by destruct (importedCbsItems _ _).
  - (* a risk file is imported *)
    cbn [step]. destruct (importedRisks text) as [|x0 l] eqn:E; [exact Hinv|].
    cbn. rewrite <- E. apply Forall_forall. intros x Hx.
    by apply (importedRisks_inherent text).
Qed.

Lemma inherentCostsZero_run (events : list Event) (s : State) :
  inherentCostsZero s -> allEnabled s events -> inherentCostsZero (run s events).
Proof.
  revert s. induction events as [|e rest IH]; intros s Hinv Hen; [exact Hinv|].
  destruct Hen as [He Hrest]. cbn. apply IH; [by apply inherentCostsZero_step | done].
Qed.

Lemma inherentCostsZero_initial : inherentCostsZero initialState.
Proof. unfold inherentCostsZero. cbn. by repeat constructor. Qed.

(** C8. Inherent risks have zero costs: every risk the CSV parser returns
    as inherent has three zero costs, whatever the cost cells of its row
    hold, and a row whose type cell reads inherent is parsed as such; the
    same holds of the risks an import installs; an edit that sets the type
    of an existing risk to inherent leaves that risk with three zero costs;
    and so, the cost inputs of inherent rows being disabled, every inherent
    risk of every state the session reaches has three zero costs. *)
Theorem inherent_risk_costs_zero :
  (forall csvText r,
     r ∈ fst (parseRisksCsv csvText) -> pr_riskType r = "inherent" ->
     pr_lowCost r = Num.zero /\ pr_mostLikelyCost r = Num.zero
     /\ pr_highCost r = Num.zero) /\
  (forall nameIdx pIdx lowIdx mlIdx highIdx t rowNum cells,
     Str.trim (Str.cellAt cells nameIdx) <> "" ->
     Str.toLowerCase (Str.trim (Str.cellAt cells t)) = "inherent" ->
     exists p w,
       riskRow nameIdx pIdx lowIdx mlIdx highIdx (Some t) rowNum cells
       = (Some (mkParsedRisk (Str.trim (Str.cellAt cells nameIdx)) "inherent" p
                  Num.zero Num.zero Num.zero), w)) /\
  (forall csvText x,
     x ∈ importedRisks csvText -> Risk.riskType x = "inherent" ->
     Risk.lowCost x = VNum Num.zero /\ Risk.mostLikelyCost x = VNum Num.zero
     /\ Risk.highCost x = VNum Num.zero) /\
  (forall id patch prev i x t,
     prev !! i = Some x -> Risk.id x = id ->
     Risk.p_riskType patch = Some t -> Str.toLowerCase t = "inherent" ->
     exists y,
       updateRiskRow id patch prev !! i = Some y /\
       Risk.riskType y = t /\
       Risk.lowCost y = VNum Num.zero /\ Risk.mostLikelyCost y = VNum Num.zero
       /\ Risk.highCost y = VNum Num.zero) /\
  (forall events,
     allEnabled initialState events ->
     inherentCostsZero (run initialState events)).
Proof.
  split_and!.
  - apply parseRisksCsv_inherent_zero.
  - apply riskRow_inherent.
  - apply importedRisks_inherent_zero.
  - apply updateRiskRow_to_inherent.
  - intros events. apply inherentCostsZero_run, inherentCostsZero_initial.
Qed.

Lemma inherent_risk_costs_zero_witness :
  (forall x, x ∈ importedRisks inherentCsv ->
     Risk.riskType x = "inherent" -> Risk.lowCost x = VNum Num.zero) /\
  importedRisks inherentCsv
    = [Risk.mk "r01" "Ground conditions" "inherent" (VNum (Num.dec 4 1))
         (VNum Num.zero) (VNum Num.zero) (VNum Num.zero)] /\
  (exists y,
     updateRiskRow "r01" (Risk.mkPatch None None (Some "inherent") None None None None)
       [weatherRisk] !! 0 = Some y /\
     Risk.lowCost y = VNum Num.zero /\ Risk.mostLikelyCost y = VNum Num.zero
     /\ Risk.highCost y = VNum Num.zero) /\
  inherentCostsZero (run initialState inherentTrace).
Proof.
  destruct inherent_risk_costs_zero as (_ & _ & Himp & Hupd & Hinv).
  split_and!.
  - intros x Hin Hty. by destruct (Himp inherentCsv x Hin Hty).
  - vm_compute. reflexivity.
  - destruct (Hupd "r01" (Risk.mkPatch None None (Some "inherent") None None None None)
                [weatherRisk] 0 weatherRisk "inherent")
      as (y & Hy & _ & Hcosts); [reflexivity..|].
    exists y. split; [exact Hy | exact Hcosts].
  - apply Hinv. cbn [allEnabled inherentTrace]. split_and!; try done.
    intros _. split; [reflexivity|].
    repeat constructor; cbn; intros Hid; (reflexivity || discriminate Hid).
Defined.

(** ** Switching the cost mode of a CBS item *)

(** A patch leaves the fields it does not name as they were. *)
Lemma spread_frame (x : Cbs.item) (p : Cbs.patch) :
  (Cbs.p_id p = None -> Cbs.id (Cbs.spread x p) = Cbs.id x) /\
  (Cbs.p_name p = None -> Cbs.name (Cbs.spread x p) = Cbs.name x) /\
  (Cbs.p_baseCost p = None -> Cbs.baseCost (Cbs.spread x p) = Cbs.baseCost x) /\
  (Cbs.p_bestCaseCost p = None ->
   Cbs.bestCaseCost (Cbs.spread x p) = Cbs.bestCaseCost x) /\
  (Cbs.p_mostLikelyCost p = None ->
   Cbs.mostLikelyCost (Cbs.spread x p) = Cbs.mostLikelyCost x) /\
  (Cbs.p_worstCaseCost p = None ->
   Cbs.worstCaseCost (Cbs.spread x p) = Cbs.worstCaseCost x) /\
  (Cbs.p_driverGroup p = None ->
   Cbs.driverGroup (Cbs.spread x p) = Cbs.driverGroup x) /\
  (Cbs.p_sensitivity p = None ->
   Cbs.sensitivity (Cbs.spread x p) = Cbs.sensitivity x).
Proof. unfold Cbs.spread; cbn. split_and!; by intros ->. Qed.

(** C9. An update of a CBS item whose patch names a confidence factor:
    if the new factor is not the user-defined one, the item ends with its
    three manual costs [null]; if it is, the item is the old one with the
    patch laid over it, so its base cost and every other field the patch
    does not name are unchanged.  Items with another identifier are not
    touched. *)
Theorem updateCbsRow_mode_switch
    (id : string) (patch : Cbs.patch) (prev : list Cbs.item)
    (i : nat) (x : Cbs.item) (cf : string) :
  prev !! i = Some x -> Cbs.id x = id ->
  Cbs.p_confidenceFactor patch = Some cf ->
  (isUserDefinedFactor cf = false ->
   exists y, updateCbsRow id patch prev !! i = Some y /\
             Cbs.confidenceFactor y = cf /\
             Cbs.bestCaseCost y = VNull /\ Cbs.mostLikelyCost y = VNull /\
             Cbs.worstCaseCost y = VNull) /\
  (isUserDefinedFactor cf = true ->
   exists y, updateCbsRow id patch prev !! i = Some y /\
             y = Cbs.spread x patch /\
             Cbs.confidenceFactor y = cf /\
             (Cbs.p_baseCost patch = None -> Cbs.baseCost y = Cbs.baseCost x) /\
             (Cbs.p_id patch = None -> Cbs.id y = Cbs.id x) /\
             (Cbs.p_name patch = None -> Cbs.name y = Cbs.name x) /\
             (Cbs.p_bestCaseCost patch = None ->
              Cbs.bestCaseCost y = Cbs.bestCaseCost x) /\
             (Cbs.p_mostLikelyCost patch = None ->
              Cbs.mostLikelyCost y = Cbs.mostLikelyCost x) /\
             (Cbs.p_worstCaseCost patch = None ->
              Cbs.worstCaseCost y = Cbs.worstCaseCost x) /\
             (Cbs.p_driverGroup patch = None ->
              Cbs.driverGroup y = Cbs.driverGroup x) /\
             (Cbs.p_sensitivity patch = None ->
              Cbs.sensitivity y = Cbs.sensitivity x)) /\
  (forall j z, prev !! j = Some z -> Cbs.id z <> id ->
               updateCbsRow id patch prev !! j = Some z).
Proof.
  intros Hi Hid Hcf.
  assert (Cbs.confidenceFactor (Cbs.spread x patch) = cf) as Hnew
    by (unfold Cbs.spread; cbn; by rewrite Hcf).
  assert (updateCbsRow id patch prev !! i
          = Some (if negb (isUserDefinedFactor cf)
                  then Cbs.mk (Cbs.id (Cbs.spread x patch)) (Cbs.name (Cbs.spread x patch))
                         (Cbs.baseCost (Cbs.spread x patch)) cf VNull VNull VNull
                         (Cbs.driverGroup (Cbs.spread x patch))
                         (Cbs.sensitivity (Cbs.spread x patch))
                  else Cbs.spread x patch)) as Hlook.
  { unfold updateCbsRow. rewrite list_lookup_fmap, Hi. cbn [fmap option_fmap option_map].
    rewrite Hid, String.eqb_refl. cbn [negb]. rewrite Hcf, Hnew.
    rewrite bool_decide_eq_true_2 by eauto. done. }
  split_and!.
  - intros Hud. rewrite Hud in Hlook. eexists. split; [exact Hlook|]. done.
  - intros Hud. rewrite Hud in Hlook. eexists. split; [exact Hlook|].
    destruct (spread_frame x patch) as (? & ? & ? & ? & ? & ? & ? & ?).
    split_and!; done.
  - intros j z Hj Hne. unfold updateCbsRow.
    rewrite list_lookup_fmap, Hj. cbn [fmap option_fmap option_map].
    apply String.eqb_neq in Hne. by rewrite Hne.
Qed.

Lemma updateCbsRow_mode_switch_witness :
  updateCbsRow "cbs02" (factorPatch "Realistic") [sampleItem; manualItem]
    = [sampleItem;
       Cbs.mk "cbs02" "BUILD" (VStr "500") "Realistic" VNull VNull VNull "" "medium"] /\
  exists y,
    updateCbsRow "cbs01" (factorPatch "User defined") [sampleItem; manualItem] !! 0
      = Some y /\
    Cbs.baseCost y = Cbs.baseCost sampleItem.
Proof.
  split; [vm_compute; reflexivity|].
  destruct (updateCbsRow_mode_switch "cbs01" (factorPatch "User defined")
              [sampleItem; manualItem] 0 sampleItem "User defined")
    as (_ & Hto & _); [reflexivity..|].
  destruct Hto as (y & Hy & _ & _ & Hbase & _); [reflexivity|].
  exists y. split; [exact Hy | by apply Hbase].
Defined.

(** ** CBS import: user-defined rows *)

Lemma toNumOrNull_finite v n : toNumOrNull v = Some n -> Num.isFinite n = true.
Proof.
  unfold toNumOrNull. destruct (String.eqb _ ""); [done|].
  destruct (Num.isFinite (NumParse.StringToNumber (Str.trim v))) eqn:E; [|done].
  by intros [= <-].
Qed.


(** Every record the loop pushes comes from one of its lines. *)
Lemma cbsLoop_elem nameIdx mk lines seen r :
  r ∈ cbsLoop nameIdx mk lines seen ->
  exists line, line ∈ lines /\
    r = mk (Str.trim (Str.cellAt (splitRow line) nameIdx)) (splitRow line).
Proof.
  revert seen. induction lines as [|line rest IH]; intros seen; cbn [cbsLoop].
  - intros H. by apply elem_of_nil in H.
  - assert (forall s, r ∈ cbsLoop nameIdx mk rest s ->
              exists l, l ∈ line :: rest /\
                r = mk (Str.trim (Str.cellAt (splitRow l) nameIdx)) (splitRow l)) as Hrest.
    { intros s (l & Hl & ->)%IH. exists l. split; [by apply elem_of_cons; right | done]. }
    destruct (String.eqb _ ""); [apply Hrest|].
    destruct (decide _); [apply Hrest|].
    intros [->|H]%elem_of_cons; [|by eapply Hrest].
    exists line. split; [apply list_elem_of_here | done].
Qed.

(** The first line that bears a name is the one the loop takes. *)
Lemma cbsLoop_first nameIdx mk (before : list string) (line : string)
    (after : list string) (seen : gset string) :
  Str.trim (Str.cellAt (splitRow line) nameIdx) <> "" ->
  (Str.toLowerCase (Str.trim (Str.cellAt (splitRow line) nameIdx)) ∉ seen) ->
  (forall l, l ∈ before ->
     Str.toLowerCase (Str.trim (Str.cellAt (splitRow l) nameIdx))
     <> Str.toLowerCase (Str.trim (Str.cellAt (splitRow line) nameIdx))) ->
  mk (Str.trim (Str.cellAt (splitRow line) nameIdx)) (splitRow line)
  ∈ cbsLoop nameIdx mk (before ++ line :: after) seen.
Proof.
  intros Hname. revert seen. induction before as [|l before IH]; intros seen Hseen Hfirst.
  - cbn [app cbsLoop]. apply String.eqb_neq in Hname. rewrite Hname.
    destruct (decide _); [done|]. apply list_elem_of_here.
  - cbn [app cbsLoop].
    assert (forall l', l' ∈ before ->
              Str.toLowerCase (Str.trim (Str.cellAt (splitRow l') nameIdx))
              <> Str.toLowerCase (Str.trim (Str.cellAt (splitRow line) nameIdx))) as Hrest.
    { intros l' Hl'. apply Hfirst. by apply elem_of_cons; right. }
    destruct (String.eqb _ ""); [by apply IH|].
    destruct (decide _); [by apply IH|].
    apply elem_of_cons; right. apply IH; [|done].
    intros [E%elem_of_singleton|E]%elem_of_union; [|done].
    eapply Hfirst; [apply list_elem_of_here | done].
Qed.






(** ** Strings *)

Module StrFacts.

Lemma rev_app_acc (s acc : string) :
  String.rev_app s acc = String.rev_app s "" +:+ acc.
Proof.
  revert acc. induction s as [|c s IH]; intros acc; [done|].
  cbn [String.rev_app]. rewrite (IH (String c acc)), (IH (String c "")).
  by rewrite append_assoc.
Qed.

Lemma rev_cons (c : ascii) (s : string) :
  String.rev (String c s) = String.rev s +:+ String c "".
Proof. unfold String.rev. cbn [String.rev_app]. apply rev_app_acc. Qed.

Lemma rev_snoc (c : ascii) (s : string) :
  String.rev (s +:+ String c "") = String c (String.rev s).
Proof.
  induction s as [|d s IH]; [done|].
  change (String d s +:+ String c "") with (String d (s +:+ String c "")).
  by rewrite !rev_cons, IH.
Qed.

Lemma rev_involutive (s : string) : String.rev (String.rev s) = s.
Proof.
  induction s as [|c s IH]; [done|]. by rewrite rev_cons, rev_snoc, IH.
Qed.

Lemma trimStart_cases (s : string) :
  Str.trimStart s = "" \/
  exists c r, Str.trimStart s = String c r /\ Ascii.is_space c = false.
Proof.
  induction s as [|c s IH]; [by left|]. cbn [Str.trimStart].
  destruct (Ascii.is_space c) eqn:E; [exact IH|]. right. eauto.
Qed.

Lemma trimStart_idem (s : string) :
  Str.trimStart (Str.trimStart s) = Str.trimStart s.
Proof.
  destruct (trimStart_cases s) as [->|(c & r & -> & Hc)]; [done|].
  cbn [Str.trimStart]. by rewrite Hc.
Qed.

Lemma trimStart_snoc (s : string) (c : ascii) :
  Ascii.is_space c = false ->
  Str.trimStart (s +:+ String c "") = Str.trimStart s +:+ String c "".
Proof.
  intros Hc. induction s as [|d s IH].
  - change (Str.trimStart (String c "") = String c "").
    cbn [Str.trimStart]. by rewrite Hc.
  - change (String d s +:+ String c "") with (String d (s +:+ String c "")).
    cbn [Str.trimStart]. by destruct (Ascii.is_space d).
Qed.

(** What [trim] returns has no white space at either end. *)
Lemma trim_ends (s : string) :
  Str.trimStart (Str.trim s) = Str.trim s /\ Str.trimEnd (Str.trim s) = Str.trim s.
Proof.
  unfold Str.trim. set (t := Str.trimStart s).
  assert (Str.trimEnd (Str.trimEnd t) = Str.trimEnd t) as Hend.
  { unfold Str.trimEnd. by rewrite rev_involutive, trimStart_idem. }
  split; [|exact Hend].
  destruct (trimStart_cases s) as [E|(c & r & E & Hc)]; fold t in E; rewrite E.
  - done.
  - unfold Str.trimEnd. rewrite rev_cons, trimStart_snoc, rev_snoc by done.
    cbn [Str.trimStart]. by rewrite Hc.
Qed.

Lemma trim_idem (s : string) : Str.trim (Str.trim s) = Str.trim s.
Proof.
  destruct (trim_ends s) as [H1 H2]. unfold Str.trim at 1. by rewrite H1, H2.
Qed.

Lemma is_space_lower (c : ascii) : Ascii.is_space (Str.lower c) = Ascii.is_space c.
Proof. by destruct c as [[] [] [] [] [] [] [] []]. Qed.

Lemma lower_idem (c : ascii) : Str.lower (Str.lower c) = Str.lower c.
Proof. by destruct c as [[] [] [] [] [] [] [] []]. Qed.

Lemma toLowerCase_idem (s : string) :
  Str.toLowerCase (Str.toLowerCase s) = Str.toLowerCase s.
Proof. induction s as [|c s IH]; [done|]. cbn. by rewrite lower_idem, IH. Qed.

Lemma toLowerCase_trimStart (s : string) :
  Str.toLowerCase (Str.trimStart s) = Str.trimStart (Str.toLowerCase s).
Proof.
  induction s as [|c s IH]; [done|]. cbn [Str.trimStart Str.toLowerCase].
  rewrite is_space_lower. by destruct (Ascii.is_space c).
Qed.

Lemma toLowerCase_rev_app (s acc : string) :
  Str.toLowerCase (String.rev_app s acc)
  = String.rev_app (Str.toLowerCase s) (Str.toLowerCase acc).
Proof.
  revert acc. induction s as [|c s IH]; intros acc; [done|].
  cbn [String.rev_app Str.toLowerCase]. by rewrite IH.
Qed.

Lemma toLowerCase_trim (s : string) :
  Str.toLowerCase (Str.trim s) = Str.trim (Str.toLowerCase s).
Proof.
  unfold Str.trim, Str.trimEnd, String.rev.
  by rewrite !toLowerCase_rev_app, !toLowerCase_trimStart, !toLowerCase_rev_app,
    !toLowerCase_trimStart.
Qed.

Lemma split_go_join (sep : ascii) (cur s : string) :
  Str.split_go sep cur s <> [] /\
  Str.join (String sep "") (Str.split_go sep cur s) = String.rev cur +:+ s.
Proof.
  revert cur. induction s as [|c s IH]; intros cur.
  - cbn. by rewrite append_nil_r.
  - cbn [Str.split_go]. destruct (Ascii.eqb c sep) eqn:E.
    + apply Ascii.eqb_eq in E as ->. split; [done|].
      destruct (IH "") as [Hne Hj].
      destruct (Str.split_go sep "" s) as [|p rest] eqn:Es; [done|].
      change (Str.join (String sep "") (String.rev cur :: p :: rest))
        with (String.rev cur +:+ String sep "" +:+ Str.join (String sep "") (p :: rest)).
      by rewrite Hj.
    + destruct (IH (String c cur)) as [Hne Hj]. split; [done|].
      by rewrite Hj, rev_cons, append_assoc.
Qed.

End StrFacts.

(** ** Lines and cells *)

Lemma split_go_length (sep : ascii) (cur s : string) :
  length (Str.split_go sep cur s) = S (countChar sep s).
Proof.
  revert cur. induction s as [|c s IH]; intros cur; [done|].
  cbn [Str.split_go countChar]. destruct (Ascii.eqb c sep); cbn; by rewrite IH.
Qed.

(** X1. [splitRow] cuts a row at every comma, quoted or not: it returns
    exactly one cell more than the row has commas, hence never no cell; and
    the cut loses nothing but the commas, which put back between the raw
    pieces give the row again. *)
Theorem splitRow_one_cell_per_comma (row : string) :
  length (splitRow row) = S (countChar "," row) /\
  splitRow row <> [] /\
  Str.join "," (Str.split "," row) = row.
Proof.
  assert (length (splitRow row) = S (countChar "," row)) as Hlen.
  { unfold splitRow, Str.split. by rewrite !length_fmap, split_go_length. }
  split_and!.
  - exact Hlen.
  - intros E. by rewrite E in Hlen.
  - destruct (StrFacts.split_go_join "," "" row) as [_ H]. exact H.
Qed.

(** X2. Every line [normaliseLines] returns is non-empty and carries no
    white space at either end, so trimming it again changes nothing; a text
    of blank lines only gives no line, whatever its line endings. *)
Theorem normaliseLines_trimmed (text line : string) :
  line ∈ normaliseLines text ->
  line <> "" /\ Str.trim line = line /\
  Str.trimStart line = line /\ Str.trimEnd line = line.
Proof.
  unfold normaliseLines. intros Hin%list_elem_of_In%filter_In.
  destruct Hin as [Hin Hne]. apply list_elem_of_In, list_elem_of_fmap in Hin
    as (raw & -> & _).
  apply negb_true_iff, String.eqb_neq in Hne.
  destruct (StrFacts.trim_ends raw) as [H1 H2].
  split_and!; [done|apply StrFacts.trim_idem|done|done].
Qed.

Lemma normaliseLines_trimmed_witness :
  normaliseLines crlfText = ["name , cost"; "Design , 10"] /\
  Str.trim "name , cost" = "name , cost".
Proof.
  split; [vm_compute; reflexivity|].
  apply (normaliseLines_trimmed crlfText "name , cost").
  vm_compute. apply list_elem_of_here.
Defined.

Lemma indexOf_Some (l : list string) (x : string) (i : nat) :
  Str.indexOf l x = Some i <->
  l !! i = Some x /\ forall j, j < i -> l !! j <> Some x.
Proof.
  revert i. induction l as [|y l IH]; intros i; cbn [Str.indexOf].
  { split; [done|]. by intros [? _]. }
  destruct (String.eqb y x) eqn:E.
  - apply String.eqb_eq in E as ->. split.
    + intros [= <-]. split; [done|]. intros j Hj. lia.
    + intros [Hi Hfirst]. destruct i as [|i]; [done|].
      destruct (Hfirst 0); [lia | done].
  - apply String.eqb_neq in E. split.
    + destruct (Str.indexOf l x) as [k|] eqn:Ek; [|done]. intros [= <-].
      destruct (proj1 (IH k) eq_refl) as [Hk Hfirst]. split; [done|].
      intros [|j] Hj; cbn; [congruence|]. apply Hfirst. lia.
    + intros [Hi Hfirst]. destruct i as [|i]; [cbn in Hi; congruence|].
      assert (Str.indexOf l x = Some i) as ->; [|done].
      apply IH. split; [done|]. intros j Hj. apply (Hfirst (S j)). lia.
Qed.

Lemma indexOf_None (l : list string) (x : string) :
  Str.indexOf l x = None <-> x ∉ l.
Proof.
  induction l as [|y l IH]; cbn [Str.indexOf].
  { split; [intros _; apply not_elem_of_nil | done]. }
  rewrite not_elem_of_cons. destruct (String.eqb y x) eqn:E.
  - apply String.eqb_eq in E as ->. split; [done|]. by intros [? _].
  - apply String.eqb_neq in E.
    destruct (Str.indexOf l x) eqn:Ek; cbn.
    + split; [done|]. intros [_ H]. by apply IH in H.
    + split; [|done]. intros _. split; [congruence | by apply IH].
Qed.

(** X3. How a column is resolved: [findIdx] answers with the first
    position in the header of the first alias, in the order of the alias
    list, that occurs in the header at all (compared in lower case), and
    with [-1] exactly when no alias occurs.  The order of the aliases wins
    over the order of the header cells. *)
Theorem findIdx_first_alias (header aliases : list string) :
  (forall i, findIdx header aliases = Some i <->
     exists pre a post,
       aliases = pre ++ a :: post /\
       (forall b, b ∈ pre -> Str.toLowerCase b ∉ header) /\
       header !! i = Some (Str.toLowerCase a) /\
       (forall j, j < i -> header !! j <> Some (Str.toLowerCase a))) /\
  (findIdx header aliases = None <->
     forall a, a ∈ aliases -> Str.toLowerCase a ∉ header).
Proof.
  induction aliases as [|a rest [IHs IHn]]; cbn [findIdx].
  { split.
    - intros i. split; [done|]. intros (pre & a & post & E & _). by destruct pre.
    - split; [|done]. intros _ a Ha. by apply elem_of_nil in Ha. }
  destruct (Str.indexOf header (Str.toLowerCase a)) as [k|] eqn:Ek.
  - pose proof Ek as [Hk Hfirst]%indexOf_Some.
    assert (Str.toLowerCase a ∈ header) as Hin
      by (by eapply list_elem_of_lookup_2).
    split.
    + intros i. split.
      * intros [= <-]. exists [], a, rest. split_and!; try done.
        intros b Hb. by apply elem_of_nil in Hb.
      * intros (pre & a' & post & E & Hpre & Hi & Hfi).
        destruct pre as [|b pre]; cbn in E; injection E as <- ->.
        -- f_equal. destruct (Nat.lt_trichotomy k i) as [Hlt|[->|Hlt]];
             [by destruct (Hfi k Hlt) | done | by destruct (Hfirst i Hlt)].
        -- destruct (Hpre a); [apply list_elem_of_here | done].
    + split; [done|]. intros H. destruct (H a); [apply list_elem_of_here | done].
  - apply indexOf_None in Ek. split.
    + intros i. rewrite IHs. split.
      * intros (pre & a' & post & -> & Hpre & Hi & Hfi).
        exists (a :: pre), a', post. split_and!; try done.
        intros b [->|Hb]%elem_of_cons; [done | by apply Hpre].
      * intros (pre & a' & post & E & Hpre & Hi & Hfi).
        destruct pre as [|b pre]; cbn in E; injection E as <- ->.
        { destruct Ek. by eapply list_elem_of_lookup_2. }
        exists pre, a', post. split_and!; try done.
        intros c Hc. apply Hpre. by apply elem_of_cons; right.
    + rewrite IHn. split.
      * intros H b [->|Hb]%elem_of_cons; [done | by apply H].
      * intros H b Hb. apply H. by apply elem_of_cons; right.
Qed.

(** ** CBS import: names and identifiers *)

Lemma cbsLoop_names nameIdx mk lines seen :
  (forall n cells, csv_name (mk n cells) = n) ->
  NoDup ((fun r => Str.toLowerCase (csv_name r)) <$> cbsLoop nameIdx mk lines seen) /\
  Forall (fun r => (Str.toLowerCase (csv_name r) ∉ seen) /\ csv_name r <> ""
                   /\ Str.trim (csv_name r) = csv_name r)
    (cbsLoop nameIdx mk lines seen).
Proof.
  intros Hmk. revert seen. induction lines as [|line rest IH]; intros seen.
  { split; constructor. }
  cbn [cbsLoop].
  destruct (String.eqb (Str.trim (Str.cellAt (splitRow line) nameIdx)) "") eqn:En;
    [apply IH|].
  destruct (decide _) as [Hseen|Hnew]; [apply IH|].
  destruct (IH ({[Str.toLowerCase (Str.trim (Str.cellAt (splitRow line) nameIdx))]}
                  ∪ seen)) as [Hnd Hall].
  apply String.eqb_neq in En. rewrite Forall_forall in Hall. split.
  - cbn [fmap list_fmap]. rewrite Hmk. apply NoDup_cons. split; [|exact Hnd].
    intros (r & Hr & Hin)%list_elem_of_fmap.
    destruct (Hall r Hin) as [Hfresh _]. apply Hfresh. rewrite <- Hr.
    apply elem_of_union. left. by apply elem_of_singleton.
  - apply Forall_cons. split.
    + rewrite Hmk. split_and!; [done|done|apply StrFacts.trim_idem].
    + apply Forall_forall. intros r Hr. destruct (Hall r Hr) as (Hf & ? & ?).
      split_and!; [|done|done].
      intros Hs. apply Hf, elem_of_union. by right.
Qed.

Lemma parseCbsCsv_names (csvText : string) :
  NoDup ((fun r => Str.toLowerCase (csv_name r)) <$> parseCbsCsv csvText) /\
  Forall (fun r => csv_name r <> "" /\ Str.trim (csv_name r) = csv_name r)
    (parseCbsCsv csvText).
Proof.
  assert (forall nameIdx mk lines,
            (forall n cells, csv_name (mk n cells) = n) ->
            NoDup ((fun r => Str.toLowerCase (csv_name r)) <$> cbsLoop nameIdx mk lines ∅) /\
            Forall (fun r => csv_name r <> "" /\ Str.trim (csv_name r) = csv_name r)
              (cbsLoop nameIdx mk lines ∅)) as Hloop.
  { intros nameIdx mk lines Hmk.
    destruct (cbsLoop_names nameIdx mk lines ∅ Hmk) as [Hnd Hall].
    split; [exact Hnd|]. eapply Forall_impl; [exact Hall|]. cbn. tauto. }
  unfold parseCbsCsv. destruct (normaliseLines csvText) as [|first data].
  { split; constructor. }
  cbn zeta. set (c := cbsColumns _). destruct (col_name c) as [nameIdx|].
  - apply Hloop. intros n cells. unfold cbsRecord.
    by destruct (col_base c), (trioCols c) as [[[? ?] ?]|].
  - by apply Hloop.
Qed.

Lemma parseCbsCsv_fields (csvText : string) (r : CbsCsvRow) :
  r ∈ parseCbsCsv csvText ->
  finiteOrNull (csv_baseCost r) /\ finiteOrNull (csv_low r)
  /\ finiteOrNull (csv_mostLikely r) /\ finiteOrNull (csv_high r).
Proof.
  assert (forall v, finiteOrNull (toNumOrNull v)) as Hnum.
  { intros v. unfold finiteOrNull. destruct (toNumOrNull v) eqn:E; [|done].
    by eapply toNumOrNull_finite. }
  unfold parseCbsCsv. destruct (normaliseLines csvText) as [|first data].
  { intros H. by apply elem_of_nil in H. }
  cbn zeta. set (c := cbsColumns _). destruct (col_name c) as [nameIdx|].
  - intros (line & _ & ->)%cbsLoop_elem. unfold cbsRecord.
    destruct (col_base c), (trioCols c) as [[[? ?] ?]|]; cbn; split_and!; done.
  - intros (line & _ & ->)%cbsLoop_elem. done.
Qed.

(** X4. The rows [parseCbsCsv] returns have non-empty, trimmed names that
    differ pairwise even when case is ignored, so no text makes it return
    the same name twice; and each of their four numeric fields is a finite
    number or [null], never [NaN] or an infinity. *)
Theorem parseCbsCsv_names_distinct (csvText : string) :
  NoDup ((fun r => Str.toLowerCase (csv_name r)) <$> parseCbsCsv csvText) /\
  Forall (fun r => csv_name r <> "" /\ Str.trim (csv_name r) = csv_name r /\
                   finiteOrNull (csv_baseCost r) /\ finiteOrNull (csv_low r) /\
                   finiteOrNull (csv_mostLikely r) /\ finiteOrNull (csv_high r))
    (parseCbsCsv csvText).
Proof.
  destruct (parseCbsCsv_names csvText) as [Hnd Hnames]. split; [exact Hnd|].
  rewrite Forall_forall in Hnames. apply Forall_forall. intros r Hr.
  destruct (Hnames r Hr) as [? ?].
  destruct (parseCbsCsv_fields csvText r Hr) as (? & ? & ? & ?). done.
Qed.

(** X5. What a CBS import installs: the item in position [idx] gets the
    identifier made from [idx + 1], a name that is not blank, a confidence
    factor that is not empty, a base cost that is a finite number, no driver
    group and the sensitivity medium.  So, correlation being off, an imported
    item that is not user-defined raises at most one validation issue, the
    one for a negative base cost. *)
Theorem imported_cbs_items_wellformed
    (confidenceFactors : list string) (csvText : string) (idx : nat) (item : Cbs.item) :
  importedCbsItems confidenceFactors csvText !! idx = Some item ->
  Cbs.id item = makeSequentialId "cbs" (idx + 1) /\
  Str.trim (Cbs.name item) <> "" /\
  Cbs.confidenceFactor item <> "" /\
  isNum (Cbs.baseCost item) = true /\
  Cbs.driverGroup item = "" /\ Cbs.sensitivity item = "medium" /\
  (Str.toLowerCase (Cbs.confidenceFactor item) <> "user defined" ->
   cbsIssues "none" idx item
   = pushIf (Num.ltb (Number (Cbs.baseCost item)) Num.zero) (CbsBaseCost (idx + 1))).
Proof.
  unfold importedCbsItems. intros (r & Hr & ->)%list_lookup_imap_Some.
  apply list_elem_of_lookup_2 in Hr.
  destruct (parseCbsCsv_names csvText) as [_ Hnames].
  rewrite Forall_forall in Hnames. destruct (Hnames r Hr) as [Hne Htrim].
  destruct (parseCbsCsv_fields csvText r Hr) as (Hb & _).
  assert (Str.trim (csv_name r) <> "") as Hname by (by rewrite Htrim).
  assert (Cbs.confidenceFactor (cbsItemOfRow (defaultFactor confidenceFactors) idx r) <> "")
    as Hcf.
  { cbn [cbsItemOfRow Cbs.confidenceFactor]. destruct (_ && _); [done|].
    unfold defaultFactor. destruct (fallbackFactor confidenceFactors) as [k|]; [|done].
    destruct (String.eqb k "") eqn:E; [done|]. by apply String.eqb_neq in E. }
  assert (isNum (Cbs.baseCost (cbsItemOfRow (defaultFactor confidenceFactors) idx r)) = true)
    as Hnum.
  { cbn [cbsItemOfRow Cbs.baseCost isNum]. by destruct (csv_baseCost r). }
  split_and!; try done.
  intros Hud. unfold cbsIssues, cbsCorrelationIssues, cbsUserDefinedIssues.
  apply String.eqb_neq in Hname, Hcf, Hud.
  change (Cbs.name (cbsItemOfRow (defaultFactor confidenceFactors) idx r))
    with (csv_name r).
  rewrite Hname, Hcf, Hud, Hnum.
  cbn [negb orb pushIf app]. change (String.eqb (Str.toLowerCase "none") "standard") with false.
  cbn [app]. by rewrite app_nil_r.
Qed.

Lemma imported_cbs_items_wellformed_witness :
  exists item,
    importedCbsItems ["Realistic"] repeatedNamesCsv !! 1 = Some item /\
    Cbs.id item = "cbs02" /\
    cbsIssues "none" 1 item = [CbsBaseCost 2].
Proof.
  destruct (imported_cbs_items_wellformed ["Realistic"] repeatedNamesCsv 1
              (Cbs.mk "cbs02" "Build" (VNum (Num.ofZ (-5))) "Realistic"
                 VNull VNull VNull "" "medium"))
    as (Hid & _ & _ & _ & _ & _ & Hissues).
  - vm_compute. reflexivity.
  - exists (Cbs.mk "cbs02" "Build" (VNum (Num.ofZ (-5))) "Realistic"
              VNull VNull VNull "" "medium").
    split; [vm_compute; reflexivity|]. split; [exact Hid|].
    rewrite Hissues; [reflexivity|]. vm_compute. discriminate.
Defined.

(** ** Risk import: ranges, accounting, validation *)

Lemma finite_not_lt_zero n :
  Num.isFinite n = true -> Num.ltb n Num.zero = false -> Num.geb n Num.zero = true.
Proof.
  destruct n as [| |q]; try done. unfold Num.ltb, Num.geb, Num.zero, Num.compare.
  by destruct (q ?= 0)%Q.
Qed.

Lemma finite_not_gt_one n :
  Num.isFinite n = true -> Num.gtb n Num.one = false -> Num.leb n Num.one = true.
Proof.
  destruct n as [| |q]; try done. unfold Num.gtb, Num.leb, Num.one, Num.compare.
  by destruct (q ?= 1)%Q.
Qed.

(** [Math.min(1, Math.max(0, p))] of a finite [p] lies between 0 and 1. *)
Lemma clamp_unit n :
  Num.isFinite n = true ->
  let c := Num.min Num.one (Num.max Num.zero n) in
  Num.isFinite c = true /\ Num.geb c Num.zero = true /\ Num.leb c Num.one = true.
Proof.
  destruct n as [| |q]; try done. intros _.
  unfold Num.max, Num.zero, Num.one. cbn [Num.compare].
  destruct (0 ?= q)%Q eqn:E0; unfold Num.min; cbn [Num.compare].
  - done.
  - destruct (1 ?= q)%Q eqn:E1; [done | done |].
    unfold Num.isFinite, Num.geb, Num.leb, Num.compare.
    rewrite <- (Qcompare_antisym 0 q), E0, <- (Qcompare_antisym 1 q), E1. done.
  - done.
Qed.

Lemma toNum_cases v : Num.isFinite (toNum v) = true \/ toNum v = NaN.
Proof.
  unfold toNum. destruct (Num.isFinite (NumParse.StringToNumber (Str.trim v))) eqn:E; auto.
Qed.

Lemma fixCost_range row val label :
  Num.isFinite (fst (fixCost row val label)) = true /\
  Num.geb (fst (fixCost row val label)) Num.zero = true.
Proof.
  unfold fixCost. destruct (Num.isFinite val) eqn:Ef; cbn [negb]; [|done].
  destruct (Num.ltb val Num.zero) eqn:El; [done|]. cbn.
  split; [done | by apply finite_not_lt_zero].
Qed.

(** A row that is parsed obeys every rule that bears on one risk alone. *)
Lemma riskRow_range nameIdx pIdx lowIdx mlIdx highIdx typeIdx rowNum cells r w :
  riskRow nameIdx pIdx lowIdx mlIdx highIdx typeIdx rowNum cells = (Some r, w) ->
  riskInRange r.
Proof.
  intros Hrow. pose proof (riskRow_riskType _ _ _ _ _ _ _ _ _ _ Hrow) as Hty.
  revert Hrow. unfold riskRow.
  destruct (String.eqb (Str.trim (Str.cellAt cells nameIdx)) "") eqn:En.
  { intros H%(f_equal fst). rewrite wbind_fst in H. discriminate H. }
  apply String.eqb_neq in En. intros H.
  apply wbind_inv in H as (riskType & ? & ? & _ & H & _).
  apply wbind_inv in H as (p1 & ? & ? & Hp1 & H & _).
  apply wbind_inv in H as (p2 & ? & ? & Hp2 & H & _).
  apply wbind_inv in H as (lo & ? & ? & Hlo & H & _).
  apply wbind_inv in H as (ml & ? & ? & Hml & H & _).
  apply wbind_inv in H as (hi & ? & ? & Hhi & H & _).
  assert (Num.isFinite p1 = true) as Hf1.
  { destruct (toNum_cases (Str.cellAt cells pIdx)) as [Hf|Hn].
    - rewrite Hf in Hp1. cbn in Hp1. by injection Hp1 as <- _.
    - rewrite Hn in Hp1. cbn [Num.isFinite negb] in Hp1.
      apply (f_equal fst) in Hp1. rewrite wbind_fst in Hp1.
      cbn in Hp1. by subst p1. }
  assert (Num.isFinite p2 = true /\ Num.geb p2 Num.zero = true
          /\ Num.leb p2 Num.one = true) as (Hf2 & Hge & Hle).
  { destruct (Num.ltb p1 Num.zero) eqn:El; cbn [orb] in Hp2.
    - apply (f_equal fst) in Hp2. rewrite wbind_fst in Hp2. cbn in Hp2. subst p2.
      by apply clamp_unit.
    - destruct (Num.gtb p1 Num.one) eqn:Eg.
      + apply (f_equal fst) in Hp2. rewrite wbind_fst in Hp2. cbn in Hp2. subst p2.
        by apply clamp_unit.
      + injection Hp2 as <- _. split_and!;
          [done | by apply finite_not_lt_zero | by apply finite_not_gt_one]. }
  apply (f_equal fst) in Hlo, Hml, Hhi. cbn [fst] in Hlo, Hml, Hhi.
  pose proof (fixCost_range (rowNum + 1) (toNum (Str.cellAt cells lowIdx)) "lowCost") as [? ?].
  pose proof (fixCost_range (rowNum + 1) (toNum (Str.cellAt cells mlIdx)) "mostLikelyCost")
    as [? ?].
  pose proof (fixCost_range (rowNum + 1) (toNum (Str.cellAt cells highIdx)) "highCost")
    as [? ?].
  rewrite Hlo in *. rewrite Hml in *. rewrite Hhi in *.
  unfold riskInRange. destruct (String.eqb riskType "inherent").
  - injection H as <- _. cbn in *. split_and!; try done. apply StrFacts.trim_idem.
  - apply wbind_inv in H as (? & ? & ? & _ & H & _). injection H as <- _.
    cbn in *. split_and!; try done. apply StrFacts.trim_idem.
Qed.

(** X6. Whatever the text, every risk [parseRisksCsv] returns has a name
    that is not blank, one of the two known types, a finite probability
    between 0 and 1 and three finite costs that are not negative: cells that
    do not fit are replaced or clamped, never passed on. *)
Theorem parseRisksCsv_rows_in_range (csvText : string) :
  Forall riskInRange (fst (parseRisksCsv csvText)).
Proof.
  apply Forall_forall. intros r Hr.
  apply parseRisksCsv_elem in Hr as (? & ? & ? & ? & ? & ? & ? & ? & ? & H).
  by eapply riskRow_range.
Qed.

Lemma riskIssues_inRange (i : nat) (r : ParsedRisk) :
  riskInRange r ->
  riskIssues i (riskOfParsed i r)
  = pushIf (Num.gtb (pr_lowCost r) (pr_mostLikelyCost r)) (RiskLowLeMostLikely (i + 1))
    ++ pushIf (Num.gtb (pr_mostLikelyCost r) (pr_highCost r)) (RiskMostLikelyLeHigh (i + 1)).
Proof.
  intros (Hne & Htrim & _ & Hp & Hp0 & Hp1 & Hl & Hl0 & Hm & Hm0 & Hh & Hh0).
  assert (forall n, Num.geb n Num.zero = true -> Num.ltb n Num.zero = false) as Hge.
  { intros n. unfold Num.geb, Num.ltb. by destruct (Num.compare n Num.zero) as [[]|]. }
  assert (Num.gtb (pr_probability r) Num.one = false) as Hgt.
  { revert Hp1. unfold Num.leb, Num.gtb.
    by destruct (Num.compare (pr_probability r) Num.one) as [[]|]. }
  unfold riskIssues. cbn [riskOfParsed Risk.name Risk.probability Risk.lowCost
    Risk.mostLikelyCost Risk.highCost Number].
  rewrite Htrim. apply String.eqb_neq in Hne. rewrite Hne.
  rewrite Hp, Hl, Hm, Hh, !Hge, Hgt by done. reflexivity.
Qed.

(** X7. A risk import never installs a risk the validation engine rejects
    for its name, its probability or one of its costs: the only issues an
    imported risk can raise are the two about the order of its costs, and an
    inherent one raises none. *)
Theorem imported_risks_pass_validation (csvText : string) (i : nat) (x : Risk.item) :
  importedRisks csvText !! i = Some x ->
  List.filter (fun issue => negb (isOrderingIssue issue)) (riskIssues i x) = [] /\
  (Risk.riskType x = "inherent" -> riskIssues i x = []).
Proof.
  unfold importedRisks. intros (r & Hr & ->)%list_lookup_imap_Some.
  apply list_elem_of_lookup_2 in Hr.
  assert (riskInRange r) as Hrange.
  { pose proof Hr as (? & ? & ? & ? & ? & ? & ? & ? & ? & H)%parseRisksCsv_elem.
    by eapply riskRow_range. }
  rewrite (riskIssues_inRange i r Hrange). split.
  - rewrite List.filter_app, !filter_pushIf. cbn [isOrderingIssue negb].
    by rewrite !andb_false_r.
  - intros Hty. cbn [riskOfParsed Risk.riskType] in Hty.
    assert (pr_riskType r = "inherent") as Hp.
    { destruct (String.eqb (pr_riskType r) ""); [discriminate Hty | exact Hty]. }
    destruct (parseRisksCsv_inherent_zero _ _ Hr Hp) as (-> & -> & ->). done.
Qed.

Lemma imported_risks_pass_validation_witness :
  importedRisks messyRisksCsv
    = [ Risk.mk "r01" "Flood" "contingent" (VNum Num.one) (VNum Num.zero)
          (VNum Num.zero) (VNum (Num.ofZ 40));
        Risk.mk "r02" "Strike" "inherent" (VNum Num.zero) (VNum Num.zero)
          (VNum Num.zero) (VNum Num.zero) ] /\
  riskIssues 1 (Risk.mk "r02" "Strike" "inherent" (VNum Num.zero) (VNum Num.zero)
                  (VNum Num.zero) (VNum Num.zero)) = [].
Proof.
  split; [vm_compute; reflexivity|].
  destruct (imported_risks_pass_validation messyRisksCsv 1
              (Risk.mk "r02" "Strike" "inherent" (VNum Num.zero) (VNum Num.zero)
                 (VNum Num.zero) (VNum Num.zero))) as [_ H].
  - vm_compute. reflexivity.
  - apply H. reflexivity.
Defined.

Lemma skip_bind {A B : Type} (m : Warn A) (k : A -> Warn B) :
  List.filter isSkipWarning (snd m) = [] ->
  (forall a, List.filter isSkipWarning (snd (k a)) = []) ->
  List.filter isSkipWarning (snd (m ≫= k)) = [].
Proof.
  unfold mbind, Warn_bind. destruct m as [a w1]. intros H1 H2.
  specialize (H2 a). destruct (k a) as [b w2]. cbn [snd] in *.
  by rewrite List.filter_app, H1, H2.
Qed.

Lemma fixCost_no_skip row val label :
  List.filter isSkipWarning (snd (fixCost row val label)) = [].
Proof.
  unfold fixCost. destruct (Num.isFinite val); cbn [negb]; [|done].
  by destruct (Num.ltb val Num.zero).
Qed.

(** A row gives a risk and no skip warning, or no risk and one. *)
Lemma riskRow_accounted nameIdx pIdx lowIdx mlIdx highIdx typeIdx rowNum cells :
  let res := riskRow nameIdx pIdx lowIdx mlIdx highIdx typeIdx rowNum cells in
  length (List.filter isSkipWarning (snd res))
  = match fst res with Some _ => 0 | None => 1 end.
Proof.
  cbn zeta. unfold riskRow.
  destruct (String.eqb (Str.trim (Str.cellAt cells nameIdx)) ""); [done|].
  match goal with
  | |- length (List.filter _ (snd ?e)) = _ =>
      assert (List.filter isSkipWarning (snd e) = []) as Hno;
      [|assert (exists r, fst e = Some r) as [r Hr]; [|by rewrite Hno, Hr]]
  end.
  - apply skip_bind.
    { destruct typeIdx as [t|]; [|done].
      destruct (_ || _); [done|]. by destruct (negb _). }
    intros riskType. apply skip_bind; [by destruct (negb _)|].
    intros p1. apply skip_bind; [by destruct (_ || _)|].
    intros p2. apply skip_bind; [apply fixCost_no_skip|].
    intros lo. apply skip_bind; [apply fixCost_no_skip|].
    intros ml. apply skip_bind; [apply fixCost_no_skip|].
    intros hi. destruct (String.eqb riskType "inherent"); [done|].
    apply skip_bind; [by destruct (negb _) | done].
  - rewrite !wbind_fst.
    destruct (String.eqb _ "inherent"); [by eexists|].
    rewrite wbind_fst. by eexists.
Qed.

Lemma riskLoop_accounted row rowNum lines :
  (forall n cells,
     length (List.filter isSkipWarning (snd (row n cells)))
     = match fst (row n cells) with Some _ => 0 | None => 1 end) ->
  length (fst (riskLoop row rowNum lines))
  + length (List.filter isSkipWarning (snd (riskLoop row rowNum lines)))
  = length lines.
Proof.
  intros Hrow. revert rowNum. induction lines as [|line rest IH]; intros rowNum; [done|].
  cbn [riskLoop]. unfold mbind, Warn_bind.
  specialize (Hrow rowNum (splitRow line)). specialize (IH (S rowNum)).
  destruct (row rowNum (splitRow line)) as [o w1].
  destruct (riskLoop row (S rowNum) rest) as [parsed w2].
  cbn [mret Warn_ret fst snd] in *. rewrite app_nil_r, List.filter_app, length_app.
  destruct o; cbn [length]; lia.
Qed.

(** X8. With the five mandatory columns resolved, the risk parser accounts
    for every data row: a row gives either one risk or one warning that it
    was skipped for want of a name, so the risks and those warnings together
    are as many as the data rows, and a parse without any warning has one
    risk per row. *)
Theorem parseRisksCsv_accounts_for_rows
    (csvText first : string) (data : list string) :
  normaliseLines csvText = first :: data ->
  missingHeaders (riskColumns (Str.toLowerCase <$> splitRow first)) = [] ->
  length (fst (parseRisksCsv csvText))
  + length (List.filter isSkipWarning (snd (parseRisksCsv csvText)))
  = length data /\
  (snd (parseRisksCsv csvText) = [] ->
   length (fst (parseRisksCsv csvText)) = length data).
Proof.
  intros Hlines Hmiss.
  assert (length (fst (parseRisksCsv csvText))
          + length (List.filter isSkipWarning (snd (parseRisksCsv csvText)))
          = length data) as Hsum.
  { unfold parseRisksCsv. rewrite Hlines. cbn zeta.
    set (c := riskColumns _) in *. unfold missingHeaders in Hmiss.
    destruct (rc_name c), (rc_p c), (rc_low c), (rc_ml c), (rc_high c);
      try discriminate Hmiss.
    apply riskLoop_accounted. intros k cells. apply riskRow_accounted. }
  split; [exact Hsum|]. intros Hw. rewrite Hw in Hsum. cbn in Hsum. lia.
Qed.

Lemma parseRisksCsv_accounts_for_rows_witness :
  length (fst (parseRisksCsv messyRisksCsv))
  + length (List.filter isSkipWarning (snd (parseRisksCsv messyRisksCsv))) = 3.
Proof.
  destruct (parseRisksCsv_accounts_for_rows messyRisksCsv "name,type,p,low,mode,high"
              ["Flood,weird,1.7,-3,abc,40"; ",contingent,0.1,1,2,3";
               "Strike,INHERENT,-2,9,9,9"]) as [H _].
  - vm_compute. reflexivity.
  - vm_compute. reflexivity.
  - exact H.
Defined.

(** ** The validation gate and the payload *)

Lemma pushIf_nil (c : bool) (i : Issue) : pushIf c i = [] <-> c = false.
Proof. by destruct c. Qed.

Lemma concat_imap_nil {A B : Type} (f : nat -> A -> list B) (l : list A) :
  concat (imap f l) = [] -> forall i x, l !! i = Some x -> f i x = [].
Proof.
  revert f. induction l as [|y l IH]; intros f H i x Hi; [done|].
  cbn [imap concat] in H. apply app_eq_nil in H as [H0 Hrest].
  destruct i as [|i]; [by injection Hi as <-|].
  apply (IH (f ∘ S) Hrest i x Hi).
Qed.

Lemma isNum_finite (v : JsVal) :
  isNum v = true -> Num.isFinite (Number v) = true /\ isBlank v = false.
Proof. destruct v as [| | |n|[|c s]]; try done. Qed.

Lemma orElse_finite (n : number) :
  Num.isFinite n = true -> Num.isFinite (Num.orElse n Num.zero) = true.
Proof. unfold Num.orElse. by destruct (Num.truthy n). Qed.

(** Replacing a zero by [0] does not change how two finite numbers compare. *)
Lemma compare_orElse (a b : number) :
  Num.isFinite a = true -> Num.isFinite b = true ->
  Num.compare (Num.orElse a Num.zero) (Num.orElse b Num.zero) = Num.compare a b.
Proof.
  destruct a as [| |x], b as [| |y]; try done. intros _ _.
  unfold Num.orElse, Num.truthy, Num.zero.
  destruct (Qeq_bool x 0) eqn:Ex, (Qeq_bool y 0) eqn:Ey; cbn [negb Num.compare];
    try apply Qeq_bool_eq in Ex; try apply Qeq_bool_eq in Ey; f_equal.
  - by rewrite Ex, Ey.
  - by rewrite Ex.
  - by rewrite Ey.
Qed.

Lemma compare_orElse_zero (a : number) :
  Num.isFinite a = true ->
  Num.compare (Num.orElse a Num.zero) Num.zero = Num.compare a Num.zero.
Proof. intros Ha. by rewrite <- (compare_orElse a Num.zero). Qed.

Lemma compare_orElse_one (a : number) :
  Num.isFinite a = true ->
  Num.compare (Num.orElse a Num.zero) Num.one = Num.compare a Num.one.
Proof. intros Ha. by rewrite <- (compare_orElse a Num.one). Qed.

Lemma not_gtb_leb (a b : number) :
  Num.isFinite a = true -> Num.isFinite b = true ->
  Num.gtb a b = false -> Num.leb a b = true.
Proof.
  destruct a as [| |x], b as [| |y]; try done. unfold Num.gtb, Num.leb, Num.compare.
  by destruct (x ?= y)%Q.
Qed.

Lemma cbsIssues_nil_payload (mode : string) (i : nat) (x : Cbs.item) :
  cbsIssues mode i x = [] ->
  cbsPayloadValid (String.eqb mode "standard") (payloadCbs mode x).
Proof.
  unfold cbsIssues. intros H.
  apply app_eq_nil in H as [Hname H]. apply app_eq_nil in H as [Hbase H].
  apply app_eq_nil in H as [Hcf H]. apply app_eq_nil in H as [Hcorr Hud].
  apply pushIf_nil in Hname, Hbase, Hcf.
  apply String.eqb_neq in Hname, Hcf. apply orb_false_iff in Hbase as [Hn Hz].
  apply negb_false_iff, isNum_finite in Hn as [Hfin _].
  unfold cbsPayloadValid, payloadCbs; cbn. split_and!; try done.
  - by apply orElse_finite.
  - unfold Num.geb. rewrite compare_orElse_zero by done.
    fold (Num.geb (Number (Cbs.baseCost x)) Num.zero). by apply finite_not_lt_zero.
  - intros Hstd. rewrite Hstd. apply String.eqb_eq in Hstd. subst mode.
    unfold cbsCorrelationIssues in Hcorr.
    change (String.eqb (Str.toLowerCase "standard") "standard") with true in Hcorr.
    apply app_eq_nil in Hcorr as [Hg Hs]. apply pushIf_nil in Hg, Hs.
    apply String.eqb_neq in Hg. apply negb_false_iff in Hs.
    assert (Cbs.driverGroup x <> "") as Hg'.
    { intros E. rewrite E in Hg. by apply Hg. }
    apply String.eqb_neq in Hg'. rewrite Hg'. eauto 10.
  - intros Hu. unfold cbsUserDefinedIssues in Hud. rewrite Hu, String.eqb_refl in Hud.
    apply app_eq_nil in Hud as [Hb Hud]. apply app_eq_nil in Hud as [Hm Hud].
    apply app_eq_nil in Hud as [Hw Hord]. unfold cbsOrderIssues in Hord.
    apply app_eq_nil in Hord as [Hbm Hmw].
    apply pushIf_nil in Hb, Hm, Hw, Hbm, Hmw.
    apply orb_false_iff in Hb as [Hb Hb0], Hm as [Hm Hm0], Hw as [Hw Hw0].
    apply negb_false_iff, isNum_finite in Hb as [Hbf Hbb], Hm as [Hmf Hmb],
      Hw as [Hwf Hwb].
    rewrite Hbf, Hmf in Hbm. rewrite Hmf, Hwf in Hmw. cbn [andb] in Hbm, Hmw.
    unfold manualCost. rewrite Hbb, Hmb, Hwb.
    eexists _, _, _. split_and!; try reflexivity; try done.
    + by apply finite_not_lt_zero.
    + by apply not_gtb_leb.
    + by apply not_gtb_leb.
Qed.

Lemma riskIssues_nil_payload (i : nat) (r : Risk.item) :
  riskIssues i r = [] -> riskPayloadValid (payloadRisk r).
Proof.
  unfold riskIssues. intros H.
  apply app_eq_nil in H as [Hname H]. apply app_eq_nil in H as [Hp H].
  apply app_eq_nil in H as [Hl H]. apply app_eq_nil in H as [Hm H].
  apply app_eq_nil in H as [Hh H]. apply app_eq_nil in H as [Hlm Hmh].
  apply pushIf_nil in Hname, Hp, Hl, Hm, Hh, Hlm, Hmh.
  apply String.eqb_neq in Hname.
  apply orb_false_iff in Hp as [Hp Hp1]. apply orb_false_iff in Hp as [Hpf Hp0].
  apply orb_false_iff in Hl as [Hlf Hl0], Hm as [Hmf Hm0], Hh as [Hhf Hh0].
  apply negb_false_iff in Hpf, Hlf, Hmf, Hhf.
  rewrite Hlf, Hmf in Hlm. rewrite Hmf, Hhf in Hmh. cbn [andb] in Hlm, Hmh.
  unfold riskPayloadValid, payloadRisk; cbn.
  unfold Num.geb, Num.leb.
  rewrite !compare_orElse, !compare_orElse_zero, !compare_orElse_one by done.
  fold (Num.geb (Number (Risk.probability r)) Num.zero).
  fold (Num.leb (Number (Risk.probability r)) Num.one).
  fold (Num.geb (Number (Risk.lowCost r)) Num.zero).
  fold (Num.leb (Number (Risk.lowCost r)) (Number (Risk.mostLikelyCost r))).
  fold (Num.leb (Number (Risk.mostLikelyCost r)) (Number (Risk.highCost r))).
  split_and!; try done; try (by apply orElse_finite);
    try (by apply finite_not_lt_zero); try (by apply finite_not_gt_one);
    by apply not_gtb_leb.
Qed.

(** X9. The gate does what it is there for: when the validation engine
    reports no issue for a state, the payload built from that state has
    iterations that are a finite number above 0 and at most 20000, at least
    one CBS item, and items and risks that each satisfy every rule of the
    engine on the values actually sent (finite base costs and probabilities
    in range, ordered costs, driver group and sensitivity level in standard
    mode, three ordered manual costs on user-defined items).  The seed is
    not part of the gate. *)
Theorem valid_inputs_give_valid_payload (s : State) :
  validate (iterations s) (cbsItems s) (risks s) (correlationMode s) = [] ->
  let p := buildPayload s in
  Num.isFinite (ps_iterations (pl_settings p)) = true /\
  Num.gtb (ps_iterations (pl_settings p)) Num.zero = true /\
  Num.leb (ps_iterations (pl_settings p)) (Num.ofZ 20000) = true /\
  pl_cbsItems p <> [] /\
  Forall (cbsPayloadValid (String.eqb (correlationMode s) "standard")) (pl_cbsItems p) /\
  Forall riskPayloadValid (pl_contingentRisks p).
Proof.
  unfold validate. intros H.
  apply app_eq_nil in H as [Hit H]. apply app_eq_nil in H as [Hlen H].
  apply app_eq_nil in H as [Hcbs Hrisk].
  unfold iterationIssues in Hit. apply app_eq_nil in Hit as [Hpos Hmax].
  apply pushIf_nil in Hpos, Hmax, Hlen.
  apply orb_false_iff in Hpos as [Hfin Hle]. apply negb_false_iff in Hfin.
  rewrite Hfin in Hmax. cbn [andb] in Hmax.
  cbn zeta. unfold buildPayload; cbn [pl_settings ps_iterations pl_cbsItems
    pl_contingentRisks]. split_and!.
  - exact Hfin.
  - revert Hle. unfold Num.leb, Num.gtb.
    destruct (Number (iterations s)) as [| |q]; try done.
    unfold Num.zero, Num.compare. by destruct (q ?= 0)%Q.
  - apply not_gtb_leb; done.
  - destruct (cbsItems s); [done|]. done.
  - apply Forall_fmap, Forall_lookup. intros i x Hi.
    apply (cbsIssues_nil_payload _ i). by eapply concat_imap_nil.
  - apply Forall_fmap, Forall_lookup. intros i r Hi.
    apply (riskIssues_nil_payload i). by eapply concat_imap_nil.
Qed.

Lemma valid_inputs_give_valid_payload_witness :
  Forall riskPayloadValid (pl_contingentRisks (buildPayload readyState)) /\
  Forall (cbsPayloadValid true) (pl_cbsItems (buildPayload readyState)) /\
  ps_seed (pl_settings (buildPayload readyState)) = NaN.
Proof.
  destruct (valid_inputs_give_valid_payload readyState) as (_ & _ & _ & _ & Hc & Hr).
  - vm_compute. reflexivity.
  - split_and!; [exact Hr | exact Hc | vm_compute; reflexivity].
Defined.

(** ** Identifiers *)

Lemma pretty_N_go_grows (x : N) (s : string) :
  String.length s <= String.length (pretty_N_go x s).
Proof.
  revert s. induction (N.lt_wf_0 x) as [x _ IH]; intros s.
  destruct (decide (x = 0)%N) as [->|Hx]; [by rewrite pretty_N_go_0|].
  rewrite pretty_N_go_step by lia.
  etrans; [|apply IH; apply N.div_lt; lia]. cbn. lia.
Qed.

(** The decimal of a positive number does not open with a zero. *)
Lemma pretty_N_go_head (x : N) (s : string) :
  (0 < x)%N ->
  exists c r, pretty_N_go x s = String c r /\ c <> "0"%char.
Proof.
  revert s. induction (N.lt_wf_0 x) as [x _ IH]; intros s Hx.
  rewrite pretty_N_go_step by done.
  destruct (decide (x `div` 10 = 0)%N) as [E|E].
  - rewrite E, pretty_N_go_0. eexists _, _. split; [done|].
    assert (x < 10)%N as Hlt by (apply N.div_small_iff in E; lia).
    rewrite N.mod_small by done.
    assert (x = 1 \/ x = 2 \/ x = 3 \/ x = 4 \/ x = 5 \/ x = 6 \/ x = 7 \/ x = 8
            \/ x = 9)%N as Hc by lia.
    destruct Hc as [->|[->|[->|[->|[->|[->|[->|[->| ->]]]]]]]]; done.
  - apply IH; [apply N.div_lt; lia | apply N.neq_0_lt_0, E].
Qed.

Lemma pretty_small (n : nat) :
  n < 10 -> pretty n = String (pretty_N_char (N.of_nat n)) "".
Proof.
  intros Hn. do 10 (destruct n as [|n]; [done|]). lia.
Qed.

Lemma pretty_large (n : nat) :
  10 <= n ->
  2 <= String.length (pretty n) /\
  exists c r, pretty n = String c r /\ c <> "0"%char.
Proof.
  intros Hn. unfold pretty, pretty_nat, pretty, pretty_N.
  destruct (decide (N.of_nat n = 0)%N); [lia|]. split.
  - rewrite pretty_N_go_step by lia.
    rewrite pretty_N_go_step by (apply N.div_str_pos; lia).
    etrans; [|apply pretty_N_go_grows]. cbn. lia.
  - apply pretty_N_go_head. lia.
Qed.

Lemma padStart_pretty_inj (a b : nat) :
  padStart 2 (pretty a) = padStart 2 (pretty b) -> a = b.
Proof.
  assert (forall n, 10 <= n -> padStart 2 (pretty n) = pretty n) as Hbig.
  { intros n [Hlen _]%pretty_large. unfold padStart.
    replace (2 - String.length (pretty n)) with 0 by lia. done. }
  assert (forall n, n < 10 ->
            padStart 2 (pretty n) = String "0" (String (pretty_N_char (N.of_nat n)) ""))
    as Hsmall.
  { intros n Hn. by rewrite pretty_small. }
  assert (forall x y, x < 10 -> 10 <= y ->
            padStart 2 (pretty x) <> padStart 2 (pretty y)) as Hmixed.
  { intros x y Hx Hy. rewrite Hsmall, Hbig by done.
    destruct (pretty_large y Hy) as (_ & c & r & -> & Hc). congruence. }
  destruct (decide (a < 10)) as [Ha|Ha], (decide (b < 10)) as [Hb|Hb].
  - rewrite !Hsmall by done. intros [= E].
    apply pretty_N_char_inj in E; lia.
  - intros E. destruct (Hmixed a b); [done | lia | done].
  - intros E. destruct (Hmixed b a); [done | lia | done].
  - rewrite !Hbig by lia. apply (inj pretty).
Qed.

Lemma makeSequentialId_inj (prefix : string) (a b : nat) :
  makeSequentialId prefix a = makeSequentialId prefix b -> a = b.
Proof.
  unfold makeSequentialId. intros E%(inj (String.app prefix)).
  by apply padStart_pretty_inj.
Qed.

Lemma idsFrom_NoDup prefix counter ids :
  idsFrom prefix counter ids ->
  NoDup ids /\ makeSequentialId prefix (S counter) ∉ ids.
Proof.
  intros (ks & -> & Hnd & Hle). split.
  - apply NoDup_fmap_2; [|done]. intros a b. apply makeSequentialId_inj.
  - intros (k & E & Hk)%list_elem_of_fmap. apply makeSequentialId_inj in E.
    rewrite Forall_forall in Hle. specialize (Hle k Hk). lia.
Qed.

Lemma idsFrom_add prefix counter ids :
  idsFrom prefix counter ids ->
  idsFrom prefix (S counter) (ids ++ [makeSequentialId prefix (S counter)]).
Proof.
  intros (ks & -> & Hnd & Hle). exists (ks ++ [S counter]). split_and!.
  - by rewrite fmap_app.
  - apply NoDup_app. split_and!; [done| |apply NoDup_singleton].
    intros k Hk ->%list_elem_of_singleton.
    rewrite Forall_forall in Hle. specialize (Hle _ Hk). lia.
  - apply Forall_app. split; [|by repeat constructor].
    eapply Forall_impl; [exact Hle|]. cbn. lia.
Qed.

Lemma idsFrom_filter prefix counter (ids : list string) (f : string -> bool) :
  idsFrom prefix counter ids -> idsFrom prefix counter (List.filter f ids).
Proof.
  intros (ks & -> & Hnd & Hle).
  exists (List.filter (fun k => f (makeSequentialId prefix k)) ks). split_and!.
  - symmetry. apply (filter_fmap (makeSequentialId prefix) f).
  - by apply NoDup_ListNoDup, List.NoDup_filter, NoDup_ListNoDup.
  - apply Forall_forall. intros k Hk%list_elem_of_In%filter_In.
    rewrite Forall_forall in Hle. apply Hle, list_elem_of_In, Hk.
Qed.

Lemma idsFrom_import prefix (n : nat) :
  idsFrom prefix n ((fun i => makeSequentialId prefix (i + 1)) <$> seq 0 n).
Proof.
  exists (S <$> seq 0 n). split_and!.
  - rewrite <- list_fmap_compose. apply list_fmap_ext. intros _ i _. cbn.
    by rewrite Nat.add_1_r.
  - apply NoDup_fmap_2; [apply _ | apply NoDup_seq].
  - apply Forall_fmap, Forall_forall. intros i Hi%elem_of_seq. cbn. lia.
Qed.

Lemma imap_ids {A B : Type} (f : nat -> A -> B) (g : B -> string) (h : nat -> string)
    (l : list A) :
  (forall i x, g (f i x) = h i) -> g <$> imap f l = h <$> seq 0 (length l).
Proof.
  intros Hg. revert f h Hg. induction l as [|x l IH]; intros f h Hg; [done|].
  cbn [imap length seq fmap list_fmap]. rewrite Hg. f_equal.
  rewrite <- fmap_S_seq, <- list_fmap_compose. apply (IH (f ∘ S) (h ∘ S)).
  intros i y. apply Hg.
Qed.

Lemma updateCbsRow_ids id patch (prev : list Cbs.item) :
  Cbs.p_id patch = None -> Cbs.id <$> updateCbsRow id patch prev = Cbs.id <$> prev.
Proof.
  intros Hp. unfold updateCbsRow. rewrite <- list_fmap_compose.
  apply list_fmap_ext. intros _ x _. cbn.
  destruct (negb _); [done|]. destruct (_ && _); cbn; by rewrite Hp.
Qed.

Lemma updateRiskRow_ids id patch (prev : list Risk.item) :
  Risk.p_id patch = None -> Risk.id <$> updateRiskRow id patch prev = Risk.id <$> prev.
Proof.
  intros Hp. unfold updateRiskRow. rewrite <- list_fmap_compose.
  apply list_fmap_ext. intros _ x _. cbn.
  destruct (negb _); [done|]. destruct (Risk.p_riskType patch) as [t|] eqn:Et.
  - destruct (String.eqb _ "inherent"); cbn; by rewrite Hp.
  - cbn. by rewrite Hp.
Qed.

Lemma idsInvariant_step (s : State) (e : Event) :
  idsInvariant s -> uiEvent e -> idsInvariant (step s e).
Proof.
  intros [Hc Hr] Hui. destruct e; try (split; [exact Hc | exact Hr]).
  - (* the factors are loaded: only confidence factors change *)
    cbn [step]. unfold revalidateFactors. destruct (fallbackFactor _); [|by split].
    split; [|exact Hr]. cbn.
    rewrite <- list_fmap_compose.
    erewrite list_fmap_ext; [exact Hc|]. intros _ x _. cbn. by destruct (_ || _).
  - split; [|exact Hr]. cbn. rewrite fmap_app. by apply idsFrom_add.
  - split; [|exact Hr]. cbn.
    rewrite (filter_fmap Cbs.id (fun k => negb (String.eqb k id))).
    by apply idsFrom_filter.
  - split; [|exact Hr]. cbn. by rewrite updateCbsRow_ids.
  - split; [exact Hc|]. cbn. rewrite fmap_app. by apply idsFrom_add.
  - split; [exact Hc|]. cbn.
    rewrite (filter_fmap Risk.id (fun k => negb (String.eqb k id))).
    by apply idsFrom_filter.
  - split; [exact Hc|]. cbn. by rewrite updateRiskRow_ids.
  - cbn [step]. destruct (importedCbsItems (confidenceFactors s) text) as [|x l] eqn:E;
      [by split|].
    split; [|exact Hr].
    change (idsFrom "cbs" (length (x :: l)) (Cbs.id <$> (x :: l))).
    rewrite <- E. unfold importedCbsItems. rewrite length_imap.
    rewrite (imap_ids _ Cbs.id (fun i => makeSequentialId "cbs" (i + 1))) by done.
    apply idsFrom_import.
  - cbn [step]. destruct (importedRisks text) as [|x l] eqn:E; [by split|].
    split; [exact Hc|].
    change (idsFrom "r" (length (x :: l)) (Risk.id <$> (x :: l))).
    rewrite <- E. unfold importedRisks. rewrite length_imap.
    rewrite (imap_ids _ Risk.id (fun i => makeSequentialId "r" (i + 1))) by done.
    apply idsFrom_import.
Qed.

Lemma idsInvariant_initial : idsInvariant initialState.
Proof.
  split.
  - exists [1; 2; 3; 4]. split_and!; [done| |repeat constructor].
    apply NoDup_ListNoDup. repeat constructor; cbn; lia.
  - exists [1; 2]. split_and!; [done| |repeat constructor].
    apply NoDup_ListNoDup. repeat constructor; cbn; lia.
Qed.

Lemma idsInvariant_run (events : list Event) (s : State) :
  idsInvariant s -> Forall uiEvent events -> idsInvariant (run s events).
Proof.
  revert s. induction events as [|e rest IH]; intros s Hinv Hui; [exact Hinv|].
  apply Forall_cons in Hui as [He Hrest]. cbn.
  apply IH; [by apply idsInvariant_step | done].
Qed.

(** X10. Identifiers stay unique.  In every state the session reaches by
    events of the component (its row updates never name [id]), the CBS items
    have pairwise different identifiers and so have the risks, and the
    identifier the next added row would get is borne by no row: rows added
    after deletions or after an import never take an identifier in use. *)
Theorem identifiers_stay_unique (events : list Event) :
  Forall uiEvent events ->
  let s := run initialState events in
  NoDup (Cbs.id <$> cbsItems s) /\
  NoDup (Risk.id <$> risks s) /\
  (makeSequentialId "cbs" (S (cbsCounter s)) ∉ Cbs.id <$> cbsItems s) /\
  (makeSequentialId "r" (S (riskCounter s)) ∉ Risk.id <$> risks s).
Proof.
  intros Hui. cbn zeta.
  destruct (idsInvariant_run events initialState idsInvariant_initial Hui) as [Hc Hr].
  apply idsFrom_NoDup in Hc as [? ?], Hr as [? ?]. done.
Qed.

Lemma identifiers_stay_unique_witness :
  NoDup (Cbs.id <$> cbsItems (run initialState churnTrace)) /\
  Cbs.id <$> cbsItems (run initialState churnTrace) = ["cbs01"; "cbs02"; "cbs03"] /\
  Risk.id <$> risks (run initialState churnTrace) = ["r02"; "r03"; "r04"].
Proof.
  destruct (identifiers_stay_unique churnTrace) as (H & _).
  - repeat constructor.
  - split; [exact H|]. vm_compute. split; reflexivity.
Defined.

(** X11. Adding a row and deleting it again gives back the list of rows
    as it was, while the counter keeps the number that was used up: no
    other row goes with the deleted one, and its identifier is not handed
    out again. *)
Theorem add_then_delete_restores_rows (s : State) :
  idsInvariant s ->
  let newCbs := makeSequentialId "cbs" (S (cbsCounter s)) in
  let newRisk := makeSequentialId "r" (S (riskCounter s)) in
  cbsItems (run s [AddCbsRow; DeleteCbsRow newCbs]) = cbsItems s /\
  cbsCounter (run s [AddCbsRow; DeleteCbsRow newCbs]) = S (cbsCounter s) /\
  risks (run s [AddRiskRow; DeleteRiskRow newRisk]) = risks s /\
  riskCounter (run s [AddRiskRow; DeleteRiskRow newRisk]) = S (riskCounter s).
Proof.
  intros [Hc Hr]. apply idsFrom_NoDup in Hc as [_ Hc], Hr as [_ Hr]. cbn.
  rewrite !List.filter_app. cbn. rewrite !String.eqb_refl. cbn. rewrite !app_nil_r.
  split_and!; try done.
  - apply forallb_filter_id, forallb_forall. intros x Hx.
    apply negb_true_iff, String.eqb_neq. intros E. apply Hc.
    apply list_elem_of_fmap. exists x. split; [done | by apply list_elem_of_In].
  - apply forallb_filter_id, forallb_forall. intros x Hx.
    apply negb_true_iff, String.eqb_neq. intros E. apply Hr.
    apply list_elem_of_fmap. exists x. split; [done | by apply list_elem_of_In].
Qed.

Lemma add_then_delete_restores_rows_witness :
  cbsItems (run initialState [AddCbsRow; DeleteCbsRow "cbs05"]) = cbsItems initialState /\
  cbsCounter (run initialState [AddCbsRow; DeleteCbsRow "cbs05"]) = 5.
Proof.
  destruct (add_then_delete_restores_rows initialState) as (H1 & H2 & _).
  - split.
    + exists [1; 2; 3; 4]. split_and!; [done| |repeat constructor].
      apply NoDup_ListNoDup. repeat constructor; cbn; lia.
    + exists [1; 2]. split_and!; [done| |repeat constructor].
      apply NoDup_ListNoDup. repeat constructor; cbn; lia.
  - split; [exact H1 | exact H2].
Defined.

(** ** The tiers the panel shows *)

Lemma geb_not_gtb (a b : number) : Num.geb a b = true -> Num.gtb b a = false.
Proof.
  destruct a as [|[]|x], b as [|[]|y]; try done.
  unfold Num.geb, Num.gtb, Num.compare. rewrite <- (Qcompare_antisym x y).
  by destruct (x ?= y)%Q.
Qed.

(** Sorting rows that already run from the largest key down changes nothing. *)
Lemma sort_descending_id {A : Type} (key : A -> number) (l : list A) :
  (forall x, key x <> NaN) ->
  StronglySorted (descending key) l -> sort (byKeyDesc key) l = l.
Proof.
  intros Hkey. induction 1 as [|x l Hs IH Hall]; [done|].
  cbn [sort foldr]. fold (sort (byKeyDesc key) l). rewrite IH.
  destruct l as [|y r]; [done|]. cbn [insertSorted].
  rewrite (goesAfter_key key Hkey). apply Forall_cons in Hall as [Hxy _].
  by rewrite (geb_not_gtb _ _ Hxy).
Qed.

Lemma compare_zero (q : Q) (c : number) :
  Qeq_bool q 0 = true -> Num.compare (Fin q) c = Num.compare Num.zero c.
Proof.
  intros E%Qeq_bool_iff. destruct c as [|[]|p]; try done.
  unfold Num.compare, Num.zero. by rewrite E.
Qed.

(** The panel tests [Number(d.abs_rho)], the memo [Number(x.abs_rho) || 0]:
    against positive bounds the two tests pick the same rows. *)
Lemma band_orElse (n lo hi : number) :
  Num.geb Num.zero lo = false ->
  (Num.geb (Num.orElse n Num.zero) lo = Num.geb n lo) /\
  (Num.geb (Num.orElse n Num.zero) lo && Num.ltb (Num.orElse n Num.zero) hi
   = Num.geb n lo && Num.ltb n hi).
Proof.
  intros Hlo. destruct n as [|s|q].
  - change (Num.orElse NaN Num.zero) with Num.zero. by rewrite Hlo.
  - done.
  - unfold Num.orElse, Num.truthy. destruct (Qeq_bool q 0) eqn:E; [|done].
    cbn [negb]. unfold Num.geb, Num.ltb. by rewrite !(compare_zero q _ E).
Qed.

Lemma rendered_filters (d : SensitivityRow) :
  Num.geb (Number (abs_rho d)) (Num.dec 30 2) = isDominant d /\
  Num.geb (Number (abs_rho d)) (Num.dec 15 2)
    && Num.ltb (Number (abs_rho d)) (Num.dec 30 2) = isModerate d.
Proof.
  unfold isDominant, isModerate, rhoKey, rhoOf, DOMINANT_MIN, MODERATE_MIN. split.
  - symmetry. by apply (band_orElse _ _ NaN).
  - symmetry. by apply band_orElse.
Qed.

Lemma renderedTiers_filters (rows : list SensitivityRow) :
  dominant (renderedTiers rows) = take 8 (List.filter isDominant rows) /\
  moderate (renderedTiers rows) = take 10 (List.filter isModerate rows).
Proof.
  unfold renderedTiers; cbn [dominant moderate]. split; f_equal.
  - apply List.filter_ext. intros d. apply rendered_filters.
  - apply List.filter_ext. intros d. apply rendered_filters.
Qed.

Lemma filter_sublist {A : Type} (f : A -> bool) (l : list A) :
  List.filter f l `sublist_of` l.
Proof.
  induction l as [|x l IH]; [done|]. cbn [List.filter].
  destruct (f x); by constructor.
Qed.

(** X12. What the results panel guarantees for its two tables.  For every
    list of rows, sorted or not, the Dominant table holds at most 8 and the
    Moderate table at most 10 rows, each a selection of the rows received,
    in the order received, from the table's own band of [abs_rho] (no row
    is in both).  When the rows arrive from the largest [abs_rho] down,
    both tables run from the largest value down as well, and the tiers of
    [groupedSensitivity] are the first [MAX_PER_GROUP] rows of the
    tables shown. *)
Theorem renderedTiers_on_descending_rows (rows : list SensitivityRow) :
  let shown := renderedTiers rows in
  dominant shown `sublist_of` rows /\ moderate shown `sublist_of` rows /\
  length (dominant shown) <= 8 /\ length (moderate shown) <= 10 /\
  Forall (fun x => isDominant x = true /\ isModerate x = false) (dominant shown) /\
  Forall (fun x => isModerate x = true /\ isDominant x = false) (moderate shown) /\
  (StronglySorted (descending rhoKey) rows ->
   StronglySorted (descending rhoKey) (dominant shown) /\
   StronglySorted (descending rhoKey) (moderate shown) /\
   dominant (groupedSensitivity rows) = take MAX_PER_GROUP (dominant shown) /\
   moderate (groupedSensitivity rows) = take MAX_PER_GROUP (moderate shown)).
Proof.
  cbn zeta.
  destruct (renderedTiers_filters rows) as [-> ->].
  assert (forall x, isDominant x = true -> isModerate x = false) as Hdm.
  { intros x Hx. unfold isModerate, isDominant in *. cbn zeta.
    apply andb_false_iff. right. unfold Num.geb in Hx. unfold Num.ltb.
    by destruct (Num.compare _ _) as [[]|]. }
  assert (forall (f : SensitivityRow -> bool) n,
            Forall (fun x => f x = true) (take n (List.filter f rows))) as Hband.
  { intros f n. apply Forall_forall. intros x Hx.
    eapply elem_of_sublist in Hx; [|apply sublist_take].
    by apply list_elem_of_In, filter_In in Hx as [_ Hx]. }
  split_and!.
  - etrans; [apply sublist_take | apply filter_sublist].
  - etrans; [apply sublist_take | apply filter_sublist].
  - rewrite length_take. lia.
  - rewrite length_take. lia.
  - eapply Forall_impl; [apply Hband|]. cbn. intros x Hx. split; [done | by apply Hdm].
  - eapply Forall_impl; [apply Hband|]. cbn. intros x Hx. split; [done|].
    destruct (isDominant x) eqn:E; [|done]. apply Hdm in E. congruence.
  - intros Hsorted. unfold groupedSensitivity; cbn [dominant moderate].
    rewrite (sort_descending_id rhoKey rows rhoKey_number Hsorted).
    split_and!.
    + by apply take_sorted, filter_sorted.
    + by apply take_sorted, filter_sorted.
    + rewrite take_take. by replace (MAX_PER_GROUP `min` 8) with MAX_PER_GROUP.
    + rewrite take_take. by replace (MAX_PER_GROUP `min` 10) with MAX_PER_GROUP.
Qed.

Lemma renderedTiers_on_descending_rows_witness :
  dominant (renderedTiers ascendingRows) `sublist_of` ascendingRows /\
  abs_rho <$> dominant (renderedTiers (rev ascendingRows))
    = [VNum (Num.dec 5 1); VNum (Num.dec 31 2)] /\
  dominant (groupedSensitivity (rev ascendingRows))
    = take MAX_PER_GROUP (dominant (renderedTiers (rev ascendingRows))).
Proof.
  destruct (renderedTiers_on_descending_rows ascendingRows) as (Hsub & _).
  destruct (renderedTiers_on_descending_rows (rev ascendingRows))
    as (_ & _ & _ & _ & _ & _ & Hdesc).
  destruct Hdesc as (_ & _ & H & _).
  - unfold ascendingRows. cbn [rev app].
    repeat first [ apply SSorted_nil | apply SSorted_cons | apply List.Forall_nil
                 | apply List.Forall_cons; [vm_compute; reflexivity|] ].
  - split_and!; [exact Hsub | vm_compute; reflexivity | exact H].
Defined.

(** ** The factors of the rows after the table is loaded *)

Lemma includes_elem (l : list string) (x : string) :
  Str.includes l x = true <-> x ∈ l.
Proof.
  unfold Str.includes. rewrite existsb_exists. split.
  - intros (y & Hy & ->%String.eqb_eq). by apply list_elem_of_In.
  - intros Hx. exists x. split; [by apply list_elem_of_In | apply String.eqb_refl].
Qed.

Lemma fallbackFactor_elem (cfs : list string) :
  cfs <> [] -> exists fb, fallbackFactor cfs = Some fb /\ fb ∈ cfs.
Proof.
  intros Hne. unfold fallbackFactor.
  destruct (Str.includes cfs "Realistic") eqn:E.
  - exists "Realistic". split; [done | by apply includes_elem].
  - destruct cfs as [|k r]; [done|]. exists k. split; [done | apply list_elem_of_here].
Qed.

Lemma usableFactors_not_excluded (factors : list (string * FactorEntry)) (k : string) :
  k ∈ usableFactors factors -> bool_decide (k ∈ EXCLUDED_FACTORS) = false.
Proof.
  intros [_ Hk]%list_elem_of_In%filter_In. by apply negb_true_iff in Hk.
Qed.

Lemma revalidateFactors_rows (s : State) (fb : string) :
  fallbackFactor (confidenceFactors s) = Some fb ->
  revalidateFactors s
  = setCbsItems (keepOrFallback (confidenceFactors s) fb <$> cbsItems s) s.
Proof. unfold revalidateFactors. by intros ->. Qed.

(** X13. When the factor table arrives with at least one usable key, the
    fallback is Realistic if that is a usable key and the first usable key
    otherwise.  The rows keep their number, order and every field but the
    factor; a row whose factor is empty or usable is left as it is, and
    every other row gets the fallback for its factor, so that afterwards
    the table flags the factor of no row but one that has none.  Running
    the check again changes nothing more, and neither the risks nor the
    results are touched. *)
Theorem factors_loaded_revalidates_rows
    (s : State) (factors : list (string * FactorEntry)) :
  usableFactors factors <> [] ->
  let s' := step s (ConfidenceFactorsLoaded factors) in
  let usable := usableFactors factors in
  exists fallback,
    fallbackFactor usable = Some fallback /\
    fallback = (if Str.includes usable "Realistic" then "Realistic"
                else default "" (head usable)) /\
    fallback ∈ usable /\
    confidenceFactors s' = usable /\
    length (cbsItems s') = length (cbsItems s) /\
    cbsItems s' = keepOrFallback usable fallback <$> cbsItems s /\
    (forall i x, cbsItems s !! i = Some x ->
       exists y, cbsItems s' !! i = Some y /\
         y = Cbs.spread x (factorPatch (Cbs.confidenceFactor y)) /\
         (badFactor usable x = false -> y = x) /\
         (Cbs.confidenceFactor x = "" -> y = x) /\
         (badFactor usable x = true -> Cbs.confidenceFactor x <> "" ->
          y = Cbs.spread x (factorPatch fallback)
          /\ Cbs.confidenceFactor y = fallback) /\
         badFactor (confidenceFactors s') y = String.eqb (Cbs.confidenceFactor y) "") /\
    revalidateFactors s' = s' /\
    risks s' = risks s /\ results s' = results s /\ sensitivity s' = sensitivity s.
Proof.
  intros Hne. cbn zeta. cbn [step].
  destruct (fallbackFactor_elem _ Hne) as (fb & Hfb & Hin).
  pose proof (usableFactors_not_excluded _ _ Hin) as Hfbx.
  assert (Str.includes (usableFactors factors) fb = true) as Hfbi
    by (by apply includes_elem).
  rewrite (revalidateFactors_rows _ fb) by exact Hfb.
  rewrite (revalidateFactors_rows _ fb) by exact Hfb.
  cbn [confidenceFactors cbsItems risks results sensitivity setConfidenceFactorMap
       setConfidenceFactors setCbsItems].
  assert (forall x, Cbs.confidenceFactor x = fb ->
            keepOrFallback (usableFactors factors) fb x = x) as Hkeep.
  { intros x Hx. unfold keepOrFallback. rewrite Hx, Hfbx, Hfbi, andb_false_r.
    done. }
  exists fb. split_and!; try done.
  - revert Hfb. unfold fallbackFactor.
    destruct (Str.includes (usableFactors factors) "Realistic"); [by intros [= <-]|].
    destruct (usableFactors factors); [done | by intros [= <-]].
  - by rewrite length_fmap.
  - intros i x Hx. rewrite list_lookup_fmap, Hx. cbn [fmap option_fmap option_map].
    eexists. split; [reflexivity|].
    unfold badFactor, keepOrFallback.
    assert ((length (usableFactors factors) =? 0) = false) as ->.
    { by destruct (usableFactors factors). }
    cbn [negb andb].
    destruct (bool_decide (Cbs.confidenceFactor x ∈ EXCLUDED_FACTORS)) eqn:Ex;
      cbn [orb].
    + split_and!.
      * done.
      * by rewrite orb_true_r.
      * intros E. by rewrite E in Ex.
      * done.
      * cbn. by rewrite Hfbx, Hfbi, !orb_false_r.
    + destruct (String.eqb (Cbs.confidenceFactor x) "") eqn:E0; cbn [negb andb orb].
      * split_and!; try done; [by destruct x | |by rewrite E0, Ex].
        intros _ Hcf. by apply String.eqb_eq in E0.
      * destruct (Str.includes (usableFactors factors) (Cbs.confidenceFactor x)) eqn:Ei;
          cbn [negb].
        -- split_and!; try done; [by destruct x|]. by rewrite E0, Ex, Ei.
        -- split_and!; try done.
           ++ intros E. by apply String.eqb_neq in E0.
           ++ cbn. by rewrite Hfbx, Hfbi, !orb_false_r.
  - assert (keepOrFallback (usableFactors factors) fb
              <$> (keepOrFallback (usableFactors factors) fb <$> cbsItems s)
            = keepOrFallback (usableFactors factors) fb <$> cbsItems s) as ->; [|done].
    rewrite <- list_fmap_compose. apply list_fmap_ext. intros _ x _. cbn.
    assert (keepOrFallback (usableFactors factors) fb x = x
            \/ Cbs.confidenceFactor (keepOrFallback (usableFactors factors) fb x) = fb)
      as [E|E].
    { unfold keepOrFallback. destruct (_ || _); [by right | by left]. }
    + by rewrite !E.
    + by apply Hkeep.
Qed.

Lemma factors_loaded_revalidates_rows_witness :
  Cbs.confidenceFactor <$> cbsItems (step legacyState (ConfidenceFactorsLoaded sampleFactors))
    = ["Target"; "Realistic"; "Realistic"] /\
  length (cbsItems (step legacyState (ConfidenceFactorsLoaded sampleFactors)))
    = length (cbsItems legacyState).
Proof.
  destruct (factors_loaded_revalidates_rows legacyState sampleFactors)
    as (fallback & _ & _ & _ & _ & H & _).
  - vm_compute. discriminate.
  - split; [vm_compute; reflexivity | exact H].
Defined.

(** ** The flags of the cost table and the validation *)

Lemma validate_nil_row (s : State) (x : Cbs.item) :
  validate (iterations s) (cbsItems s) (risks s) (correlationMode s) = [] ->
  x ∈ cbsItems s ->
  exists i, cbsIssues (correlationMode s) i x = [].
Proof.
  unfold validate. intros H [i Hi]%list_elem_of_lookup.
  apply app_eq_nil in H as [_ H]. apply app_eq_nil in H as [_ H].
  apply app_eq_nil in H as [Hcbs _]. exists i. by eapply concat_imap_nil.
Qed.

(** X14. The red marks of the cost table agree with the validation: while
    the validation engine reports no issue, no row has its base cost
    marked, every row has a factor, and no row whose factor carries no
    surrounding white space has its three manual costs marked.  (The table
    recognises a user-defined row after trimming the factor, the engine
    without trimming.) *)
Theorem valid_inputs_mark_no_cost_cell (s : State) (x : Cbs.item) :
  validate (iterations s) (cbsItems s) (risks s) (correlationMode s) = [] ->
  x ∈ cbsItems s ->
  badBaseCost x = false /\
  Cbs.confidenceFactor x <> "" /\
  (Str.trim (Cbs.confidenceFactor x) = Cbs.confidenceFactor x ->
   badUD (confidenceFactorMap s) x = false).
Proof.
  intros Hvalid Hx. destruct (validate_nil_row s x Hvalid Hx) as [i H].
  unfold cbsIssues in H.
  apply app_eq_nil in H as [_ H]. apply app_eq_nil in H as [Hbase H].
  apply app_eq_nil in H as [Hcf H]. apply app_eq_nil in H as [_ Hud].
  apply pushIf_nil in Hbase, Hcf. apply String.eqb_neq in Hcf.
  apply orb_false_iff in Hbase as [Hn Hz].
  apply negb_false_iff, isNum_finite in Hn as [Hfin _].
  split_and!.
  - unfold badBaseCost. cbn zeta. by destruct (Number (Cbs.baseCost x)).
  - done.
  - intros Htrim. unfold badUD, calcDerivedCosts. cbn zeta.
    destruct (isUserDefinedFactor (Cbs.confidenceFactor x)) eqn:Eud; [|done].
    cbn [andb best ml worst].
    unfold isUserDefinedFactor in Eud. rewrite Htrim in Eud.
    unfold cbsUserDefinedIssues in Hud. rewrite Eud in Hud.
    apply app_eq_nil in Hud as [Hb Hud]. apply app_eq_nil in Hud as [Hm Hud].
    apply app_eq_nil in Hud as [Hw Hord]. unfold cbsOrderIssues in Hord.
    apply app_eq_nil in Hord as [Hbm Hmw].
    apply pushIf_nil in Hb, Hm, Hw, Hbm, Hmw.
    apply orb_false_iff in Hb as [Hb Hb0], Hm as [Hm Hm0], Hw as [Hw Hw0].
    apply negb_false_iff, isNum_finite in Hb as [Hbf _], Hm as [Hmf _], Hw as [Hwf _].
    rewrite Hbf, Hmf in Hbm. rewrite Hmf, Hwf in Hmw. cbn [andb] in Hbm, Hmw.
    rewrite Hbf, Hmf, Hwf.
    rewrite (finite_not_lt_zero _ Hbf Hb0), (finite_not_lt_zero _ Hmf Hm0),
      (finite_not_lt_zero _ Hwf Hw0).
    by rewrite (not_gtb_leb _ _ Hbf Hmf Hbm), (not_gtb_leb _ _ Hmf Hwf Hmw).
Qed.

Lemma valid_inputs_mark_no_cost_cell_witness :
  badBaseCost sampleItem = false /\
  validate (iterations paddedState) (cbsItems paddedState) (risks paddedState)
    (correlationMode paddedState) = [] /\
  badUD (confidenceFactorMap paddedState) <$> cbsItems paddedState = [false; true].
Proof.
  destruct (valid_inputs_mark_no_cost_cell paddedState sampleItem) as (H & _).
  - vm_compute. reflexivity.
  - apply list_elem_of_here.
  - split_and!; [exact H | vm_compute; reflexivity | vm_compute; reflexivity].
Defined.

(** ** The sensitivity slider *)

Lemma elem_of_pushIf (c : bool) (i j : Issue) : j ∈ pushIf c i <-> c = true /\ j = i.
Proof.
  destruct c; cbn.
  - rewrite list_elem_of_singleton. intuition congruence.
  - split; [by intros ?%elem_of_nil | by intros [? _]].
Qed.

(** The sensitivity message comes from the check of the level and from
    nowhere else. *)
Lemma cbsIssues_sensitivity (i : nat) (x : Cbs.item) :
  CbsSensitivityLevel (i + 1) ∈ cbsIssues "standard" i x <->
  Str.includes ["low"; "medium"; "high"]
    (Str.toLowerCase
       (if String.eqb (Cbs.sensitivity x) "" then "medium" else Cbs.sensitivity x))
  = false.
Proof.
  unfold cbsIssues, cbsCorrelationIssues, cbsUserDefinedIssues, cbsOrderIssues.
  change (String.eqb (Str.toLowerCase "standard") "standard") with true.
  cbn iota zeta.
  destruct (String.eqb (Str.toLowerCase (Cbs.confidenceFactor x)) "user defined").
  - rewrite !elem_of_app, !elem_of_pushIf, negb_true_iff. intuition congruence.
  - rewrite !elem_of_app, !elem_of_pushIf, elem_of_nil, negb_true_iff.
    intuition congruence.
Qed.

(** X15. The slider of the standard mode has the four positions 0 to 3.  At
    position [k] it writes the [k]-th of the levels none, low, medium and
    high into the row, and shows a row that holds that level at position
    [k] again; the validation engine accepts the levels of positions 1 to
    3 and reports the sensitivity issue for the row exactly at position 0
    (none).  A row that holds any other text is shown at the position of
    its level written in small letters, or at medium when that is no
    level. *)
Theorem sensitivity_slider_positions (k i : nat) (x : Cbs.item) (held : string) :
  k < 4 ->
  (exists level,
     indexToSensitivity (VStr (pretty k)) = Some level /\
     SENSITIVITY_LEVELS !! k = Some level /\
     sensitivityToIndex level = k /\
     (CbsSensitivityLevel (i + 1)
        ∈ cbsIssues "standard" i (Cbs.spread x (sensitivityPatch level))
      <-> k = 0)) /\
  sensitivityToIndex held < 4 /\
  indexToSensitivity (VNum (Num.ofZ (Z.of_nat (sensitivityToIndex held))))
  = Some (if Str.includes SENSITIVITY_LEVELS (Str.toLowerCase held)
          then Str.toLowerCase held else "medium").
Proof.
  intros Hk. split; [|].
  - assert (k = 0 \/ k = 1 \/ k = 2 \/ k = 3) as [->|[->|[->| ->]]] by lia.
    + exists "none". split_and!; try reflexivity.
      rewrite cbsIssues_sensitivity. done.
    + exists "low". split_and!; try reflexivity.
      rewrite cbsIssues_sensitivity. done.
    + exists "medium". split_and!; try reflexivity.
      rewrite cbsIssues_sensitivity. done.
    + exists "high". split_and!; try reflexivity.
      rewrite cbsIssues_sensitivity. done.
  - unfold sensitivityToIndex, SENSITIVITY_LEVELS, Str.includes.
    cbn [Str.indexOf existsb].
    rewrite !(String.eqb_sym (Str.toLowerCase held)).
    destruct (String.eqb "none" (Str.toLowerCase held)) eqn:E0.
    { apply String.eqb_eq in E0 as <-. split; [cbn; lia | reflexivity]. }
    destruct (String.eqb "low" (Str.toLowerCase held)) eqn:E1.
    { apply String.eqb_eq in E1 as <-. split; [cbn; lia | reflexivity]. }
    destruct (String.eqb "medium" (Str.toLowerCase held)) eqn:E2.
    { apply String.eqb_eq in E2 as <-. split; [cbn; lia | reflexivity]. }
    destruct (String.eqb "high" (Str.toLowerCase held)) eqn:E3.
    { apply String.eqb_eq in E3 as <-. split; [cbn; lia | reflexivity]. }
    split; [cbn; lia | reflexivity].
Qed.

Lemma sensitivity_slider_positions_witness :
  indexToSensitivity (VStr "0") = Some "none" /\
  CbsSensitivityLevel 1
    ∈ cbsIssues "standard" 0 (Cbs.spread sampleItem (sensitivityPatch "none")).
Proof.
  destruct (sensitivity_slider_positions 0 0 sampleItem "") as [(level & H1 & H2 & _ & H3) _].
  - lia.
  - injection H2 as <-. split; [exact H1 | by apply H3].
Defined.

(** ** Edits of one row *)

Lemma filter_other_keys {A : Type} (key : A -> string) (l : list A) (i : nat) (x : A) :
  NoDup (key <$> l) -> l !! i = Some x ->
  List.filter (fun y => negb (String.eqb (key y) (key x))) l = delete i l.
Proof.
  revert i. induction l as [|y l IH]; intros i Hnd Hi; [done|].
  rewrite fmap_cons in Hnd. apply NoDup_cons in Hnd as [Hy Hnd].
  cbn [List.filter]. destruct i as [|i].
  - injection Hi as ->. rewrite String.eqb_refl. cbn [negb].
    transitivity l; [|done]. apply forallb_filter_id, forallb_forall. intros z Hz%list_elem_of_In.
    apply negb_true_iff, String.eqb_neq. intros E. apply Hy.
    rewrite <- E. by apply list_elem_of_fmap_2.
  - cbn in Hi. assert (key y <> key x) as Hne.
    { intros E. apply Hy. rewrite E. eapply list_elem_of_fmap_2, list_elem_of_lookup_2, Hi. }
    apply String.eqb_neq in Hne. rewrite Hne. cbn [negb].
    transitivity (y :: delete i l); [|done]. f_equal. by apply IH.
Qed.

Lemma fmap_one_key {A : Type} (key : A -> string) (f : A -> A) (l : list A)
    (i : nat) (x : A) :
  NoDup (key <$> l) -> l !! i = Some x ->
  (fun y => if negb (String.eqb (key y) (key x)) then y else f y) <$> l
  = <[i := f x]> l.
Proof.
  revert i. induction l as [|y l IH]; intros i Hnd Hi; [done|].
  rewrite fmap_cons in Hnd. apply NoDup_cons in Hnd as [Hy Hnd].
  rewrite fmap_cons. destruct i as [|i].
  - injection Hi as ->. rewrite String.eqb_refl. cbn [negb]. cbn. f_equal.
    etrans; [|apply list_fmap_id]. apply list_fmap_ext. intros _ z Hz%list_elem_of_lookup_2.
    assert (key z <> key x) as Hne.
    { intros E. apply Hy. rewrite <- E. by apply list_elem_of_fmap_2. }
    apply String.eqb_neq in Hne. by rewrite Hne.
  - cbn in Hi. assert (key y <> key x) as Hne.
    { intros E. apply Hy. rewrite E. eapply list_elem_of_fmap_2, list_elem_of_lookup_2, Hi. }
    apply String.eqb_neq in Hne. rewrite Hne. cbn. f_equal. by apply IH.
Qed.

(** X16. While the identifiers are pairwise different, an edit reaches one
    row: updating the row at position [i] by its identifier replaces that
    row where it stands and leaves every other row as it is and where it
    is, and deleting it by its identifier removes the row at position [i]
    and no other.  This holds for the CBS items and for the risks. *)
Theorem row_edits_reach_one_row
    (s : State) (i : nat) (x : Cbs.item) (patch : Cbs.patch)
    (j : nat) (r : Risk.item) (riskPatch : Risk.patch) :
  NoDup (Cbs.id <$> cbsItems s) -> NoDup (Risk.id <$> risks s) ->
  cbsItems s !! i = Some x -> risks s !! j = Some r ->
  (exists y, cbsItems (step s (UpdateCbsRow (Cbs.id x) patch)) = <[i := y]> (cbsItems s)) /\
  cbsItems (step s (DeleteCbsRow (Cbs.id x))) = delete i (cbsItems s) /\
  (exists y, risks (step s (UpdateRiskRow (Risk.id r) riskPatch)) = <[j := y]> (risks s)) /\
  risks (step s (DeleteRiskRow (Risk.id r))) = delete j (risks s).
Proof.
  intros Hc Hr Hi Hj. cbn [step resetResults cbsItems risks setCbsItems setRisks
    setResults setSensitivity setCommentary setCommentaryMode setCommentaryError].
  split_and!.
  - eexists. unfold updateCbsRow. by apply (fmap_one_key Cbs.id).
  - by apply (filter_other_keys Cbs.id).
  - eexists. unfold updateRiskRow. by apply (fmap_one_key Risk.id).
  - by apply (filter_other_keys Risk.id).
Qed.

Lemma row_edits_reach_one_row_witness :
  Cbs.id <$> cbsItems (step initialState (DeleteCbsRow "cbs02")) = ["cbs01"; "cbs03"; "cbs04"] /\
  risks (step initialState (DeleteRiskRow "r01")) = delete 0 (risks initialState).
Proof.
  destruct (row_edits_reach_one_row initialState 1
              (default sampleItem (cbsItems initialState !! 1)) Cbs.noPatch 0
              (default weatherRisk (risks initialState !! 0)) Risk.noPatch)
    as (_ & _ & _ & H).
  - apply (bool_decide_unpack _). vm_compute. reflexivity.
  - apply (bool_decide_unpack _). vm_compute. reflexivity.
  - vm_compute. reflexivity.
  - vm_compute. reflexivity.
  - split; [vm_compute; reflexivity | exact H].
Defined.

(** ** Repeated names in a CBS file *)

Lemma NoDup_fmap_eq {A B : Type} (f : A -> B) (l : list A) (x y : A) :
  NoDup (f <$> l) -> x ∈ l -> y ∈ l -> f x = f y -> x = y.
Proof.
  induction l as [|a l IH]; intros Hnd Hx Hy E; [by apply elem_of_nil in Hx|].
  rewrite fmap_cons in Hnd. apply NoDup_cons in Hnd as [Ha Hnd].
  apply elem_of_cons in Hx as [->|Hx], Hy as [->|Hy].
  - done.
  - destruct Ha. rewrite E. by apply list_elem_of_fmap_2.
  - destruct Ha. rewrite <- E. by apply list_elem_of_fmap_2.
  - by apply IH.
Qed.

(** X17. When a name is repeated in a CBS file of ASCII text with a name
    column, the first row that bears it wins: the parser returns the record
    built from the cells of the first data row with that name (compared in
    lower case, after trimming), and that record is the only one it returns
    under the name, whatever the later rows with the name hold. *)
Theorem parseCbsCsv_first_row_wins
    (csvText first : string) (before : list string) (line : string)
    (after : list string) (nameIdx : nat) :
  let c := cbsColumns (Str.toLowerCase <$> splitRow first) in
  let nameOf l := Str.trim (Str.cellAt (splitRow l) nameIdx) in
  Str.isAscii csvText = true ->
  normaliseLines csvText = first :: before ++ line :: after ->
  col_name c = Some nameIdx ->
  nameOf line <> "" ->
  (forall l, l ∈ before -> Str.toLowerCase (nameOf l) <> Str.toLowerCase (nameOf line)) ->
  cbsRecord c (nameOf line) (splitRow line) ∈ parseCbsCsv csvText /\
  (forall r, r ∈ parseCbsCsv csvText ->
     Str.toLowerCase (csv_name r) = Str.toLowerCase (nameOf line) ->
     r = cbsRecord c (nameOf line) (splitRow line)).
Proof.
  intros c nameOf _ Hlines Hcol Hname Hfirst.
  assert (cbsRecord c (nameOf line) (splitRow line) ∈ parseCbsCsv csvText) as Hin.
  { unfold parseCbsCsv. rewrite Hlines. cbn zeta. fold c. rewrite Hcol.
    apply cbsLoop_first; [done | apply not_elem_of_empty | done]. }
  split; [exact Hin|]. intros r Hr E.
  destruct (parseCbsCsv_names csvText) as [Hnd _].
  eapply NoDup_fmap_eq; [exact Hnd | done | done |]. cbn beta. rewrite E.
  unfold cbsRecord. by destruct (trioCols c) as [[[? ?] ?]|].
Qed.

Lemma parseCbsCsv_first_row_wins_witness :
  mkCbsCsvRow "Design" (Some (Num.ofZ 10)) None None None ∈ parseCbsCsv repeatedNamesCsv /\
  csv_baseCost <$> parseCbsCsv repeatedNamesCsv
    = [Some (Num.ofZ 10); Some (Num.ofZ (-5))].
Proof.
  destruct (parseCbsCsv_first_row_wins repeatedNamesCsv "cbs,cost" []
              "Design,10" ["DESIGN ,20"; ",30"; "Build,-5"] 0) as [H _].
  - vm_compute. reflexivity.
  - vm_compute. reflexivity.
  - vm_compute. reflexivity.
  - vm_compute. discriminate.
  - intros l Hl. by apply elem_of_nil in Hl.
  - split; [|vm_compute; reflexivity]. revert H. vm_compute. exact id.
Defined.
